(** * ml_pivot: the Edit Pivot / Reset Pivot tool, embedded in Rocq

    The script [scripts/ml_pivot.py] is an orchestration of calls into a host
    application (maya.cmds, OpenMaya, Qt) and into the companion module
    ml_utilities.  The embedding keeps that shape:

    - [mc] is the signature of the host calls the script makes, one
      constructor per call site shape, with the flags the script passes;
    - [Prog] is the monad the script runs in: host calls that may raise,
      Python exceptions, [try/except], and the attributes of [self];
    - the functions of the script ([ui], [editPivot], [bakePivot],
      [cleanup], [reset_pivot], ...) are programs in that monad;
    - a [Host] answers the calls; [run] executes a program against a host
      and records the calls made;
    - [Maya] is one host, a scene of animated transforms with the baking
      routine, on which the effect of a bake on the motion of a node can be
      stated.

    The statements about the control flow of the script hold on every
    host; the statements about motion hold on [Maya]. *)

From Stdlib Require Import String Ascii List ZArith Bool Lia Ring.
From Stdlib Require QArith Qcanon.
Import ListNotations.
Open Scope string_scope.
Open Scope list_scope.

(** ** Numbers

    Attribute values are Python floats.  The script only compares them with
    [==] and subtracts them, so it is written against any carrier with these
    operations; no law is assumed of them. *)

Class Number : Type := {
  Num : Type;
  zero : Num;
  num_eqb : Num -> Num -> bool;
  num_sub : Num -> Num -> Num
}.

(** ** Python values and exceptions *)

Inductive Exn : Type :=
| TypeError
| IndexError
| ValueError
| AttributeError
| RuntimeError.

Inductive Result (T : Type) : Type :=
| Returned (v : T)
| Raised (e : Exn).
Arguments Returned {T} v.
Arguments Raised {T} e.

(** The callables the script hands to the host as callbacks. *)
Inductive Callback : Type :=
| cb_edit_pivot
| cb_reset_pivot
| cb_bakePivot
| cb_cleanup
| cb_doEditPivotDriver.

(** The attributes of an [EditPivotContext] instance; [None] is Python's
    [None] (or an attribute not assigned yet). *)
Record Ctx : Type := mkCtx {
  node : option string;
  pivotHandle : option string;
  scriptJob : option Z;
  pivotDriver : option string;
  pivotDriverWindow : option string;
  floatSlider : option string
}.

(** Qt constants used by the event filter. *)
Definition QEvent_KeyPress : Z := 6.
Definition Key_Escape : Z := 16777216.   (* 0x01000000 *)
Definition Key_Return : Z := 16777220.   (* 0x01000004 *)

Record QEvent : Type := mkQEvent {
  ev_type : Z;
  ev_key : Z
}.

Section Script.

Context {N : Number}.

Definition Vec : Type := (Num * Num * Num)%type.

(** Python tuple comparison [a == b] on triples. *)
Definition vec_eqb (a b : Vec) : bool :=
  let '(ax, ay, az) := a in
  let '(bx, by_, bz) := b in
  num_eqb ax bx && num_eqb ay by_ && num_eqb az bz.

(** A positional value passed to [setAttr]. *)
Inductive Arg : Type :=
| ANum (x : Num)
| ABool (b : bool).

(** ** The host calls made by the script *)

Inductive mc : Type -> Type :=
(* maya.cmds, query forms *)
| ls_sl : mc (list string)
| ls_o (pattern : string) : mc (list string)
| attributeQuery_exists (attr node_ : string) : mc bool
| attributeQuery_minimum (attr node_ : string) : mc (list Num)
| attributeQuery_maximum (attr node_ : string) : mc (list Num)
| attributeQuery_listDefault (attr node_ : string) : mc (list Num)
| getAttr (plug : string) : mc Num
| getAttr3 (plug : string) : mc (list Vec)
| getAttr_keyable (plug : string) : mc bool
| getAttr_lock (plug : string) : mc bool
| listConnections (plug : string) (plugs : bool) : mc (list string)
| nodeType (node_ : string) : mc string
| objExists (obj : option string) : mc bool
| keyframe_query_name (node_ : string) (attribute : list string) : mc (list string)
| scriptJob_exists (job : option Z) : mc bool
| window_exists (name : string) : mc bool
| floatSliderButtonGrp_query_value (control : string) : mc Num
(* maya.cmds, edit forms *)
| setAttr (plug : string) (values : list Arg) (lock keyable : option bool) : mc unit
| addAttr (node_ ln at_ : string) (keyable : bool) : mc unit
| group_em (name : option string) : mc string
| parent (child : string) (parent_ : option string) : mc (list string)
| parentConstraint (target object : string) : mc (list string)
| delete (objs : list (option string)) : mc unit
| lockNode (obj : option string) (lock : bool) : mc unit
| select (node_ : string) : mc unit
| cutKey (plug : string) : mc unit
| refresh : mc unit
| setToolTo (tool : string) : mc unit
| scriptJob_event (event : string) (callback : Callback) (runOnce : bool) : mc Z
| scriptJob_kill (job : option Z) (force : bool) : mc unit
| inViewMessage (amg pos : string) (fade : bool) (fadeStayTime : Z) (dragKill : bool) : mc unit
| deleteUI (name : string) : mc unit
| window_create (name : string) (width height : Z) : mc string
| window_edit (name : string) (width height : Z) : mc unit
| columnLayout : mc string
| floatSliderButtonGrp (label : string) (field : bool) (value : Num)
    (buttonLabel : string) (minValue maxValue : Num) (buttonCommand : Callback) : mc string
| showWindow (name : string) : mc unit
(* om.MGlobal *)
| displayWarning (msg : string) : mc unit
(* qt_maya_window *)
| installEventFilter : mc unit
| removeEventFilter : mc unit
(* ml_utilities *)
| matchBake (source destination : list string)
    (bakeOnOnes maintainOffset preserveTangentWeight : bool) (rotate : option bool) : mc unit
| UndoChunk_enter (force : bool) : mc unit
| UndoChunk_exit : mc unit
| MlUi_enter (name title : string) (width height : Z) (info : string) : mc unit
| MlUi_exit : mc unit
| buttonWithPopup (label : string) (command : Callback)
    (annotation shelfLabel shelfIcon : string) : mc unit.

(** A call as it appears in the log of an execution. *)
Inductive Event : Type :=
| Ev {T : Type} (c : mc T).

(** A call together with what the host answered. *)
Inductive Reply : Type :=
| Re {T : Type} (c : mc T) (r : Result T).

(** The calls that only read the scene or the UI: the [query=True],
    [exists=True] and listing forms. *)
Definition is_query {T : Type} (c : mc T) : bool :=
  match c with
  | ls_sl | ls_o _
  | attributeQuery_exists _ _ | attributeQuery_minimum _ _
  | attributeQuery_maximum _ _ | attributeQuery_listDefault _ _
  | getAttr _ | getAttr3 _ | getAttr_keyable _ | getAttr_lock _
  | listConnections _ _ | nodeType _ | objExists _
  | keyframe_query_name _ _ | scriptJob_exists _ | window_exists _
  | floatSliderButtonGrp_query_value _ => true
  | _ => false
  end.

(** ** The monad of the script *)

Inductive Prog (A : Type) : Type :=
| Ret (a : A)
| Raise (e : Exn)
| Call {T : Type} (c : mc T) (k : Result T -> Prog A)
| GetSelf (k : Ctx -> Prog A)
| SetSelf (s : Ctx) (k : Prog A).
Arguments Ret {A} a.
Arguments Raise {A} e.
Arguments Call {A T} c k.
Arguments GetSelf {A} k.
Arguments SetSelf {A} s k.

Fixpoint bind {A B : Type} (p : Prog A) (f : A -> Prog B) : Prog B :=
  match p with
  | Ret a => f a
  | Raise e => Raise e
  | Call c k => Call c (fun r => bind (k r) f)
  | GetSelf k => GetSelf (fun s => bind (k s) f)
  | SetSelf s k => SetSelf s (bind k f)
  end.

(** [try: p except: h]. *)
Fixpoint catch {A : Type} (p : Prog A) (h : Exn -> Prog A) : Prog A :=
  match p with
  | Ret a => Ret a
  | Raise e => h e
  | Call c k => Call c (fun r => catch (k r) h)
  | GetSelf k => GetSelf (fun s => catch (k s) h)
  | SetSelf s k => SetSelf s (catch k h)
  end.

(** A host call: an exception raised by the host propagates. *)
Definition call {T : Type} (c : mc T) : Prog T :=
  Call c (fun r => match r with Returned v => Ret v | Raised e => Raise e end).

Definition self : Prog Ctx := GetSelf (fun s => Ret s).
Definition set_self (s : Ctx) : Prog unit := SetSelf s (Ret tt).

End Script.

Arguments Ret {N A} a.
Arguments Raise {N A} e.
Arguments Call {N A T} c k.
Arguments GetSelf {N A} k.
Arguments SetSelf {N A} s k.
Arguments Ev {N T} c.
Arguments Re {N T} c r.

Declare Scope prog_scope.
Delimit Scope prog_scope with prog.
Notation "x <- p ;; q" := (bind p (fun x => q))
  (at level 100, p at next level, right associativity) : prog_scope.
Notation "p ;; q" := (bind p (fun _ => q))
  (at level 100, right associativity) : prog_scope.
Open Scope prog_scope.

Section Python.

Context {N : Number}.

(** [try: p except: pass]. *)
Definition try_pass (p : Prog unit) : Prog unit :=
  catch p (fun _ => Ret tt).

(** [with cm: body], for a context manager given by its enter and exit
    calls: the exit runs on both paths and an exception of the body is
    raised again after it. *)
Definition with_ {A : Type} (enter exit : mc unit) (body : Prog A) : Prog A :=
  call enter ;;
  r <- catch (a <- body ;; Ret (Returned a)) (fun e => Ret (Raised e)) ;;
  call exit ;;
  match r with
  | Returned a => Ret a
  | Raised e => Raise e
  end.

(** [l[0]]. *)
Definition item0 {A : Type} (l : list A) : Prog A :=
  match l with
  | x :: _ => Ret x
  | [] => Raise IndexError
  end.

(** [o + '.attr']: concatenating [None] raises TypeError. *)
Definition str_of (o : option string) : Prog string :=
  match o with
  | Some s => Ret s
  | None => Raise TypeError
  end.

(** Reading an attribute of [self] that was never assigned. *)
Definition attr_of {A : Type} (o : option A) : Prog A :=
  match o with
  | Some s => Ret s
  | None => Raise AttributeError
  end.

(** Truth value of a string-or-None. *)
Definition truthy (o : option string) : bool :=
  match o with
  | Some s => negb (s =? "")
  | None => false
  end.

(** [s.split('.', 1)] unpacked into two names: ValueError when [s] has no dot. *)
Fixpoint split_dot (s : string) : option (string * string) :=
  match s with
  | EmptyString => None
  | String c rest =>
      if Ascii.eqb c "."%char then Some (EmptyString, rest)
      else match split_dot rest with
           | Some (a, b) => Some (String c a, b)
           | None => None
           end
  end.

Definition split2 (s : string) : Prog (string * string) :=
  match split_dot s with
  | Some ab => Ret ab
  | None => Raise ValueError
  end.

End Python.

(** ** The script *)

Section MlPivot.

Context {N : Number}.

Definition vec_args (v : Vec) : list Arg :=
  let '(x, y, z) := v in [ANum x; ANum y; ANum z].

(** Assignments to the attributes of [self]. *)
Definition assign_node (v : option string) : Prog unit :=
  s <- self ;;
  set_self (mkCtx v (pivotHandle s) (scriptJob s) (pivotDriver s) (pivotDriverWindow s) (floatSlider s)).

Definition assign_pivotHandle (v : option string) : Prog unit :=
  s <- self ;;
  set_self (mkCtx (node s) v (scriptJob s) (pivotDriver s) (pivotDriverWindow s) (floatSlider s)).

Definition assign_scriptJob (v : option Z) : Prog unit :=
  s <- self ;;
  set_self (mkCtx (node s) (pivotHandle s) v (pivotDriver s) (pivotDriverWindow s) (floatSlider s)).

Definition assign_pivotDriver (v : option string) : Prog unit :=
  s <- self ;;
  set_self (mkCtx (node s) (pivotHandle s) (scriptJob s) v (pivotDriverWindow s) (floatSlider s)).

Definition assign_pivotDriverWindow (v : option string) : Prog unit :=
  s <- self ;;
  set_self (mkCtx (node s) (pivotHandle s) (scriptJob s) (pivotDriver s) v (floatSlider s)).

Definition assign_floatSlider (v : option string) : Prog unit :=
  s <- self ;;
  set_self (mkCtx (node s) (pivotHandle s) (scriptJob s) (pivotDriver s) (pivotDriverWindow s) v).

(** [EditPivotContext.__init__]. *)
Definition EditPivotContext : Ctx :=
  mkCtx None None None None None None.

(** [for each in l: body each]. *)
Fixpoint for_each {A : Type} (l : list A) (body : A -> Prog unit) : Prog unit :=
  match l with
  | [] => Ret tt
  | each :: rest => body each ;; for_each rest body
  end.

Definition ui_info : string :=
  "Select an animated control whose pivot you'd like to change, and press Edit Pivot.
Your selection with change to handle, position this where you'd like the pivot to be
and press Return. Or press ESC or deselect to cancel.".

(** [ui]. *)
Definition ui : Prog unit :=
  with_ (MlUi_enter "ml_pivot" "Change Pivot" 400 150 ui_info) MlUi_exit
    (call (buttonWithPopup "Edit Pivot" cb_edit_pivot
             "Creates a temporary node to positon for the new pivot."
             "pivot" "defaultTwoStackedLayout") ;;
     call (buttonWithPopup "Reset Pivot" cb_reset_pivot
             "Rest the rotation pivot to zero."
             "reset" "defaultTwoStackedLayout")).

(** [PivotKeypressFilter.eventFilter]. *)
Definition eventFilter (enterCommand escapeCommand : Prog unit) (event : QEvent) : Prog bool :=
  (if (ev_type event =? QEvent_KeyPress)%Z then
     (if (ev_key event =? Key_Return)%Z then
        with_ (UndoChunk_enter true) UndoChunk_exit enterCommand
      else Ret tt) ;;
     (if (ev_key event =? Key_Escape)%Z then
        escapeCommand ;;
        call removeEventFilter
      else Ret tt)
   else Ret tt) ;;
  Ret false.

(** [EditPivotContext.cleanup], in its three steps: the body of the first
    [try], the body of the second [try], and the unguarded rest. *)
Definition cleanup_handle : Prog unit :=
  s <- self ;;
  call (lockNode (pivotHandle s) false) ;;
  call (delete [pivotHandle s]).

Definition cleanup_job : Prog unit :=
  s <- self ;;
  alive <- call (scriptJob_exists (scriptJob s)) ;;
  if alive : bool then call (scriptJob_kill (scriptJob s) true) else Ret tt.

Definition cleanup_leftovers : Prog unit :=
  pivotHandles <- call (ls_o "*.ml_pivot_handle") ;;
  match pivotHandles with
  | [] => Ret tt
  | _ => for_each pivotHandles (fun each =>
           call (lockNode (Some each) false) ;;
           call (delete [Some each]))
  end.

Definition cleanup : Prog unit :=
  try_pass cleanup_handle ;;
  try_pass cleanup_job ;;
  cleanup_leftovers.

(** [EditPivotContext.bakePivot]. *)
Definition bakePivot : Prog unit :=
  s <- self ;;
  handleExists <- call (objExists (pivotHandle s)) ;;
  gone <- (if negb handleExists then Ret true
           else nodeExists <- call (objExists (node s)) ;; Ret (negb nodeExists)) ;;
  if gone : bool then cleanup
  else
    h <- str_of (pivotHandle s) ;;
    newPivot <- (l <- call (getAttr3 (h ++ ".translate")) ;; item0 l) ;;
    n <- str_of (node s) ;;
    oldPivot <- (l <- call (getAttr3 (n ++ ".rotatePivot")) ;; item0 l) ;;
    if vec_eqb newPivot oldPivot then cleanup
    else
      curves <- call (keyframe_query_name n ["tx"; "ty"; "tz"; "rx"; "ry"; "rz"]) ;;
      match curves with
      | [] =>
          call (setAttr (n ++ ".rotatePivot") (vec_args newPivot) None None) ;;
          cleanup
      | _ =>
          tempPosition <- call (group_em None) ;;
          c <- call (parentConstraint h tempPosition) ;;
          call (delete (map Some c)) ;;
          call (matchBake [n] [tempPosition] true true false (Some false)) ;;
          call (setAttr (n ++ ".rotatePivot") (vec_args newPivot) None None) ;;
          call (matchBake [tempPosition] [n] true false false (Some false)) ;;
          call (delete [Some tempPosition]) ;;
          call (select n) ;;
          cleanup ;;
          try_pass (call removeEventFilter)
      end.

(** The filter built by [EditPivotContext.__init__]:
    [PivotKeypressFilter(self.bakePivot, self.cleanup)]. *)
Definition keypressFilter : QEvent -> Prog bool :=
  eventFilter bakePivot cleanup.

(** [pivot_driver_attr]. *)
Fixpoint pivot_driver_attr_loop (node_ : string) (attrs : list string) : Prog (option string) :=
  match attrs with
  | [] => Ret None
  | each :: rest =>
      src <- call (listConnections (node_ ++ "." ++ each) false) ;;
      match src with
      | [] => pivot_driver_attr_loop node_ rest
      | src0 :: _ =>
          srcType <- call (nodeType src0) ;;
          if srcType =? "remapValue" then
            src' <- call (listConnections (src0 ++ ".inputValue") true) ;;
            match src' with
            | [] => pivot_driver_attr_loop node_ rest
            | plug :: _ =>
                k <- call (getAttr_keyable plug) ;;
                if k : bool then
                  l <- call (getAttr_lock plug) ;;
                  if negb l then Ret (Some plug)
                  else pivot_driver_attr_loop node_ rest
                else pivot_driver_attr_loop node_ rest
            end
          else pivot_driver_attr_loop node_ rest
      end
  end.

Definition pivot_driver_attr (node_ : string) : Prog (option string) :=
  pivot_driver_attr_loop node_ ["rotatePivotX"; "rotatePivotY"; "rotatePivotZ"].

(** [is_pivot_connected]. *)
Fixpoint is_pivot_connected_loop (node_ : string) (attrs : list string) : Prog bool :=
  match attrs with
  | [] => Ret false
  | each :: rest =>
      src <- call (listConnections (node_ ++ "." ++ each) false) ;;
      match src with
      | _ :: _ => Ret true
      | [] => is_pivot_connected_loop node_ rest
      end
  end.

Definition is_pivot_connected (node_ : string) : Prog bool :=
  is_pivot_connected_loop node_
    ["rotatePivot"; "rotatePivotX"; "rotatePivotY"; "rotatePivotZ"].

(** [EditPivotContext.editPivotDriver]. *)
Definition editPivotDriver (driver : string) : Prog unit :=
  assign_pivotDriver (Some driver) ;;
  na <- split2 driver ;;
  let '(node_, attr) := na in
  value <- call (getAttr driver) ;;
  minValue <- (l <- call (attributeQuery_minimum attr node_) ;; item0 l) ;;
  maxValue <- (l <- call (attributeQuery_maximum attr node_) ;; item0 l) ;;
  assign_pivotDriverWindow (Some "ml_pivot_editPivotDriverUI") ;;
  shown <- call (window_exists "ml_pivot_editPivotDriverUI") ;;
  (if shown : bool then call (deleteUI "ml_pivot_editPivotDriverUI") else Ret tt) ;;
  window <- call (window_create "ml_pivot_editPivotDriverUI" 1 1) ;;
  call columnLayout ;;
  slider <- call (floatSliderButtonGrp attr true value "Bake" minValue maxValue
                    cb_doEditPivotDriver) ;;
  assign_floatSlider (Some slider) ;;
  call (showWindow window) ;;
  call (window_edit "ml_pivot_editPivotDriverUI" 1 1).

(** [EditPivotContext.doEditPivotDriver]. *)
Definition doEditPivotDriver : Prog unit :=
  s <- self ;;
  slider <- attr_of (floatSlider s) ;;
  newValue <- call (floatSliderButtonGrp_query_value slider) ;;
  try_pass (w <- attr_of (pivotDriverWindow s) ;; call (deleteUI w)) ;;
  driver <- attr_of (pivotDriver s) ;;
  currentValue <- call (getAttr driver) ;;
  if num_eqb newValue currentValue then Ret tt
  else
    n <- str_of (node s) ;;
    oldRP <- (l <- call (getAttr3 (n ++ ".rotatePivot")) ;; item0 l) ;;
    call (setAttr driver [ANum newValue] None None) ;;
    newRP <- (l <- call (getAttr3 (n ++ ".rotatePivot")) ;; item0 l) ;;
    call (setAttr driver [ANum currentValue] None None) ;;
    parentPosition <- call (group_em None) ;;
    offsetPosition <- call (group_em None) ;;
    offsetPosition <- (l <- call (parent offsetPosition (Some parentPosition)) ;; item0 l) ;;
    (let '(ox, oy, oz) := oldRP in
     let '(nx, ny, nz) := newRP in
     call (setAttr (offsetPosition ++ ".translate")
             [ANum (num_sub nx ox); ANum (num_sub ny oy); ANum (num_sub nz oz)]
             None None)) ;;
    c <- call (parentConstraint n parentPosition) ;;
    call (delete (map Some c)) ;;
    call (matchBake [n] [parentPosition] true false false None) ;;
    call (cutKey driver) ;;
    call (setAttr driver [ANum newValue] None None) ;;
    call refresh ;;
    call (matchBake [offsetPosition] [n] true false false (Some false)) ;;
    call (delete [Some parentPosition]).

(** [EditPivotContext.editPivotHandle]. *)
Definition editPivotHandle : Prog unit :=
  call installEventFilter ;;
  h <- call (group_em (Some "Adjust_Pivot")) ;;
  assign_pivotHandle (Some h) ;;
  call (setAttr (h ++ ".rotate") [] (Some true) None) ;;
  call (setAttr (h ++ ".rx") [] None (Some false)) ;;
  call (setAttr (h ++ ".ry") [] None (Some false)) ;;
  call (setAttr (h ++ ".rz") [] None (Some false)) ;;
  call (setAttr (h ++ ".scale") [] (Some true) None) ;;
  call (setAttr (h ++ ".sx") [] None (Some false)) ;;
  call (setAttr (h ++ ".sy") [] None (Some false)) ;;
  call (setAttr (h ++ ".sz") [] None (Some false)) ;;
  call (setAttr (h ++ ".visibility") [] (Some true) (Some false)) ;;
  call (setAttr (h ++ ".displayHandle") [ABool true] None None) ;;
  s <- self ;;
  h <- (l <- call (parent h (node s)) ;; item0 l) ;;
  assign_pivotHandle (Some h) ;;
  call (addAttr h "ml_pivot_handle" "bool" false) ;;
  n <- str_of (node s) ;;
  rp <- (l <- call (getAttr3 (n ++ ".rotatePivot")) ;; item0 l) ;;
  call (setAttr (h ++ ".translate") (vec_args rp) None None) ;;
  call (lockNode (Some h) true) ;;
  job <- call (scriptJob_event "SelectionChanged" cb_cleanup true) ;;
  assign_scriptJob (Some job) ;;
  call (setToolTo "Move") ;;
  call (inViewMessage
          "After moving the pivot, press <hl>Return</hl> to bake or <hl>Esc</hl> to cancel."
          "midCenterTop" true 4000 true).

(** [EditPivotContext.editPivot]. *)
Definition editPivot : Prog unit :=
  sel <- call ls_sl ;;
  match sel with
  | [] => call (displayWarning "Nothing selected.")
  | _ =>
      if (1 <? length sel)%nat then
        call (displayWarning "Only works on one node at a time.")
      else
        sel0 <- item0 sel ;;
        isHandle <- call (attributeQuery_exists "ml_pivot_handle" sel0) ;;
        if isHandle : bool then Ret tt
        else
          assign_node (Some sel0) ;;
          connected <- is_pivot_connected sel0 ;;
          if connected : bool then
            driverAttr <- pivot_driver_attr sel0 ;;
            match driverAttr with
            | Some d =>
                if truthy driverAttr then editPivotDriver d
                else call (displayWarning "Pivot attribute is connected, unable to edit.")
            | None => call (displayWarning "Pivot attribute is connected, unable to edit.")
            end
          else editPivotHandle
  end.

(** [edit_pivot], which accepts and ignores any positional arguments: a new
    context, then [editPivot]. *)
Definition edit_pivot (args : list Arg) : Prog unit :=
  set_self EditPivotContext ;;
  editPivot.

(** The tail of [reset_pivot], from the creation of the temporary nodes on. *)
Definition reset_pivot_bake (node_ : string) (driver : option (string * Num * Num)) : Prog unit :=
  tempPosition <- call (group_em None) ;;
  tempPivot <- call (group_em None) ;;
  tempPivot <- (l <- call (parent tempPivot (Some node_)) ;; item0 l) ;;
  match driver with
  | Some (d, driver_value, driver_default) =>
      call (setAttr d [ANum driver_default] None None) ;;
      newRP <- (l <- call (getAttr3 (node_ ++ ".rotatePivot")) ;; item0 l) ;;
      call (setAttr d [ANum driver_value] None None) ;;
      call (setAttr (tempPivot ++ ".translate") (vec_args newRP) None None)
  | None =>
      call (setAttr (tempPivot ++ ".translate") [ANum zero; ANum zero; ANum zero] None None)
  end ;;
  call (setAttr (tempPivot ++ ".rotate") [ANum zero; ANum zero; ANum zero] None None) ;;
  call (matchBake [tempPivot] [tempPosition] true false false (Some false)) ;;
  match driver with
  | Some (d, _, driver_default) => call (setAttr d [ANum driver_default] None None)
  | None => call (setAttr (node_ ++ ".rotatePivot") [ANum zero; ANum zero; ANum zero] None None)
  end ;;
  call refresh ;;
  call (matchBake [tempPosition] [node_] true false false (Some false)) ;;
  call (delete [Some tempPosition; Some tempPivot]) ;;
  call (select node_).

(** [reset_pivot], which accepts and ignores any positional arguments. *)
Definition reset_pivot (args : list Arg) : Prog unit :=
  sel <- call ls_sl ;;
  match sel with
  | [] => call (displayWarning "Nothing selected.")
  | _ =>
      if (1 <? length sel)%nat then
        call (displayWarning "Only works on one node at a time.")
      else
        node_ <- item0 sel ;;
        connected <- is_pivot_connected node_ ;;
        if connected : bool then
          driver <- pivot_driver_attr node_ ;;
          match driver with
          | Some d =>
              if truthy driver then
                na <- split2 d ;;
                let '(dNode, dAttr) := na in
                driver_value <- call (getAttr d) ;;
                driver_default <- (l <- call (attributeQuery_listDefault dAttr dNode) ;; item0 l) ;;
                if num_eqb driver_default driver_value then Ret tt
                else reset_pivot_bake node_ (Some (d, driver_value, driver_default))
              else call (displayWarning "Pivot attribute is connected, unable to edit.")
          | None => call (displayWarning "Pivot attribute is connected, unable to edit.")
          end
        else
          pivotPosition <- (l <- call (getAttr3 (node_ ++ ".rotatePivot")) ;; item0 l) ;;
          if vec_eqb pivotPosition (zero, zero, zero) then Ret tt
          else reset_pivot_bake node_ None
  end.

(** The callable behind each callback the script registers. *)
Definition callback (cb : Callback) : Prog unit :=
  match cb with
  | cb_edit_pivot => edit_pivot []
  | cb_reset_pivot => reset_pivot []
  | cb_bakePivot => bakePivot
  | cb_cleanup => cleanup
  | cb_doEditPivotDriver => doEditPivotDriver
  end.

End MlPivot.

(** ** Hosts and executions *)

Section Semantics.

Context {N : Number}.

(** A host answers each call, with a value or an exception, and moves to
    its next state. *)
Record Host : Type := mkHost {
  World : Type;
  exec : forall T : Type, mc T -> World -> Result T * World
}.

(** The query forms leave the host state as it is. *)
Definition queries_pure (H : Host) : Prop :=
  forall (T : Type) (c : mc T) (w : World H),
    is_query c = true -> snd (exec H T c w) = w.

(** The answer of the host to a call in a given state. *)
Definition ask (H : Host) {T : Type} (c : mc T) (w : World H) : Result T :=
  fst (exec H T c w).

(** The state of the host after a call. *)
Definition after (H : Host) {T : Type} (c : mc T) (w : World H) : World H :=
  snd (exec H T c w).

Record Outcome (W A : Type) : Type := mkOutcome {
  result : Result A;
  self_after : Ctx;
  world_after : W;
  calls : list Event
}.
Arguments mkOutcome {W A} _ _ _ _.
Arguments result {W A} _.
Arguments self_after {W A} _.
Arguments world_after {W A} _.
Arguments calls {W A} _.

Definition logged {W A : Type} (e : Event) (o : Outcome W A) : Outcome W A :=
  mkOutcome (result o) (self_after o) (world_after o) (e :: calls o).

(** Running a program: [s] holds the attributes of [self], [w] is the
    state of the host. *)
Fixpoint run (H : Host) {A : Type} (p : Prog A) (s : Ctx) (w : World H)
  : Outcome (World H) A :=
  match p with
  | Ret a => mkOutcome (Returned a) s w []
  | Raise e => mkOutcome (Raised e) s w []
  | Call c k => logged (Ev c) (run H (k (ask H c w)) s (after H c w))
  | GetSelf k => run H (k s) s w
  | SetSelf s' k => run H k s' w
  end.

(** The calls of an execution with the answers of the host, in order. *)
Fixpoint replies (H : Host) {A : Type} (p : Prog A) (s : Ctx) (w : World H) : list Reply :=
  match p with
  | Ret _ => []
  | Raise _ => []
  | Call c k => Re c (ask H c w) :: replies H (k (ask H c w)) s (after H c w)
  | GetSelf k => replies H (k s) s w
  | SetSelf s' k => replies H k s' w
  end.

(** A property of every call a program can make, whatever the host
    answers. *)
Fixpoint Always (P : Event -> Prop) {A : Type} (p : Prog A) : Prop :=
  match p with
  | Ret _ => True
  | Raise _ => True
  | Call c k => P (Ev c) /\ forall r, Always P (k r)
  | GetSelf k => forall s, Always P (k s)
  | SetSelf _ k => Always P k
  end.

(** Classes of events. *)
Definition query_event (e : Event) : bool :=
  match e with Ev c => is_query c end.

Definition is_warning (e : Event) : bool :=
  match e with
  | Ev (displayWarning _) => true
  | _ => false
  end.

(** A [matchBake] call that does not bake on every frame. *)
Definition bake_not_on_ones (e : Event) : bool :=
  match e with
  | Ev (matchBake _ _ bakeOnOnes _ _ _) => negb bakeOnOnes
  | _ => false
  end.

Definition is_matchBake (e : Event) : bool :=
  match e with
  | Ev (matchBake _ _ _ _ _ _) => true
  | _ => false
  end.

(** Calls that create the temporary nodes of a bake or write animation
    keys. *)
Definition creates_or_bakes (e : Event) : bool :=
  match e with
  | Ev (group_em _) | Ev (parentConstraint _ _) | Ev (matchBake _ _ _ _ _ _) => true
  | _ => false
  end.

(** Calls that bake or that set an attribute. *)
Definition bakes_or_sets (e : Event) : bool :=
  match e with
  | Ev (matchBake _ _ _ _ _ _) | Ev (setAttr _ _ _ _) => true
  | _ => false
  end.

Definition is_undo_enter (e : Event) : bool :=
  match e with
  | Ev (UndoChunk_enter _) => true
  | _ => false
  end.

Definition is_undo_exit (e : Event) : bool :=
  match e with
  | Ev UndoChunk_exit => true
  | _ => false
  end.

(** The four calls of [ui]. *)
Definition mem_ui_call (e : Event) : bool :=
  match e with
  | Ev (MlUi_enter name title width height info) =>
      (name =? "ml_pivot") && (title =? "Change Pivot")
      && (width =? 400)%Z && (height =? 150)%Z && (info =? ui_info)
  | Ev (buttonWithPopup label command annotation shelfLabel shelfIcon) =>
      (shelfIcon =? "defaultTwoStackedLayout")
      && (((label =? "Edit Pivot")
           && match command with cb_edit_pivot => true | _ => false end
           && (annotation =? "Creates a temporary node to positon for the new pivot.")
           && (shelfLabel =? "pivot"))
          || ((label =? "Reset Pivot")
              && match command with cb_reset_pivot => true | _ => false end
              && (annotation =? "Rest the rotation pivot to zero.")
              && (shelfLabel =? "reset")))
  | Ev MlUi_exit => true
  | _ => false
  end.

(** The buttons a run has added to the window, with their commands. *)
Fixpoint buttons (tr : list Event) : list (string * Callback) :=
  match tr with
  | [] => []
  | Ev (buttonWithPopup label command _ _ _) :: rest => (label, command) :: buttons rest
  | _ :: rest => buttons rest
  end.

(** The script jobs a run has created: event name, callback, runOnce. *)
Fixpoint script_jobs (tr : list Event) : list (string * Callback * bool) :=
  match tr with
  | [] => []
  | Ev (scriptJob_event event cb once) :: rest => (event, cb, once) :: script_jobs rest
  | _ :: rest => script_jobs rest
  end.

(** Whether a run has left the keypress filter installed. *)
Fixpoint filter_installed_by (tr : list Event) (installed : bool) : bool :=
  match tr with
  | [] => installed
  | Ev installEventFilter :: rest => filter_installed_by rest true
  | Ev removeEventFilter :: rest => filter_installed_by rest false
  | _ :: rest => filter_installed_by rest installed
  end.

(** The buttons the script gives a command to: the two buttons that [ui]
    adds to the window of the tool, and the Bake button of the slider that
    [editPivotDriver] creates. *)
Inductive Button : Type :=
| EditPivotButton
| ResetPivotButton
| BakeButton.

Definition button_command (b : Button) : Callback :=
  match b with
  | EditPivotButton => cb_edit_pivot
  | ResetPivotButton => cb_reset_pivot
  | BakeButton => cb_doEditPivotDriver
  end.

(** What reaches the script while a session is active: a Qt event seen by
    the installed filter, a named host event that script jobs listen to, or
    a click on one of the buttons of the tool. *)
Inductive Input : Type :=
| QtInput (e : QEvent)
| HostEvent (name : string)
| Click (b : Button).

(** The reaction of the script to an input, given the calls by which the
    session registered itself ([tr]): Qt passes every event to an installed
    filter, the host runs the callback of each job listening to the event,
    and a button runs its command. *)
Definition reaction (tr : list Event) (i : Input) : Prog unit :=
  match i with
  | QtInput e =>
      if filter_installed_by tr false then keypressFilter e ;; Ret tt else Ret tt
  | HostEvent name =>
      for_each (filter (fun j => fst (fst j) =? name) (script_jobs tr))
               (fun j => callback (snd (fst j)))
  | Click b => callback (button_command b)
  end.

Definition is_key (k : Z) (e : QEvent) : bool :=
  ((ev_type e =? QEvent_KeyPress) && (ev_key e =? k))%Z.

Definition return_or_escape (i : Input) : bool :=
  match i with
  | QtInput e => is_key Key_Return e || is_key Key_Escape e
  | HostEvent _ => false
  | Click _ => false
  end.

(** Calls that take away what [editPivotHandle] has put in place for a
    session: the lock on the handle (the host deletes no locked node, so
    that the handle goes only after it is unlocked), the script job, and the
    keypress filter. *)
Definition ends_session (e : Event) : bool :=
  match e with
  | Ev (lockNode _ l) => negb l
  | Ev (scriptJob_kill _ _) => true
  | Ev removeEventFilter => true
  | _ => false
  end.

(** The two commands of the window. *)
Inductive Command : Type :=
| EditPivot
| ResetPivot.

Definition command (c : Command) : Prog unit :=
  match c with
  | EditPivot => edit_pivot []
  | ResetPivot => reset_pivot []
  end.

End Semantics.

Arguments mkOutcome {N W A} _ _ _ _.
Arguments result {N W A} _.
Arguments self_after {N W A} _.
Arguments world_after {N W A} _.
Arguments calls {N W A} _.

(** ** A host: scenes of animated transforms

    Modelled from the spec: the host scene and the baking routine
    [matchBake] of ml_utilities, which the script calls and does not define.
    The spec describes a pivot as "the point about which a transform
    rotates" and baking as "sampling and writing animation keys on every
    frame to preserve resulting motion after a pivot/parent change".  The
    scene below gives these words a meaning: a transform maps a local point
    [p] to [M (p - pivot) + pivot + t] in the space of its parent, where [M]
    is the matrix of the transform about its pivot (a rotation, or any
    other matrix), channels are functions of the frame, and a bake rewrites
    the destination's channels on every frame so that it follows the
    source.

    Values are taken in a commutative ring, any one: the rationals in the
    rig below, the integers in the other examples.  The host inverts a
    matrix through its determinant, so that the matrices it can invert are
    those whose determinant has an inverse in the ring.

    Two things of the host application are left out.  Arithmetic is exact:
    the rounding of floating point numbers is not part of this host.  And a
    transform has the one matrix [M], about its rotate pivot: the scale that
    the application applies about a scale pivot of its own is not part of
    it.  What is proved of motion below is proved of this host. *)

(** The values of a host: a commutative ring with a test for equality and
    with the inverse of each of its units. *)
Class Scalars : Type := mkScalars {
  K : Type;
  k0 : K;
  k1 : K;
  kadd : K -> K -> K;
  kmul : K -> K -> K;
  ksub : K -> K -> K;
  kopp : K -> K;
  keqb : K -> K -> bool;
  kinv : K -> K;
  K_ring : ring_theory k0 k1 kadd kmul ksub kopp (@eq K);
  keqb_eq : forall a b, keqb a b = true <-> a = b;
  kinv_unit : forall a b, kmul b a = k1 -> kmul (kinv a) a = k1
}.

(** The integers: their units are 1 and -1, each its own inverse. *)
#[export] Instance ZScalars : Scalars :=
  {| K := Z; k0 := 0%Z; k1 := 1%Z;
     kadd := Z.add; kmul := Z.mul; ksub := Z.sub; kopp := Z.opp;
     keqb := Z.eqb; kinv := fun a => a;
     K_ring := InitialRing.Zth;
     keqb_eq := Z.eqb_eq;
     kinv_unit := fun a b H =>
       ltac:(destruct (Z.eq_mul_1 b a H) as [E | E];
             [ rewrite E in H; rewrite Z.mul_1_l in H; rewrite H; reflexivity
             | rewrite E in H; assert (a = (-1)%Z) by lia; subst a; reflexivity ]) |}.

(** The rationals: every value but 0 has an inverse, so that the host
    inverts every matrix whose determinant is not 0. *)
Definition Qc_eq_bool_iff (a b : Qcanon.Qc) : Qcanon.Qc_eq_bool a b = true <-> a = b.
Proof.
  split; [apply Qcanon.Qc_eq_bool_correct |].
  intros ->. unfold Qcanon.Qc_eq_bool. destruct (Qcanon.Qc_eq_dec b b); congruence.
Qed.

Definition Qcinv_unit (a b : Qcanon.Qc) :
  Qcanon.Qcmult b a = Qcanon.Q2Qc (QArith_base.Qmake 1 1) ->
  Qcanon.Qcmult (Qcanon.Qcinv a) a = Qcanon.Q2Qc (QArith_base.Qmake 1 1).
Proof.
  intro E. apply Qcanon.Qcmult_inv_l. intro Ha.
  rewrite Ha in E. rewrite Qcanon.Qcmult_0_r in E. discriminate.
Qed.

Definition QcScalars : Scalars :=
  {| K := Qcanon.Qc;
     k0 := Qcanon.Q2Qc (QArith_base.Qmake 0 1); k1 := Qcanon.Q2Qc (QArith_base.Qmake 1 1);
     kadd := Qcanon.Qcplus; kmul := Qcanon.Qcmult;
     ksub := Qcanon.Qcminus; kopp := Qcanon.Qcopp;
     keqb := Qcanon.Qc_eq_bool; kinv := Qcanon.Qcinv;
     K_ring := Qcanon.Qcrt;
     keqb_eq := Qc_eq_bool_iff;
     kinv_unit := Qcinv_unit |}.

(** The numbers of the script are the values of the host. *)
#[export] Instance ScalarNumber {Vals : Scalars} : Number :=
  {| Num := K; zero := k0; num_eqb := keqb; num_sub := ksub |}.

Section SceneHost.

Context {Vals : Scalars}.

Definition V3 : Type := (K * K * K)%type.
Definition M33 : Type := (V3 * V3 * V3)%type.
Definition Affine : Type := (M33 * V3)%type.

Definition vadd (a b : V3) : V3 :=
  let '(a1, a2, a3) := a in let '(b1, b2, b3) := b in
  (kadd a1 b1, kadd a2 b2, kadd a3 b3).

Definition vsub (a b : V3) : V3 :=
  let '(a1, a2, a3) := a in let '(b1, b2, b3) := b in
  (ksub a1 b1, ksub a2 b2, ksub a3 b3).

Definition vzero : V3 := (k0, k0, k0).

Definition dot (a b : V3) : K :=
  let '(a1, a2, a3) := a in let '(b1, b2, b3) := b in
  kadd (kadd (kmul a1 b1) (kmul a2 b2)) (kmul a3 b3).

(** [m v], with [m] given by its rows. *)
Definition mapply (m : M33) (v : V3) : V3 :=
  let '(r1, r2, r3) := m in (dot r1 v, dot r2 v, dot r3 v).

Definition mtrans (m : M33) : M33 :=
  let '((a11, a12, a13), (a21, a22, a23), (a31, a32, a33)) := m in
  ((a11, a21, a31), (a12, a22, a32), (a13, a23, a33)).

Definition mmul (a b : M33) : M33 :=
  let bt := mtrans b in
  let '(r1, r2, r3) := a in (mapply bt r1, mapply bt r2, mapply bt r3).

Definition mid : M33 := ((k1, k0, k0), (k0, k1, k0), (k0, k0, k1)).

(** [c m]. *)
Definition mscale (c : K) (m : M33) : M33 :=
  let '((a11, a12, a13), (a21, a22, a23), (a31, a32, a33)) := m in
  ((kmul c a11, kmul c a12, kmul c a13),
   (kmul c a21, kmul c a22, kmul c a23),
   (kmul c a31, kmul c a32, kmul c a33)).

Definition det (m : M33) : K :=
  let '((a11, a12, a13), (a21, a22, a23), (a31, a32, a33)) := m in
  kadd (ksub (kmul a11 (ksub (kmul a22 a33) (kmul a23 a32)))
             (kmul a12 (ksub (kmul a21 a33) (kmul a23 a31))))
       (kmul a13 (ksub (kmul a21 a32) (kmul a22 a31))).

(** The adjugate of a matrix: [adj m * m = det m * 1]. *)
Definition adj (m : M33) : M33 :=
  let '((a11, a12, a13), (a21, a22, a23), (a31, a32, a33)) := m in
  ((ksub (kmul a22 a33) (kmul a23 a32),
    ksub (kmul a13 a32) (kmul a12 a33),
    ksub (kmul a12 a23) (kmul a13 a22)),
   (ksub (kmul a23 a31) (kmul a21 a33),
    ksub (kmul a11 a33) (kmul a13 a31),
    ksub (kmul a13 a21) (kmul a11 a23)),
   (ksub (kmul a21 a32) (kmul a22 a31),
    ksub (kmul a12 a31) (kmul a11 a32),
    ksub (kmul a11 a22) (kmul a12 a21))).

(** The inverse of a matrix, as the host computes it. *)
Definition minv (m : M33) : M33 :=
  mscale (kinv (det m)) (adj m).

(** A value the host can invert, and a matrix it can invert. *)
Definition unit_ (a : K) : Prop :=
  kmul (kinv a) a = k1.

Definition regular (m : M33) : Prop :=
  unit_ (det m).

(** The affine map [p |-> m p + v]. *)
Definition aapply (a : Affine) (p : V3) : V3 :=
  vadd (mapply (fst a) p) (snd a).

Definition aid : Affine := (mid, vzero).

(** [acomp a b] is [a] after [b]. *)
Definition acomp (a b : Affine) : Affine :=
  (mmul (fst a) (fst b), vadd (mapply (fst a) (snd b)) (snd a)).

Definition ainv (a : Affine) : Affine :=
  (minv (fst a), vsub vzero (mapply (minv (fst a)) (snd a))).

Record Xform : Type := mkXform {
  x_type : string;
  x_path : list string;               (* ancestors, nearest first *)
  x_locked : bool;
  x_attrs : list string;              (* attributes added with addAttr *)
  x_rotatePivot : V3;
  x_translate : Z -> V3;              (* translate at each frame *)
  x_rotate : Z -> M33;                (* matrix about the pivot at each frame *)
  x_curves : list (string * string)   (* keyed channel, animation curve *)
}.

Record Scalar : Type := mkScalar {
  p_value : K;
  p_default : K;
  p_min : K;
  p_max : K;
  p_keyable : bool;
  p_lock : bool
}.

Record Ui : Type := mkUi {
  filter_installed : bool;
  warnings : list string;
  windows : list string;
  sliders : list (string * K);
  window_buttons : list (string * Callback);
  undo_depth : nat
}.

Record Scene : Type := mkScene {
  nodes : list (string * Xform);
  scalars : list (string * Scalar);        (* scalar plugs, by plug name *)
  connections : list (string * string);    (* source plug, destination plug *)
  selection : list string;
  now : Z;                                 (* current frame *)
  jobs : list (Z * (string * Callback * bool));
  next_job : Z;
  gui : Ui
}.

Definition with_nodes (sc : Scene) (ns : list (string * Xform)) : Scene :=
  mkScene ns (scalars sc) (connections sc) (selection sc) (now sc) (jobs sc) (next_job sc) (gui sc).

Definition with_scalars (sc : Scene) (ps : list (string * Scalar)) : Scene :=
  mkScene (nodes sc) ps (connections sc) (selection sc) (now sc) (jobs sc) (next_job sc) (gui sc).

Definition with_selection (sc : Scene) (sel : list string) : Scene :=
  mkScene (nodes sc) (scalars sc) (connections sc) sel (now sc) (jobs sc) (next_job sc) (gui sc).

Definition with_jobs (sc : Scene) (js : list (Z * (string * Callback * bool))) (next : Z) : Scene :=
  mkScene (nodes sc) (scalars sc) (connections sc) (selection sc) (now sc) js next (gui sc).

Definition with_gui (sc : Scene) (u : Ui) : Scene :=
  mkScene (nodes sc) (scalars sc) (connections sc) (selection sc) (now sc) (jobs sc) (next_job sc) u.

(** Association lists keyed by names. *)
Fixpoint lookup {A : Type} (k : string) (l : list (string * A)) : option A :=
  match l with
  | [] => None
  | (k', v) :: rest => if k' =? k then Some v else lookup k rest
  end.

Fixpoint update {A : Type} (k : string) (v : A) (l : list (string * A)) : list (string * A) :=
  match l with
  | [] => []
  | (k', v') :: rest =>
      if k' =? k then (k', v) :: rest else (k', v') :: update k v rest
  end.

Definition mem (k : string) (l : list string) : bool :=
  existsb (String.eqb k) l.

(** [s.rsplit('.', 1)]: a plug name [node.attr] is cut at its last dot. *)
Fixpoint rsplit_dot (s : string) : option (string * string) :=
  match s with
  | EmptyString => None
  | String c rest =>
      match rsplit_dot rest with
      | Some (a, b) => Some (String c a, b)
      | None => if Ascii.eqb c "."%char then Some (EmptyString, rest) else None
      end
  end.

(** Names for new nodes: the base name, followed by as many [1] as it
    takes to be new. *)
Fixpoint ones (k : nat) : string :=
  match k with
  | O => EmptyString
  | S k' => String "1"%char (ones k')
  end.

Definition candidates (base : string) (names : list string) : list string :=
  map (fun k => (base ++ ones k)%string) (seq 0 (S (length names))).

Definition fresh_name (base : string) (names : list string) : string :=
  match find (fun c => negb (mem c names)) (candidates base names) with
  | Some c => c
  | None => base
  end.

(** *** Transforms in space *)

(** The map of a transform from its own space to the space of its parent. *)
Definition local (x : Xform) (f : Z) : Affine :=
  let r := x_rotate x f in
  (r, vsub (vadd (x_rotatePivot x) (x_translate x f)) (mapply r (x_rotatePivot x))).

Definition local_of (ns : list (string * Xform)) (name : string) (f : Z) : Affine :=
  match lookup name ns with
  | Some x => local x f
  | None => aid
  end.

(** The map from the space of the first node of a path to the world. *)
Fixpoint chain_world (ns : list (string * Xform)) (path : list string) (f : Z) : Affine :=
  match path with
  | [] => aid
  | p :: rest => acomp (chain_world ns rest f) (local_of ns p f)
  end.

(** The map of a transform from its own space to the world. *)
Definition world (ns : list (string * Xform)) (x : Xform) (f : Z) : Affine :=
  acomp (chain_world ns (x_path x) f) (local x f).

(** Where the pivot of a transform is in the world. *)
Definition pivot_world (ns : list (string * Xform)) (x : Xform) (f : Z) : V3 :=
  aapply (chain_world ns (x_path x) f) (vadd (x_rotatePivot x) (x_translate x f)).

(** The world position, at frame [f], of the point [p] of the node [name]. *)
Definition world_position (sc : Scene) (name : string) (f : Z) (p : V3) : option V3 :=
  match lookup name (nodes sc) with
  | Some x => Some (aapply (world (nodes sc) x f) p)
  | None => None
  end.

(** *** The calls on a scene *)

Definition ok {T : Type} (v : T) (sc : Scene) : Result T * Scene := (Returned v, sc).
Definition fails {T : Type} (e : Exn) (sc : Scene) : Result T * Scene := (Raised e, sc).

(** Every name a scene uses: those of its nodes and those on their paths. *)
Definition all_names (ns : list (string * Xform)) : list string :=
  flat_map (fun nx => fst nx :: x_path (snd nx)) ns.

Definition new_transform : Xform :=
  mkXform "transform" [] false [] vzero (fun _ => vzero) (fun _ => mid) [].

Definition set_translate (x : Xform) (t : Z -> V3) : Xform :=
  mkXform (x_type x) (x_path x) (x_locked x) (x_attrs x) (x_rotatePivot x) t (x_rotate x) (x_curves x).

Definition set_rotate (x : Xform) (r : Z -> M33) : Xform :=
  mkXform (x_type x) (x_path x) (x_locked x) (x_attrs x) (x_rotatePivot x) (x_translate x) r (x_curves x).

Definition set_rotatePivot (x : Xform) (rp : V3) : Xform :=
  mkXform (x_type x) (x_path x) (x_locked x) (x_attrs x) rp (x_translate x) (x_rotate x) (x_curves x).

Definition set_locked (x : Xform) (l : bool) : Xform :=
  mkXform (x_type x) (x_path x) l (x_attrs x) (x_rotatePivot x) (x_translate x) (x_rotate x) (x_curves x).

Definition set_path (x : Xform) (p : list string) : Xform :=
  mkXform (x_type x) p (x_locked x) (x_attrs x) (x_rotatePivot x) (x_translate x) (x_rotate x) (x_curves x).

Definition set_attrs (x : Xform) (a : list string) : Xform :=
  mkXform (x_type x) (x_path x) (x_locked x) a (x_rotatePivot x) (x_translate x) (x_rotate x) (x_curves x).

Definition set_curves (x : Xform) (c : list (string * string)) : Xform :=
  mkXform (x_type x) (x_path x) (x_locked x) (x_attrs x) (x_rotatePivot x) (x_translate x) (x_rotate x) c.

Definition set_value (p : Scalar) (v : K) : Scalar :=
  mkScalar v (p_default p) (p_min p) (p_max p) (p_keyable p) (p_lock p).

(** [ls('*.attr', o=True)]: the nodes that carry the attribute. *)
Definition do_ls_o (pattern : string) (sc : Scene) : list string :=
  match rsplit_dot pattern with
  | Some (pat, attr) =>
      if pat =? "*" then
        map fst (filter (fun nx => mem attr (x_attrs (snd nx))) (nodes sc))
      else []
  | None => []
  end.

Definition do_getAttr3 (plug : string) (sc : Scene) : Result (list V3) :=
  match rsplit_dot plug with
  | Some (n, a) =>
      match lookup n (nodes sc) with
      | Some x =>
          if a =? "translate" then Returned [x_translate x (now sc)]
          else if a =? "rotatePivot" then Returned [x_rotatePivot x]
          else Raised RuntimeError
      | None => Raised RuntimeError
      end
  | None => Raised RuntimeError
  end.

Definition node_of_plug (plug : string) : string :=
  match rsplit_dot plug with
  | Some (n, _) => n
  | None => plug
  end.

Definition do_listConnections (plug : string) (plugs : bool) (sc : Scene) : list string :=
  let sources := map fst (filter (fun c => snd c =? plug) (connections sc)) in
  if plugs then sources else map node_of_plug sources.

Definition do_keyframe (n : string) (attrs : list string) (sc : Scene) : Result (list string) :=
  match lookup n (nodes sc) with
  | Some x => Returned (map snd (filter (fun c => mem (fst c) attrs) (x_curves x)))
  | None => Raised RuntimeError
  end.

Definition do_setAttr (plug : string) (values : list Arg) (sc : Scene) : Result unit * Scene :=
  match lookup plug (scalars sc), values with
  | Some p, [ANum v] => ok tt (with_scalars sc (update plug (set_value p v) (scalars sc)))
  | _, _ =>
      match rsplit_dot plug with
      | Some (n, a) =>
          match lookup n (nodes sc) with
          | Some x =>
              match values with
              | [] => ok tt sc
              | [ABool _] => ok tt sc
              | [ANum v1; ANum v2; ANum v3] =>
                  if a =? "translate" then
                    ok tt (with_nodes sc (update n (set_translate x (fun _ => (v1, v2, v3))) (nodes sc)))
                  else if a =? "rotatePivot" then
                    ok tt (with_nodes sc (update n (set_rotatePivot x (v1, v2, v3)) (nodes sc)))
                  else if (a =? "rotate") && keqb v1 k0 && keqb v2 k0 && keqb v3 k0 then
                    ok tt (with_nodes sc (update n (set_rotate x (fun _ => mid)) (nodes sc)))
                  else fails RuntimeError sc
              | _ => fails RuntimeError sc
              end
          | None => fails RuntimeError sc
          end
      | None => fails RuntimeError sc
      end
  end.

Definition do_group (name : option string) (sc : Scene) : Result string * Scene :=
  let base := match name with Some b => b | None => "null1" end in
  let n := fresh_name base (all_names (nodes sc)) in
  ok n (with_selection (with_nodes sc ((n, new_transform) :: nodes sc)) [n]).

Definition do_parent (child : string) (parent_ : option string) (sc : Scene)
  : Result (list string) * Scene :=
  match parent_ with
  | None => fails TypeError sc
  | Some p =>
      match lookup child (nodes sc), lookup p (nodes sc) with
      | Some c, Some px =>
          if x_locked c then fails RuntimeError sc
          else ok [child] (with_nodes sc (update child (set_path c (p :: x_path px)) (nodes sc)))
      | _, _ => fails RuntimeError sc
      end
  end.

(** [parentConstraint(target, object)]: the object is brought onto the
    pivot of the target, with its orientation, and a constraint node is
    created under it. *)
Definition do_parentConstraint (target object : string) (sc : Scene)
  : Result (list string) * Scene :=
  match lookup target (nodes sc), lookup object (nodes sc) with
  | Some tx, Some ox =>
      let ns := nodes sc in
      let inv := ainv (chain_world ns (x_path ox) (now sc)) in
      let t := vsub (aapply inv (pivot_world ns tx (now sc))) (x_rotatePivot ox) in
      let r := mmul (fst inv) (fst (world ns tx (now sc))) in
      let ox' := set_rotate (set_translate ox (fun _ => t)) (fun _ => r) in
      let c := fresh_name (object ++ "_parentConstraint1") (all_names ns) in
      let cx := set_path (mkXform "parentConstraint" [] false [] vzero
                            (fun _ => vzero) (fun _ => mid) []) (object :: x_path ox) in
      ok [c] (with_nodes sc ((c, cx) :: update object ox' ns))
  | _, _ => fails RuntimeError sc
  end.

(** Deleting a node deletes what is below it; a locked node cannot be
    deleted. *)
Definition without (n : string) (ns : list (string * Xform)) : list (string * Xform) :=
  filter (fun nx => negb (fst nx =? n) && negb (mem n (x_path (snd nx)))) ns.

Fixpoint do_delete (objs : list (option string)) (sc : Scene) : Result unit * Scene :=
  match objs with
  | [] => ok tt sc
  | None :: _ => fails TypeError sc
  | Some n :: rest =>
      match lookup n (nodes sc) with
      | Some x =>
          if x_locked x then fails RuntimeError sc
          else do_delete rest
                 (with_selection (with_nodes sc (without n (nodes sc)))
                    (filter (fun s => negb (s =? n)) (selection sc)))
      | None => fails RuntimeError sc
      end
  end.

Definition do_lockNode (obj : option string) (l : bool) (sc : Scene) : Result unit * Scene :=
  match obj with
  | None => fails TypeError sc
  | Some n =>
      match lookup n (nodes sc) with
      | Some x => ok tt (with_nodes sc (update n (set_locked x l) (nodes sc)))
      | None => fails RuntimeError sc
      end
  end.

(** The channels a bake keys on the destination. *)
Definition baked_curves (d : string) (rot : bool) : list (string * string) :=
  [("tx", (d ++ "_translateX")%string); ("ty", (d ++ "_translateY")%string);
   ("tz", (d ++ "_translateZ")%string)]
  ++ (if rot then [("rx", (d ++ "_rotateX")%string); ("ry", (d ++ "_rotateY")%string);
                   ("rz", (d ++ "_rotateZ")%string)]
      else []).

(** Modelled from the spec: [matchBake] of ml_utilities, which the script
    calls and which is not part of its source ("sampling and writing
    animation keys on every frame to preserve resulting motion").  For one
    source and destination: on every frame the pivot of the destination is
    put where the source is (with [maintainOffset], where the point of the
    source that it occupies now is), and its orientation follows unless
    [rotate=False]. *)
Definition bake_pair (ns : list (string * Xform)) (t0 : Z) (maintainOffset rot : bool)
    (d : string) (sx dx : Xform) : Xform :=
  let inv_parent := fun f => ainv (chain_world ns (x_path dx) f) in
  let offset := aapply (ainv (world ns sx t0)) (pivot_world ns dx t0) in
  let target := fun f =>
    if maintainOffset then aapply (world ns sx f) offset else pivot_world ns sx f in
  let t' := fun f => vsub (aapply (inv_parent f) (target f)) (x_rotatePivot dx) in
  let offset_r := mmul (minv (fst (world ns sx t0))) (fst (world ns dx t0)) in
  let r' := fun f =>
    let r := mmul (fst (inv_parent f)) (fst (world ns sx f)) in
    if maintainOffset then mmul r offset_r else r in
  let dx1 := set_translate dx t' in
  let dx2 := if rot then set_rotate dx1 r' else dx1 in
  set_curves dx2 (baked_curves d rot ++ x_curves dx).

Fixpoint do_matchBake (source destination : list string) (maintainOffset rot : bool)
    (sc : Scene) : Result unit * Scene :=
  match source, destination with
  | s :: source', d :: destination' =>
      match lookup s (nodes sc), lookup d (nodes sc) with
      | Some sx, Some dx =>
          do_matchBake source' destination' maintainOffset rot
            (with_nodes sc
               (update d (bake_pair (nodes sc) (now sc) maintainOffset rot d sx dx) (nodes sc)))
      | _, _ => fails RuntimeError sc
      end
  | _, _ => ok tt sc
  end.

Definition set_filter (u : Ui) (b : bool) : Ui :=
  mkUi b (warnings u) (windows u) (sliders u) (window_buttons u) (undo_depth u).

Definition add_warning (u : Ui) (msg : string) : Ui :=
  mkUi (filter_installed u) (warnings u ++ [msg]) (windows u) (sliders u)
       (window_buttons u) (undo_depth u).

Definition set_windows (u : Ui) (ws : list string) : Ui :=
  mkUi (filter_installed u) (warnings u) ws (sliders u) (window_buttons u) (undo_depth u).

Definition add_slider (u : Ui) (name : string) (v : K) : Ui :=
  mkUi (filter_installed u) (warnings u) (windows u) ((name, v) :: sliders u)
       (window_buttons u) (undo_depth u).

Definition add_button (u : Ui) (label : string) (cb : Callback) : Ui :=
  mkUi (filter_installed u) (warnings u) (windows u) (sliders u)
       (window_buttons u ++ [(label, cb)]) (undo_depth u).

Definition set_undo (u : Ui) (d : nat) : Ui :=
  mkUi (filter_installed u) (warnings u) (windows u) (sliders u) (window_buttons u) d.

Definition scalar_query {T : Type} (plug : string) (f : Scalar -> T) (sc : Scene) : Result T :=
  match lookup plug (scalars sc) with
  | Some p => Returned (f p)
  | None => Raised RuntimeError
  end.

Definition scene_exec (T : Type) (c : mc T) (sc : Scene) : Result T * Scene :=
  match c in mc T return Result T * Scene with
  | ls_sl => ok (selection sc) sc
  | ls_o pattern => ok (do_ls_o pattern sc) sc
  | attributeQuery_exists attr n =>
      match lookup n (nodes sc) with
      | Some x => ok (mem attr (x_attrs x)) sc
      | None => fails RuntimeError sc
      end
  | attributeQuery_minimum attr n =>
      (scalar_query (n ++ "." ++ attr) (fun p => [p_min p]) sc, sc)
  | attributeQuery_maximum attr n =>
      (scalar_query (n ++ "." ++ attr) (fun p => [p_max p]) sc, sc)
  | attributeQuery_listDefault attr n =>
      (scalar_query (n ++ "." ++ attr) (fun p => [p_default p]) sc, sc)
  | getAttr plug => (scalar_query plug p_value sc, sc)
  | getAttr3 plug => (do_getAttr3 plug sc, sc)
  | getAttr_keyable plug => (scalar_query plug p_keyable sc, sc)
  | getAttr_lock plug => (scalar_query plug p_lock sc, sc)
  | listConnections plug plugs => ok (do_listConnections plug plugs sc) sc
  | nodeType n =>
      match lookup n (nodes sc) with
      | Some x => ok (x_type x) sc
      | None => fails RuntimeError sc
      end
  | objExists obj =>
      match obj with
      | Some n => ok (match lookup n (nodes sc) with Some _ => true | None => false end) sc
      | None => fails TypeError sc
      end
  | keyframe_query_name n attrs => (do_keyframe n attrs sc, sc)
  | scriptJob_exists job =>
      match job with
      | Some j => ok (existsb (fun e => (fst e =? j)%Z) (jobs sc)) sc
      | None => fails TypeError sc
      end
  | window_exists name => ok (mem name (windows (gui sc))) sc
  | floatSliderButtonGrp_query_value control =>
      match lookup control (sliders (gui sc)) with
      | Some v => ok v sc
      | None => fails RuntimeError sc
      end
  | setAttr plug values _ _ => do_setAttr plug values sc
  | addAttr n ln _ _ =>
      match lookup n (nodes sc) with
      | Some x => ok tt (with_nodes sc (update n (set_attrs x (ln :: x_attrs x)) (nodes sc)))
      | None => fails RuntimeError sc
      end
  | group_em name => do_group name sc
  | parent child parent_ => do_parent child parent_ sc
  | parentConstraint target object => do_parentConstraint target object sc
  | delete objs => do_delete objs sc
  | lockNode obj l => do_lockNode obj l sc
  | select n =>
      match lookup n (nodes sc) with
      | Some _ => ok tt (with_selection sc [n])
      | None => fails RuntimeError sc
      end
  | cutKey _ => ok tt sc
  | refresh => ok tt sc
  | setToolTo _ => ok tt sc
  | scriptJob_event event cb once =>
      ok (next_job sc) (with_jobs sc ((next_job sc, (event, cb, once)) :: jobs sc) (next_job sc + 1)%Z)
  | scriptJob_kill job _ =>
      match job with
      | Some j => ok tt (with_jobs sc (filter (fun e => negb (fst e =? j)%Z) (jobs sc)) (next_job sc))
      | None => fails TypeError sc
      end
  | inViewMessage _ _ _ _ _ => ok tt sc
  | deleteUI name =>
      if mem name (windows (gui sc)) then
        ok tt (with_gui sc (set_windows (gui sc) (filter (fun w => negb (w =? name)) (windows (gui sc)))))
      else fails RuntimeError sc
  | window_create name _ _ => ok name (with_gui sc (set_windows (gui sc) (name :: windows (gui sc))))
  | window_edit _ _ _ => ok tt sc
  | columnLayout => ok "columnLayout1" sc
  | floatSliderButtonGrp _ _ value _ _ _ _ =>
      ok "floatSliderButtonGrp1" (with_gui sc (add_slider (gui sc) "floatSliderButtonGrp1" value))
  | showWindow _ => ok tt sc
  | displayWarning msg => ok tt (with_gui sc (add_warning (gui sc) msg))
  | installEventFilter => ok tt (with_gui sc (set_filter (gui sc) true))
  | removeEventFilter => ok tt (with_gui sc (set_filter (gui sc) false))
  | matchBake source destination _ maintainOffset _ rotate =>
      do_matchBake source destination maintainOffset
        (match rotate with Some b => b | None => true end) sc
  | UndoChunk_enter _ => ok tt (with_gui sc (set_undo (gui sc) (S (undo_depth (gui sc)))))
  | UndoChunk_exit => ok tt (with_gui sc (set_undo (gui sc) (pred (undo_depth (gui sc)))))
  | MlUi_enter _ _ _ _ _ => ok tt sc
  | MlUi_exit => ok tt sc
  | buttonWithPopup label cb _ _ _ => ok tt (with_gui sc (add_button (gui sc) label cb))
  end.

(** Modelled from the spec: the host application, as far as the script
    calls it. *)
Definition Maya : Host := mkHost Scene scene_exec.

(** A host event reaching the scene: the callbacks of the jobs that listen
    to it. *)
Definition fired (name : string) (sc : Scene) : list Callback :=
  map (fun j => snd (fst (snd j)))
      (filter (fun j => fst (fst (snd j)) =? name) (jobs sc)).

End SceneHost.

(** ** Notions used by the statements *)

Section Observations.

Context {N : Number}.

(** The calls of [tr] followed by the outcome [o]. *)
Definition prepend {W A : Type} (tr : list Event) (o : Outcome W A) : Outcome W A :=
  mkOutcome (result o) (self_after o) (world_after o) (tr ++ calls o).

(** A program that only queries the host and does not touch [self]. *)
Fixpoint Pure {A : Type} (p : Prog A) : Prop :=
  match p with
  | Ret _ => True
  | Raise _ => True
  | Call c k => is_query c = true /\ forall r, Pure (k r)
  | GetSelf _ => False
  | SetSelf _ _ => False
  end.

(** What a program returns in a state of the host. *)
Definition observe (H : Host) {A : Type} (p : Prog A) (w : World H) : Result A :=
  result (run H p EditPivotContext w).

(** The node has a connected rotatePivot with no supported driver; for
    Edit Pivot, past the check that the node is not a pivot handle. *)
Definition undriven (H : Host) (cmd : Command) (n : string) (w : World H) : Prop :=
  match cmd with
  | EditPivot => ask H (attributeQuery_exists "ml_pivot_handle" n) w = Returned false
  | ResetPivot => True
  end /\
  observe H (is_pivot_connected n) w = Returned true /\
  exists d, observe H (pivot_driver_attr n) w = Returned d /\ truthy d = false.

(** The pivot of the node is at its reset value. *)
Definition at_reset (H : Host) (n : string) (w : World H) : Prop :=
  (observe H (is_pivot_connected n) w = Returned false /\
   exists p rest, ask H (getAttr3 (n ++ ".rotatePivot")) w = Returned (p :: rest) /\
                  vec_eqb p (zero, zero, zero) = true)
  \/
  (observe H (is_pivot_connected n) w = Returned true /\
   exists d dNode dAttr v dflt rest,
     observe H (pivot_driver_attr n) w = Returned (Some d) /\
     truthy (Some d) = true /\
     split_dot d = Some (dNode, dAttr) /\
     ask H (getAttr d) w = Returned v /\
     ask H (attributeQuery_listDefault dAttr dNode) w = Returned (dflt :: rest) /\
     num_eqb dflt v = true).

(** An outcome that ends with a warning, after queries only. *)
Definition warned (H : Host) (o : Outcome (World H) unit) (w : World H) : Prop :=
  exists qs msg,
    calls o = qs ++ [Ev (displayWarning msg)] /\
    forallb query_event qs = true /\
    result o = ask H (displayWarning msg) w /\
    world_after o = after H (displayWarning msg) w.

(** An outcome that returns after queries only, leaving the host and the
    context as they were. *)
Definition quiet (H : Host) (o : Outcome (World H) unit) (s : Ctx) (w : World H) : Prop :=
  exists qs, o = mkOutcome (Returned tt) s w qs /\ forallb query_event qs = true.

End Observations.

(** ** Sessions on a scene *)

(** The scene of an Edit Pivot session on the node [n], with the handle
    [h] below it as [editPivotHandle] made it: the handle is a child of the
    node and has its own pivot at the origin; neither the node nor any node
    above it is below itself or below the handle; no other node carries
    ml_pivot_handle; and the host can invert the matrices of the node and of
    the nodes above it, at every frame. *)
Record in_session {Vals : Scalars} (sc : Scene) (n h : string) (nd hd : Xform) : Prop := {
  ses_node : lookup n (nodes sc) = Some nd;
  ses_handle : lookup h (nodes sc) = Some hd;
  ses_below : x_path hd = n :: x_path nd;
  ses_handle_pivot : x_rotatePivot hd = vzero;
  ses_acyclic : ~ In n (x_path nd);
  ses_above : forall a ax, In a (n :: x_path nd) -> lookup a (nodes sc) = Some ax ->
                           ~ In h (x_path ax);
  ses_only_handle : forall m x, In (m, x) (nodes sc) ->
                                mem "ml_pivot_handle" (x_attrs x) = true -> m = h;
  ses_regular : forall a ax f, In a (n :: x_path nd) -> lookup a (nodes sc) = Some ax ->
                               regular (x_rotate ax f)
}.

(** The node has keyframes on its translate or rotate channels. *)
Definition keyed {Vals : Scalars} (nd : Xform) : Prop :=
  filter (fun c => mem (fst c) ["tx"; "ty"; "tz"; "rx"; "ry"; "rz"]) (x_curves nd) <> [].

(** ** Example scenes *)

Definition rz90 : M33 := ((0, -1, 0), (1, 0, 0), (0, 0, 1))%Z.

Definition no_ui : Ui := mkUi false [] [] [] [] 0.

(** An animated cube: it slides along x and turns a quarter about z on
    odd frames. *)
Definition cube : Xform :=
  mkXform "transform" [] false [] (0, 0, 0)%Z
    (fun f => (f, 0, 0)%Z)
    (fun f => if Z.even f then mid else rz90)
    [("tx", "cube_translateX"); ("rz", "cube_rotateZ")].

Definition cube_scene : Scene :=
  mkScene [("cube", cube)] [] [] ["cube"] 1%Z [] 1%Z no_ui.

(** The same scene with nothing selected, and with two nodes selected. *)
Definition empty_selection_scene : Scene :=
  with_selection cube_scene [].

(** An unanimated cube. *)
Definition still_cube : Xform :=
  mkXform "transform" [] false [] (0, 0, 0)%Z (fun _ => (4, 0, 0)%Z) (fun _ => mid) [].

Definition still_scene : Scene :=
  mkScene [("cube", still_cube)] [] [] ["cube"] 1%Z [] 1%Z no_ui.

(** A pivot handle whose own rotatePivot is connected to a node that is
    not a remapValue. *)
Definition connected_handle_scene : Scene :=
  mkScene
    [("Adjust_Pivot", set_attrs new_transform ["ml_pivot_handle"]);
     ("locator1", new_transform)]
    []
    [("locator1.translate", "Adjust_Pivot.rotatePivot")]
    ["Adjust_Pivot"] 1%Z [] 1%Z no_ui.

(** A cube whose rotatePivot is connected to a node that is not a
    remapValue. *)
Definition connected_scene : Scene :=
  mkScene
    [("cube", cube); ("locator1", new_transform)]
    []
    [("locator1.translate", "cube.rotatePivot")]
    ["cube"] 1%Z [] 1%Z no_ui.

(** Two left-over pivot handles, one below the other. *)
Definition leftover_scene : Scene :=
  mkScene
    [("Adjust_Pivot", set_attrs new_transform ["ml_pivot_handle"]);
     ("Adjust_Pivot1",
      set_path (set_attrs new_transform ["ml_pivot_handle"]) ["Adjust_Pivot"])]
    [] [] [] 1%Z [] 1%Z no_ui.

(** A cube whose rotatePivotX is driven, through a remapValue node, by the
    keyable attribute ctrl.pivotBlend, which is at its default. *)
Definition driven_scene : Scene :=
  mkScene
    [("cube", cube);
     ("remapValue1", mkXform "remapValue" [] false [] vzero (fun _ => vzero) (fun _ => mid) []);
     ("ctrl", new_transform)]
    [("ctrl.pivotBlend", mkScalar 0%Z 0%Z 0%Z 10%Z true false)]
    [("remapValue1.outValue", "cube.rotatePivotX");
     ("ctrl.pivotBlend", "remapValue1.inputValue")]
    ["cube"] 1%Z [] 1%Z no_ui.

Definition key_press (k : Z) : QEvent := mkQEvent QEvent_KeyPress k.

(** The context of a session on the cube, as [editPivot] leaves it before
    it calls [editPivotHandle]. *)
Definition cube_context : Ctx :=
  mkCtx (Some "cube") None None None None None.

(** The unanimated scene once Edit Pivot has run and the user has moved
    the handle to (2, 3, 0). *)
Definition still_start : Outcome Scene unit :=
  run Maya (edit_pivot []) EditPivotContext still_scene.

Definition still_moved : Scene :=
  snd (scene_exec unit
         (setAttr "Adjust_Pivot.translate" [ANum 2%Z; ANum 3%Z; ANum 0%Z] None None)
         (world_after still_start)).

(** The cube scene once Edit Pivot has run and the user has moved the
    handle to (2, 3, 0). *)
Definition session_start : Outcome Scene unit :=
  run Maya (edit_pivot []) EditPivotContext cube_scene.

(** The handle of that session. *)
Definition moved_handle : Xform :=
  mkXform "transform" ["cube"] true ["ml_pivot_handle"] vzero
    (fun _ => (2, 3, 0)%Z) (fun _ => mid) [].

Definition session_moved : Scene :=
  snd (scene_exec unit
         (setAttr "Adjust_Pivot.translate" [ANum 2%Z; ANum 3%Z; ANum 0%Z] None None)
         (world_after session_start)).

(** ** Further notions *)

Section MoreNotions.

Context {N : Number}.

Definition nonempty {A : Type} (l : list A) : bool :=
  match l with
  | [] => false
  | _ :: _ => true
  end.

(** The four plugs [is_pivot_connected] looks at, and the three
    [pivot_driver_attr] looks at. *)
Definition pivot_plugs : list string :=
  ["rotatePivot"; "rotatePivotX"; "rotatePivotY"; "rotatePivotZ"].

Definition pivot_axis_plugs : list string :=
  ["rotatePivotX"; "rotatePivotY"; "rotatePivotZ"].

(** What [pivot_driver_attr] has checked of a plug [d] it returns for the
    node [n]. *)
Definition drives (H : Host) (n d : string) (w : World H) : Prop :=
  exists each src0 rest rest',
    In each pivot_axis_plugs /\
    ask H (listConnections (n ++ "." ++ each) false) w = Returned (src0 :: rest) /\
    ask H (nodeType src0) w = Returned "remapValue" /\
    ask H (listConnections (src0 ++ ".inputValue") true) w = Returned (d :: rest') /\
    ask H (getAttr_keyable d) w = Returned true /\
    ask H (getAttr_lock d) w = Returned false.

Definition removes_filter (e : Event) : bool :=
  match e with
  | Ev removeEventFilter => true
  | _ => false
  end.

(** Calls that start something that outlives the command: the keypress
    filter, a script job, a window. *)
Definition registers (e : Event) : bool :=
  match e with
  | Ev installEventFilter | Ev (scriptJob_event _ _ _) | Ev (window_create _ _ _) => true
  | _ => false
  end.

(** The calls by which [editPivotHandle] opens a session: the filter, the
    handle, the script job. *)
Definition opens_session (e : Event) : bool :=
  match e with
  | Ev installEventFilter | Ev (scriptJob_event _ _ _) | Ev (group_em _) => true
  | _ => false
  end.

(** Calls that change animation or remove nodes. *)
Definition bakes_cuts_or_deletes (e : Event) : bool :=
  match e with
  | Ev (matchBake _ _ _ _ _ _) | Ev (cutKey _) | Ev (delete _) | Ev (parentConstraint _ _) => true
  | _ => false
  end.

End MoreNotions.

Section Orders.

Context {N : Number}.

(** Along every path of the program, a call of class [a] comes only after
    a call of class [b]. *)
Fixpoint Before (a b : Event -> bool) {A : Type} (p : Prog A) : Prop :=
  match p with
  | Ret _ => True
  | Raise _ => True
  | Call c k => a (Ev c) = false /\ (b (Ev c) = true \/ forall r, Before a b (k r))
  | GetSelf k => forall s, Before a b (k s)
  | SetSelf _ k => Before a b k
  end.

Definition is_cutKey (e : Event) : bool :=
  match e with
  | Ev (cutKey _) => true
  | _ => false
  end.

End Orders.

(** The driven scene once Edit Pivot has opened the slider window, and
    once the user has dragged the slider to 5. *)
Definition slider_start : Outcome Scene unit :=
  run Maya (edit_pivot []) EditPivotContext driven_scene.

Definition slider_moved : Scene :=
  with_gui (world_after slider_start)
    (add_slider (gui (world_after slider_start)) "floatSliderButtonGrp1" 5%Z).

(** ** A session on a scene *)

(** The name [editPivotHandle] gets for its handle. *)
Definition handle_name {Vals : Scalars} (sc : Scene) : string :=
  fresh_name "Adjust_Pivot" (all_names (nodes sc)).

(** The handle as [editPivotHandle] leaves it below the node [n]: at the
    rotate pivot of the node, tagged and locked. *)
Definition handle_of {Vals : Scalars} (n : string) (nd : Xform) : Xform :=
  mkXform "transform" (n :: x_path nd) true ["ml_pivot_handle"] vzero
    (fun _ => x_rotatePivot nd) (fun _ => mid) [].

(** The scene once [editPivotHandle] has run for the node [n]. *)
Definition started {Vals : Scalars} (sc : Scene) (n : string) (nd : Xform) : Scene :=
  mkScene ((handle_name sc, handle_of n nd) :: nodes sc) (scalars sc) (connections sc)
    [handle_name sc] (now sc)
    ((next_job sc, ("SelectionChanged", cb_cleanup, true)) :: jobs sc) (next_job sc + 1)%Z
    (set_filter (gui sc) true).

(** The context of that session. *)
Definition started_context {Vals : Scalars} (sc : Scene) (s : Ctx) : Ctx :=
  mkCtx (node s) (Some (handle_name sc)) (Some (next_job sc))
    (pivotDriver s) (pivotDriverWindow s) (floatSlider s).

(** The scene once that session has been cancelled: as before Edit Pivot,
    with nothing selected. *)
Definition cancelled {Vals : Scalars} (sc : Scene) (u : Ui) : Scene :=
  mkScene (nodes sc) (scalars sc) (connections sc) [] (now sc) (jobs sc) (next_job sc + 1)%Z u.

(** A rig with rational values.  The arm slides along x and, on odd
    frames, is turned about z by the angle whose cosine is 3/5; its parent
    moves along y, is scaled by 2 along x, and is sheared on odd frames. *)
Section Rig.

#[local] Existing Instance QcScalars | 0.

Definition ratio (a : Z) (b : positive) : K :=
  Qcanon.Q2Qc (QArith_base.Qmake a b).

Definition whole (a : Z) : K := ratio a 1.

Definition turned : M33 :=
  ((ratio 3 5, ratio (-4) 5, whole 0),
   (ratio 4 5, ratio 3 5, whole 0),
   (whole 0, whole 0, whole 1)).

Definition scaled : M33 :=
  ((whole 2, whole 0, whole 0),
   (whole 0, whole 1, whole 0),
   (whole 0, whole 0, whole 1)).

Definition scaled_and_sheared : M33 :=
  ((whole 2, whole 1, whole 0),
   (whole 0, whole 1, whole 0),
   (whole 0, whole 0, whole 1)).

Definition rig : Xform :=
  mkXform "transform" [] false [] (whole 0, whole 0, whole 0)
    (fun f => (whole 0, whole f, whole 0))
    (fun f => if Z.even f then scaled else scaled_and_sheared)
    [("ty", "rig_translateY")].

Definition arm : Xform :=
  mkXform "transform" ["rig"] false [] (whole 0, whole 0, whole 0)
    (fun f => (ratio f 2, whole 1, whole 0))
    (fun f => if Z.even f then mid else turned)
    [("tx", "arm_translateX"); ("rz", "arm_rotateZ")].

Definition rig_scene : Scene :=
  mkScene [("arm", arm); ("rig", rig)] [] [] ["arm"] 1%Z [] 1%Z
    (mkUi false [] [] [] [] 0).

(** The same rig with the rotate pivot of the arm away from the origin. *)
Definition pivoted_arm : Xform :=
  set_rotatePivot arm (ratio 1 2, whole 2, whole 0).

Definition pivoted_rig_scene : Scene :=
  mkScene [("arm", pivoted_arm); ("rig", rig)] [] [] ["arm"] 1%Z [] 1%Z
    (mkUi false [] [] [] [] 0).

(** The session of Edit Pivot on the arm, the handle moved to (1/2, 2, 0),
    and the Return key. *)
Definition rig_start : Outcome Scene unit :=
  run Maya (edit_pivot []) EditPivotContext rig_scene.

Definition rig_moved : Scene :=
  snd (scene_exec unit
         (setAttr "Adjust_Pivot.translate"
            [ANum (ratio 1 2); ANum (whole 2); ANum (whole 0)] None None)
         (world_after rig_start)).

Definition rig_committed : Outcome Scene bool :=
  run Maya (keypressFilter (key_press Key_Return)) (self_after rig_start) rig_moved.

(** Positions written as fractions. *)
Definition fractions (l : list (option V3))
  : list (option (QArith_base.Q * QArith_base.Q * QArith_base.Q)) :=
  map (option_map (fun v : V3 =>
         let '(a, b, c) := v in (Qcanon.this a, Qcanon.this b, Qcanon.this c))) l.

End Rig.

(** The animated cube with its rotate pivot away from the origin. *)
Definition pivoted_cube : Xform :=
  set_rotatePivot cube (2, 3, 0)%Z.

Definition pivoted_scene : Scene :=
  mkScene [("cube", pivoted_cube)] [] [] ["cube"] 1%Z [] 1%Z no_ui.

(** The driven scene with the driver away from its default. *)
Definition driven_away_scene : Scene :=
  with_scalars driven_scene [("ctrl.pivotBlend", mkScalar 5%Z 0%Z 0%Z 10%Z true false)].

(** * Facts *)

(** ** Executions of composed programs *)

Section RunFacts.

Context {N : Number}.
Variable H : Host.

Lemma prepend_nil {A : Type} (o : Outcome (World H) A) : prepend [] o = o.
Proof. destruct o; reflexivity. Qed.

Lemma prepend_logged {A : Type} (e : Event) (tr : list Event) (o : Outcome (World H) A) :
  logged e (prepend tr o) = prepend (e :: tr) o.
Proof. reflexivity. Qed.

Lemma prepend_prepend {A : Type} (t1 t2 : list Event) (o : Outcome (World H) A) :
  prepend t1 (prepend t2 o) = prepend (t1 ++ t2) o.
Proof. unfold prepend; simpl. now rewrite app_assoc. Qed.

(** [bind] runs the first program, then the second from where the first
    stopped, unless the first raised. *)
Lemma run_bind {A B : Type} (p : Prog A) (f : A -> Prog B) (s : Ctx) (w : World H) :
  run H (bind p f) s w =
  match result (run H p s w) with
  | Returned a =>
      prepend (calls (run H p s w))
        (run H (f a) (self_after (run H p s w)) (world_after (run H p s w)))
  | Raised e =>
      mkOutcome (Raised e) (self_after (run H p s w)) (world_after (run H p s w))
        (calls (run H p s w))
  end.
Proof.
  revert s w.
  induction p as [a | e | T c k IH | k IH | s' k IH]; intros s w; simpl.
  - now rewrite prepend_nil.
  - reflexivity.
  - rewrite IH.
    destruct (result (run H (k (ask H c w)) s (after H c w))); reflexivity.
  - apply IH.
  - apply IH.
Qed.

Lemma run_catch {A : Type} (p : Prog A) (h : Exn -> Prog A) (s : Ctx) (w : World H) :
  run H (catch p h) s w =
  match result (run H p s w) with
  | Returned a => run H p s w
  | Raised e =>
      prepend (calls (run H p s w))
        (run H (h e) (self_after (run H p s w)) (world_after (run H p s w)))
  end.
Proof.
  revert s w.
  induction p as [a | e | T c k IH | k IH | s' k IH]; intros s w; simpl.
  - reflexivity.
  - now rewrite prepend_nil.
  - rewrite IH.
    destruct (result (run H (k (ask H c w)) s (after H c w))); reflexivity.
  - apply IH.
  - apply IH.
Qed.

Lemma run_bind_assoc {A B C : Type} (p : Prog A) (g : A -> Prog B) (f : B -> Prog C)
    (s : Ctx) (w : World H) :
  run H (bind (bind p g) f) s w = run H (bind p (fun a => bind (g a) f)) s w.
Proof.
  revert s w.
  induction p as [a | e | T c k IH | k IH | s' k IH]; intros s w; simpl.
  - reflexivity.
  - reflexivity.
  - now rewrite IH.
  - apply IH.
  - apply IH.
Qed.

(** A host call followed by the rest of the program. *)
Lemma run_call {T A : Type} (c : mc T) (f : T -> Prog A) (s : Ctx) (w : World H) :
  run H (bind (call c) f) s w =
  match ask H c w with
  | Returned v => logged (Ev c) (run H (f v) s (after H c w))
  | Raised e => mkOutcome (Raised e) s (after H c w) [Ev c]
  end.
Proof.
  simpl. destruct (ask H c w); reflexivity.
Qed.

Lemma run_call_last {T : Type} (c : mc T) (s : Ctx) (w : World H) :
  run H (call c) s w = mkOutcome (ask H c w) s (after H c w) [Ev c].
Proof.
  simpl. destruct (ask H c w); reflexivity.
Qed.

(** [try: p except: pass] never raises. *)
Lemma try_pass_returns (p : Prog unit) (s : Ctx) (w : World H) :
  result (run H (try_pass p) s w) = Returned tt.
Proof.
  unfold try_pass. rewrite run_catch.
  destruct (result (run H p s w)) as [[] | e] eqn:E; simpl; [exact E | reflexivity].
Qed.

(** The calls of [try: p except: pass] are the calls of [p]. *)
Lemma try_pass_calls (p : Prog unit) (s : Ctx) (w : World H) :
  calls (run H (try_pass p) s w) = calls (run H p s w) /\
  self_after (run H (try_pass p) s w) = self_after (run H p s w) /\
  world_after (run H (try_pass p) s w) = world_after (run H p s w).
Proof.
  unfold try_pass. rewrite run_catch.
  destruct (result (run H p s w)) as [[] | e]; simpl; auto using app_nil_r.
Qed.

(** ** Properties of every call of a program *)

Lemma Always_bind (P : Event -> Prop) {A B : Type} (p : Prog A) (f : A -> Prog B) :
  Always P p -> (forall a, Always P (f a)) -> Always P (bind p f).
Proof.
  intros Hp Hf.
  induction p as [a | e | T c k IH | k IH | s' k IH]; simpl in *.
  - apply Hf.
  - exact I.
  - destruct Hp as [Hc Hk]. split; [exact Hc | intro r; apply IH, Hk].
  - intro s. apply IH, Hp.
  - apply IH, Hp.
Qed.

Lemma Always_catch (P : Event -> Prop) {A : Type} (p : Prog A) (h : Exn -> Prog A) :
  Always P p -> (forall e, Always P (h e)) -> Always P (catch p h).
Proof.
  intros Hp Hh.
  induction p as [a | e | T c k IH | k IH | s' k IH]; simpl in *.
  - exact I.
  - apply Hh.
  - destruct Hp as [Hc Hk]. split; [exact Hc | intro r; apply IH, Hk].
  - intro s. apply IH, Hp.
  - apply IH, Hp.
Qed.

Lemma Always_call (P : Event -> Prop) {T : Type} (c : mc T) :
  P (Ev c) -> Always P (call c).
Proof.
  intro Hc. simpl. split; [exact Hc | intros [v | e]; exact I].
Qed.

Lemma Always_for_each (P : Event -> Prop) {A : Type} (l : list A) (body : A -> Prog unit) :
  (forall a, Always P (body a)) -> Always P (for_each l body).
Proof.
  intro Hb. induction l as [| a l IH]; simpl.
  - exact I.
  - apply Always_bind; [apply Hb | intros _; exact IH].
Qed.

Lemma Always_with (P : Event -> Prop) {A : Type} (enter exit : mc unit) (body : Prog A) :
  P (Ev enter) -> P (Ev exit) -> Always P body -> Always P (with_ enter exit body).
Proof.
  intros He Hx Hb. unfold with_.
  apply Always_bind; [now apply Always_call | intros _].
  apply Always_bind.
  - apply Always_catch; [| intros e; exact I].
    apply Always_bind; [exact Hb | intros a; exact I].
  - intros r. apply Always_bind; [now apply Always_call | intros _].
    destruct r; exact I.
Qed.

(** What holds of every call of a program holds of the calls of each of
    its executions. *)
Lemma Always_run (P : Event -> Prop) {A : Type} (p : Prog A) (s : Ctx) (w : World H) :
  Always P p -> Forall P (calls (run H p s w)).
Proof.
  revert s w.
  induction p as [a | e | T c k IH | k IH | s' k IH]; intros s w Hp; simpl in *.
  - constructor.
  - constructor.
  - destruct Hp as [Hc Hk]. constructor; [exact Hc | apply IH, Hk].
  - apply IH, Hp.
  - apply IH, Hp.
Qed.

Lemma Always_never (b : Event -> bool) {A : Type} (p : Prog A) (s : Ctx) (w : World H) :
  Always (fun e => b e = false) p -> existsb b (calls (run H p s w)) = false.
Proof.
  intro Hp. apply (Always_run _ p s w) in Hp.
  induction Hp as [| e l He _ IH]; simpl; [reflexivity | now rewrite He, IH].
Qed.

Lemma Always_filter (b : Event -> bool) {A : Type} (p : Prog A) (s : Ctx) (w : World H) :
  Always (fun e => b e = false) p -> filter b (calls (run H p s w)) = [].
Proof.
  intro Hp. apply (Always_run _ p s w) in Hp.
  induction Hp as [| e l He _ IH]; simpl; [reflexivity | now rewrite He, IH].
Qed.

(** ** Programs that only query *)

Lemma Pure_bind {A B : Type} (p : Prog A) (f : A -> Prog B) :
  Pure p -> (forall a, Pure (f a)) -> Pure (bind p f).
Proof.
  intros Hp Hf.
  induction p as [a | e | T c k IH | k IH | s' k IH]; simpl in *.
  - apply Hf.
  - exact I.
  - destruct Hp as [Hc Hk]. split; [exact Hc | intro r; apply IH, Hk].
  - contradiction.
  - contradiction.
Qed.

Lemma Pure_call {T : Type} (c : mc T) : is_query c = true -> Pure (call c).
Proof.
  intro Hc. simpl. split; [exact Hc | intros [v | e]; exact I].
Qed.

(** On a host whose queries are pure, such a program leaves the host and
    [self] as they are, and its answer does not depend on [self]. *)
Lemma Pure_run {A : Type} (p : Prog A) (s : Ctx) (w : World H) :
  queries_pure H -> Pure p ->
  run H p s w = mkOutcome (observe H p w) s w (calls (run H p s w)) /\
  forallb query_event (calls (run H p s w)) = true.
Proof.
  intros HH. unfold observe. revert s w.
  induction p as [a | e | T c k IH | k IH | s' k IH]; intros s w Hp; simpl in *.
  - split; reflexivity.
  - split; reflexivity.
  - destruct Hp as [Hc Hk].
    assert (Hw : after H c w = w) by (apply HH, Hc).
    rewrite Hw. specialize (IH (ask H c w) s w (Hk _)).
    destruct IH as [IH1 IH2]. split.
    + rewrite IH1 at 1. reflexivity.
    + now rewrite Hc, IH2.
  - contradiction.
  - contradiction.
Qed.

End RunFacts.

(** ** The script, call by call *)

Section ScriptFacts.

Context {N : Number}.

Lemma Pure_Always (P : Event -> Prop) {A : Type} (p : Prog A) :
  (forall (T : Type) (c : mc T), is_query c = true -> P (Ev c)) ->
  Pure p -> Always P p.
Proof.
  intros HP.
  induction p as [a | e | T c k IH | k IH | s' k IH]; simpl; intros Hp.
  - exact I.
  - exact I.
  - destruct Hp as [Hc Hk]. split; [now apply HP | intro r; apply IH, Hk].
  - contradiction.
  - contradiction.
Qed.

Lemma is_pivot_connected_loop_pure (n : string) (attrs : list string) :
  Pure (is_pivot_connected_loop n attrs).
Proof.
  induction attrs as [| each rest IH]; simpl.
  - exact I.
  - split; [reflexivity |].
    intros [[| src0 src] | e]; simpl; auto.
Qed.

Lemma is_pivot_connected_pure (n : string) : Pure (is_pivot_connected n).
Proof. apply is_pivot_connected_loop_pure. Qed.

Lemma pivot_driver_attr_loop_pure (n : string) (attrs : list string) :
  Pure (pivot_driver_attr_loop n attrs).
Proof.
  induction attrs as [| each rest IH]; simpl.
  - exact I.
  - split; [reflexivity |].
    intros [[| src0 src] | e]; simpl; auto.
    split; [reflexivity |].
    intros [srcType | e]; simpl; auto.
    destruct (srcType =? "remapValue"); auto.
    simpl. split; [reflexivity |].
    intros [[| plug src'] | e]; simpl; auto.
    split; [reflexivity |].
    intros [[|] | e]; simpl; auto.
    split; [reflexivity |].
    intros [[|] | e]; simpl; auto.
Qed.

Lemma pivot_driver_attr_pure (n : string) : Pure (pivot_driver_attr n).
Proof. apply pivot_driver_attr_loop_pure. Qed.

End ScriptFacts.

(** Goals of the form [Always P p], for the programs of the script. *)
Ltac always_step :=
  match goal with
  | |- Always _ (Ret _) => exact I
  | |- Always _ (Raise _) => exact I
  | |- Always _ (call _) => apply Always_call; reflexivity
  | |- Always _ (is_pivot_connected _) =>
      apply Pure_Always; [intros ? [] ; simpl; congruence | apply is_pivot_connected_pure]
  | |- Always _ (pivot_driver_attr _) =>
      apply Pure_Always; [intros ? [] ; simpl; congruence | apply pivot_driver_attr_pure]
  | |- Always _ (for_each _ _) => apply Always_for_each; intro
  | |- Always _ (with_ _ _ _) => apply Always_with; [reflexivity | reflexivity |]
  | |- Always _ (try_pass _) => apply Always_catch; [| intro; exact I]
  | |- Always _ (bind _ _) => apply Always_bind; [| intro]
  | |- Always _ (GetSelf _) => intro
  | |- Always _ (SetSelf _ _) => simpl
  | |- Always _ (if ?b then _ else _) => destruct b
  | |- Always _ (match ?x with _ => _ end) => destruct x
  | |- Always _ (let '(_, _) := ?x in _) => destruct x
  | |- Always _ _ => progress (cbv delta [self set_self assign_node assign_pivotHandle
        assign_scriptJob assign_pivotDriver assign_pivotDriverWindow assign_floatSlider
        item0 str_of attr_of split2] beta)
  end.

Ltac always := repeat always_step.

Section Bakes.

Context {N : Number}.
Variable H : Host.

Lemma cleanup_bakes : Always (fun e => bake_not_on_ones e = false) cleanup.
Proof. unfold cleanup, cleanup_handle, cleanup_job, cleanup_leftovers. always. Qed.

Lemma bakePivot_bakes : Always (fun e => bake_not_on_ones e = false) bakePivot.
Proof. unfold bakePivot. always; apply cleanup_bakes. Qed.

Lemma reset_pivot_bakes (args : list Arg) :
  Always (fun e => bake_not_on_ones e = false) (reset_pivot args).
Proof. unfold reset_pivot, reset_pivot_bake. always. Qed.

Lemma doEditPivotDriver_bakes :
  Always (fun e => bake_not_on_ones e = false) doEditPivotDriver.
Proof. unfold doEditPivotDriver. always. Qed.

(** C4. Every baking operation of the tool bakes on every frame: in every
    execution of [bakePivot], of [reset_pivot] and of [doEditPivotDriver],
    on every host, each call to [matchBake] is made with bakeOnOnes=True. *)
Theorem every_bake_is_on_ones (s : Ctx) (w : World H) (args : list Arg) :
  existsb bake_not_on_ones (calls (run H bakePivot s w)) = false /\
  existsb bake_not_on_ones (calls (run H (reset_pivot args) s w)) = false /\
  existsb bake_not_on_ones (calls (run H doEditPivotDriver s w)) = false.
Proof.
  repeat split; apply Always_never.
  - apply bakePivot_bakes.
  - apply reset_pivot_bakes.
  - apply doEditPivotDriver_bakes.
Qed.

End Bakes.

(** ** The two commands *)

Section Commands.

Context {N : Number}.
Variable H : Host.
Hypothesis HH : queries_pure H.

Lemma after_query {T : Type} (c : mc T) (w : World H) :
  is_query c = true -> after H c w = w.
Proof. intro Hc. apply HH, Hc. Qed.

Lemma run_bind_pure {A B : Type} (p : Prog A) (f : A -> Prog B) (s : Ctx) (w : World H) (a : A) :
  Pure p -> observe H p w = Returned a ->
  run H (bind p f) s w = prepend (calls (run H p s w)) (run H (f a) s w) /\
  forallb query_event (calls (run H p s w)) = true.
Proof.
  intros Hp Ho.
  destruct (Pure_run H p s w HH Hp) as [E Q].
  split; [| exact Q].
  rewrite run_bind.
  set (tr := calls (run H p s w)) in *.
  rewrite E. simpl. rewrite Ho. reflexivity.
Qed.

(** A query that returns, followed by the rest of the program. *)
Lemma run_query {T A : Type} (c : mc T) (f : T -> Prog A) (s : Ctx) (w : World H) (v : T) :
  is_query c = true -> ask H c w = Returned v ->
  run H (bind (call c) f) s w = logged (Ev c) (run H (f v) s w).
Proof.
  intros Hc Ha. rewrite run_call, Ha, after_query by exact Hc. reflexivity.
Qed.

(** C9. When the single selected node already carries the ml_pivot_handle
    attribute, [editPivot] returns at once: it has made two queries, has
    displayed no warning, and the host and the context are as before. *)
Theorem editPivot_on_handle_is_silent (s : Ctx) (w : World H) (n : string) :
  ask H ls_sl w = Returned [n] ->
  ask H (attributeQuery_exists "ml_pivot_handle" n) w = Returned true ->
  run H editPivot s w =
    mkOutcome (Returned tt) s w [Ev ls_sl; Ev (attributeQuery_exists "ml_pivot_handle" n)] /\
  existsb is_warning (calls (run H editPivot s w)) = false.
Proof.
  intros Hsel Hattr.
  assert (E : run H editPivot s w =
    mkOutcome (Returned tt) s w [Ev ls_sl; Ev (attributeQuery_exists "ml_pivot_handle" n)]).
  { unfold editPivot.
    rewrite (run_query ls_sl _ s w [n]) by (reflexivity || exact Hsel).
    cbn [length Nat.ltb Nat.leb item0 bind].
    rewrite (run_query (attributeQuery_exists "ml_pivot_handle" n) _ s w true)
      by (reflexivity || exact Hattr).
    reflexivity. }
  split; [exact E | now rewrite E].
Qed.

Lemma run_assign_node {A : Type} (v : option string) (k : Prog A) (s : Ctx) (w : World H) :
  run H (bind (assign_node v) (fun _ => k)) s w =
  run H k (mkCtx v (pivotHandle s) (scriptJob s) (pivotDriver s) (pivotDriverWindow s)
             (floatSlider s)) w.
Proof. reflexivity. Qed.

Lemma warned_logged {T : Type} (c : mc T) (o : Outcome (World H) unit) (w : World H) :
  is_query c = true -> warned H o w -> warned H (logged (Ev c) o) w.
Proof.
  intros Hc (qs & msg & E & Q & R & W).
  exists (Ev c :: qs), msg. simpl. rewrite E, Hc, Q. auto.
Qed.

Lemma warned_prepend (tr : list Event) (o : Outcome (World H) unit) (w : World H) :
  forallb query_event tr = true -> warned H o w -> warned H (prepend tr o) w.
Proof.
  intros Ht (qs & msg & E & Q & R & W).
  exists (tr ++ qs), msg. simpl. rewrite E, forallb_app, Ht, Q, app_assoc. auto.
Qed.

Lemma warned_warning (msg : string) (s : Ctx) (w : World H) :
  warned H (run H (call (displayWarning msg)) s w) w.
Proof.
  exists [], msg. rewrite run_call_last. simpl. auto.
Qed.

Lemma editPivot_warns (s : Ctx) (w : World H) (sel : list string) :
  ask H ls_sl w = Returned sel ->
  sel = [] \/ (1 < length sel)%nat \/ (exists n, sel = [n] /\ undriven H EditPivot n w) ->
  warned H (run H editPivot s w) w.
Proof.
  intros Hsel Hcase. unfold editPivot.
  rewrite (run_query ls_sl _ s w sel) by (reflexivity || exact Hsel).
  apply warned_logged; [reflexivity |].
  destruct Hcase as [-> | [Hlen | (n & -> & Hh & Hc & d & Hd & Ht)]].
  - apply warned_warning.
  - destruct sel as [| a [| b rest]]; simpl in Hlen; try lia.
    cbn [length Nat.ltb Nat.leb]. apply warned_warning.
  - cbn [length Nat.ltb Nat.leb item0 bind].
    rewrite (run_query (attributeQuery_exists "ml_pivot_handle" n) _ s w false)
      by (reflexivity || exact Hh).
    apply warned_logged; [reflexivity |].
    rewrite run_assign_node.
    match goal with |- warned H (run H _ ?s1 w) w => set (s' := s1) end.
    destruct (run_bind_pure (is_pivot_connected n)
                (fun connected : bool =>
                   if connected then
                     driverAttr <- pivot_driver_attr n ;;
                     match driverAttr with
                     | Some d0 =>
                         if truthy driverAttr then editPivotDriver d0
                         else call (displayWarning "Pivot attribute is connected, unable to edit.")
                     | None => call (displayWarning "Pivot attribute is connected, unable to edit.")
                     end
                   else editPivotHandle) s' w true
                (is_pivot_connected_pure n) Hc) as [E1 Q1].
    rewrite E1. apply warned_prepend; [exact Q1 |].
    destruct (run_bind_pure (pivot_driver_attr n)
                (fun driverAttr : option string =>
                   match driverAttr with
                   | Some d0 =>
                       if truthy driverAttr then editPivotDriver d0
                       else call (displayWarning "Pivot attribute is connected, unable to edit.")
                   | None => call (displayWarning "Pivot attribute is connected, unable to edit.")
                   end) s' w d
                (pivot_driver_attr_pure n) Hd) as [E2 Q2].
    rewrite E2. apply warned_prepend; [exact Q2 |].
    destruct d as [d0 |]; [rewrite Ht |]; apply warned_warning.
Qed.

Lemma reset_pivot_warns (args : list Arg) (s : Ctx) (w : World H) (sel : list string) :
  ask H ls_sl w = Returned sel ->
  sel = [] \/ (1 < length sel)%nat \/ (exists n, sel = [n] /\ undriven H ResetPivot n w) ->
  warned H (run H (reset_pivot args) s w) w.
Proof.
  intros Hsel Hcase. unfold reset_pivot.
  rewrite (run_query ls_sl _ s w sel) by (reflexivity || exact Hsel).
  apply warned_logged; [reflexivity |].
  destruct Hcase as [-> | [Hlen | (n & -> & _ & Hc & d & Hd & Ht)]].
  - apply warned_warning.
  - destruct sel as [| a [| b rest]]; simpl in Hlen; try lia.
    cbn [length Nat.ltb Nat.leb]. apply warned_warning.
  - cbn [length Nat.ltb Nat.leb item0 bind].
    match goal with |- warned H (run H (bind _ ?f) s w) w =>
      destruct (run_bind_pure (is_pivot_connected n) f s w true
                  (is_pivot_connected_pure n) Hc) as [E1 Q1]
    end.
    rewrite E1. apply warned_prepend; [exact Q1 |].
    match goal with |- warned H (run H (bind _ ?f) s w) w =>
      destruct (run_bind_pure (pivot_driver_attr n) f s w d
                  (pivot_driver_attr_pure n) Hd) as [E2 Q2]
    end.
    rewrite E2. apply warned_prepend; [exact Q2 |].
    destruct d as [d0 |]; [rewrite Ht |]; apply warned_warning.
Qed.

(** C2, as amended.  When the selection is empty, or holds more than one
    node, or holds one node whose rotatePivot is connected with no supported
    driver (and, for Edit Pivot, that node is not a pivot handle), the
    command makes queries only, then displays a warning as its last call,
    and leaves the host as the warning left it. *)
Theorem command_warns_and_returns (cmd : Command) (s : Ctx) (w : World H) (sel : list string) :
  ask H ls_sl w = Returned sel ->
  sel = [] \/ (1 < length sel)%nat \/ (exists n, sel = [n] /\ undriven H cmd n w) ->
  exists qs msg,
    calls (run H (command cmd) s w) = qs ++ [Ev (displayWarning msg)] /\
    forallb query_event qs = true /\
    result (run H (command cmd) s w) = ask H (displayWarning msg) w /\
    world_after (run H (command cmd) s w) = after H (displayWarning msg) w.
Proof.
  intros Hsel Hcase. destruct cmd.
  - change (run H (command EditPivot) s w) with (run H editPivot EditPivotContext w).
    now apply (editPivot_warns EditPivotContext w sel).
  - now apply (reset_pivot_warns [] s w sel).
Qed.

Lemma quiet_logged {T : Type} (c : mc T) (o : Outcome (World H) unit) (s : Ctx) (w : World H) :
  is_query c = true -> quiet H o s w -> quiet H (logged (Ev c) o) s w.
Proof.
  intros Hc (qs & -> & Q). exists (Ev c :: qs). simpl. now rewrite Hc, Q.
Qed.

Lemma quiet_prepend (tr : list Event) (o : Outcome (World H) unit) (s : Ctx) (w : World H) :
  forallb query_event tr = true -> quiet H o s w -> quiet H (prepend tr o) s w.
Proof.
  intros Ht (qs & -> & Q). exists (tr ++ qs). unfold prepend; simpl.
  now rewrite forallb_app, Ht, Q.
Qed.

Lemma quiet_ret (s : Ctx) (w : World H) : quiet H (run H (Ret tt) s w) s w.
Proof. exists []. auto. Qed.

(** A query whose answer is indexed, followed by the rest of the program. *)
Lemma run_query_item0 {T A : Type} (c : mc (list T)) (f : T -> Prog A) (s : Ctx) (w : World H)
    (v : T) (rest : list T) :
  is_query c = true -> ask H c w = Returned (v :: rest) ->
  run H (bind (bind (call c) item0) f) s w = logged (Ev c) (run H (f v) s w).
Proof.
  intros Hc Ha. rewrite run_bind_assoc.
  rewrite (run_query c _ s w (v :: rest)) by assumption. reflexivity.
Qed.

Lemma reset_pivot_at_reset (args : list Arg) (s : Ctx) (w : World H) (n : string) :
  ask H ls_sl w = Returned [n] -> at_reset H n w ->
  quiet H (run H (reset_pivot args) s w) s w.
Proof.
  intros Hsel Hreset. unfold reset_pivot.
  rewrite (run_query ls_sl _ s w [n]) by (reflexivity || exact Hsel).
  apply quiet_logged; [reflexivity |].
  cbn [length Nat.ltb Nat.leb item0 bind].
  destruct Hreset as [(Hc & p & rest & Hp & Hz)
                     | (Hc & d & dNode & dAttr & v & dflt & rest & Hd & Ht & Hs & Hv & Hdf & He)].
  - match goal with |- quiet H (run H (bind _ ?f) s w) s w =>
      destruct (run_bind_pure (is_pivot_connected n) f s w false
                  (is_pivot_connected_pure n) Hc) as [E1 Q1]
    end.
    rewrite E1. apply quiet_prepend; [exact Q1 |].
    rewrite (run_query_item0 (getAttr3 (n ++ ".rotatePivot")) _ s w p rest)
      by (reflexivity || exact Hp).
    apply quiet_logged; [reflexivity |].
    rewrite Hz. apply quiet_ret.
  - match goal with |- quiet H (run H (bind _ ?f) s w) s w =>
      destruct (run_bind_pure (is_pivot_connected n) f s w true
                  (is_pivot_connected_pure n) Hc) as [E1 Q1]
    end.
    rewrite E1. apply quiet_prepend; [exact Q1 |].
    match goal with |- quiet H (run H (bind _ ?f) s w) s w =>
      destruct (run_bind_pure (pivot_driver_attr n) f s w (Some d)
                  (pivot_driver_attr_pure n) Hd) as [E2 Q2]
    end.
    rewrite E2. apply quiet_prepend; [exact Q2 |].
    rewrite Ht. unfold split2. rewrite Hs. cbn [bind].
    rewrite (run_query (getAttr d) _ s w v) by (reflexivity || exact Hv).
    apply quiet_logged; [reflexivity |].
    rewrite (run_query_item0 (attributeQuery_listDefault dAttr dNode) _ s w dflt rest)
      by (reflexivity || exact Hdf).
    apply quiet_logged; [reflexivity |].
    rewrite He. apply quiet_ret.
Qed.

(** C10. When the single selected node has its pivot at its reset value
    already, [reset_pivot] returns after queries only: no node is created,
    no attribute is written, the selection is not changed, the host is as
    before.  Hence resetting twice is the same as resetting once. *)
Theorem reset_pivot_at_reset_is_a_no_op (args : list Arg) (s : Ctx) (w : World H) (n : string) :
  ask H ls_sl w = Returned [n] -> at_reset H n w ->
  result (run H (reset_pivot args) s w) = Returned tt /\
  world_after (run H (reset_pivot args) s w) = w /\
  forallb query_event (calls (run H (reset_pivot args) s w)) = true /\
  result (run H (reset_pivot args ;; reset_pivot args) s w)
    = result (run H (reset_pivot args) s w) /\
  world_after (run H (reset_pivot args ;; reset_pivot args) s w)
    = world_after (run H (reset_pivot args) s w).
Proof.
  intros Hsel Hreset.
  destruct (reset_pivot_at_reset args s w n Hsel Hreset) as (qs & E & Q).
  rewrite (run_bind H (reset_pivot args) (fun _ => reset_pivot args) s w).
  rewrite E. cbn [result self_after world_after calls prepend].
  rewrite E. cbn [result self_after world_after calls]. auto.
Qed.

Lemma cleanup_creates_nothing : Always (fun e => creates_or_bakes e = false) cleanup.
Proof. unfold cleanup, cleanup_handle, cleanup_job, cleanup_leftovers. always. Qed.

(** C8. When the node has no keyframes on tx, ty, tz, rx, ry, rz,
    [bakePivot] sets its rotatePivot to the position of the handle and
    cleans up; it creates no temporary node and bakes nothing. *)
Theorem bakePivot_without_keys_sets_the_pivot (s : Ctx) (w : World H) (h n : string)
    (newPivot oldPivot : Vec) (rest1 rest2 : list Vec) :
  pivotHandle s = Some h ->
  node s = Some n ->
  ask H (objExists (Some h)) w = Returned true ->
  ask H (objExists (Some n)) w = Returned true ->
  ask H (getAttr3 (h ++ ".translate")) w = Returned (newPivot :: rest1) ->
  ask H (getAttr3 (n ++ ".rotatePivot")) w = Returned (oldPivot :: rest2) ->
  vec_eqb newPivot oldPivot = false ->
  ask H (keyframe_query_name n ["tx"; "ty"; "tz"; "rx"; "ry"; "rz"]) w = Returned [] ->
  ask H (setAttr (n ++ ".rotatePivot") (vec_args newPivot) None None) w = Returned tt ->
  run H bakePivot s w =
    prepend [Ev (objExists (Some h)); Ev (objExists (Some n));
             Ev (getAttr3 (h ++ ".translate")); Ev (getAttr3 (n ++ ".rotatePivot"));
             Ev (keyframe_query_name n ["tx"; "ty"; "tz"; "rx"; "ry"; "rz"]);
             Ev (setAttr (n ++ ".rotatePivot") (vec_args newPivot) None None)]
      (run H cleanup s
         (after H (setAttr (n ++ ".rotatePivot") (vec_args newPivot) None None) w)) /\
  existsb creates_or_bakes (calls (run H bakePivot s w)) = false.
Proof.
  intros Hh Hn Eh En Et Ep Hne Ek Es.
  match goal with |- ?L = ?R /\ _ => assert (E : L = R) end.
  { unfold bakePivot. cbn [self bind run]. rewrite Hh, Hn.
    rewrite (run_query (objExists (Some h)) _ s w true) by (reflexivity || exact Eh).
    cbn [negb]. rewrite run_bind_assoc.
    rewrite (run_query (objExists (Some n)) _ s w true) by (reflexivity || exact En).
    cbn [negb bind str_of].
    rewrite (run_query_item0 (getAttr3 (h ++ ".translate")) _ s w newPivot rest1)
      by (reflexivity || exact Et).
    rewrite (run_query_item0 (getAttr3 (n ++ ".rotatePivot")) _ s w oldPivot rest2)
      by (reflexivity || exact Ep).
    rewrite Hne.
    rewrite (run_query (keyframe_query_name n ["tx"; "ty"; "tz"; "rx"; "ry"; "rz"]) _ s w [])
      by (reflexivity || exact Ek).
    rewrite run_call, Es. reflexivity. }
  split; [exact E |].
  rewrite E. unfold prepend; simpl.
  apply Always_never, cleanup_creates_nothing.
Qed.

End Commands.

(** ** The window, the session and its clean-up *)

Section Session.

Context {N : Number}.
Variable H : Host.

(** What [ui] calls when it returns: it opens the window, adds the two
    buttons and closes the window, and calls nothing else. *)
Lemma ui_calls (s : Ctx) (w : World H) :
  result (run H ui s w) = Returned tt ->
  calls (run H ui s w) =
    [Ev (MlUi_enter "ml_pivot" "Change Pivot" 400 150 ui_info);
     Ev (buttonWithPopup "Edit Pivot" cb_edit_pivot
           "Creates a temporary node to positon for the new pivot."
           "pivot" "defaultTwoStackedLayout");
     Ev (buttonWithPopup "Reset Pivot" cb_reset_pivot
           "Rest the rotation pivot to zero."
           "reset" "defaultTwoStackedLayout");
     Ev MlUi_exit].
Proof.
  unfold ui, with_. cbn [bind call run catch].
  repeat match goal with
  | |- context [ask H ?c ?w'] => destruct (ask H c w') eqn:?; cbn [bind call run catch]
  end; simpl; intros; congruence.
Qed.

(** Whatever [ui] does, it calls nothing but these four. *)
Lemma ui_calls_no_other :
  Always (fun e => mem_ui_call e = true) ui.
Proof. unfold ui. always. Qed.

(** C7. The window has exactly two commands and no others: when [ui]
    returns, its calls are the opening of the window, the button
    'Edit Pivot' wired to [edit_pivot], the button 'Reset Pivot' wired to
    [reset_pivot], and the closing of the window, in this order and nothing
    else, so that it adds no other control and creates no script job; and
    whether it returns or not, each of its calls is one of these four.
    Both handlers ignore whatever arguments they are called with. *)
Theorem ui_has_two_commands (s : Ctx) (w : World H) :
  result (run H ui s w) = Returned tt ->
  calls (run H ui s w) =
    [Ev (MlUi_enter "ml_pivot" "Change Pivot" 400 150 ui_info);
     Ev (buttonWithPopup "Edit Pivot" cb_edit_pivot
           "Creates a temporary node to positon for the new pivot."
           "pivot" "defaultTwoStackedLayout");
     Ev (buttonWithPopup "Reset Pivot" cb_reset_pivot
           "Rest the rotation pivot to zero."
           "reset" "defaultTwoStackedLayout");
     Ev MlUi_exit] /\
  buttons (calls (run H ui s w)) =
    [("Edit Pivot", cb_edit_pivot); ("Reset Pivot", cb_reset_pivot)] /\
  script_jobs (calls (run H ui s w)) = [] /\
  (forall s' w' e, In e (calls (run H ui s' w')) -> mem_ui_call e = true) /\
  callback cb_edit_pivot = edit_pivot [] /\
  callback cb_reset_pivot = reset_pivot [] /\
  forall args : list Arg,
    edit_pivot args = edit_pivot [] /\ reset_pivot args = reset_pivot [].
Proof.
  intro Hret. rewrite (ui_calls s w Hret).
  split; [reflexivity | split; [reflexivity | split; [reflexivity |]]].
  split; [| repeat split].
  intros s' w'. apply Forall_forall, Always_run, ui_calls_no_other.
Qed.

(** [with cm: body]: the exit call follows the body on both paths. *)
Lemma run_with {A : Type} (enter exit : mc unit) (body : Prog A) (s : Ctx) (w : World H) :
  run H (with_ enter exit body) s w =
  match ask H enter w with
  | Raised e => mkOutcome (Raised e) s (after H enter w) [Ev enter]
  | Returned _ =>
      let ob := run H body s (after H enter w) in
      mkOutcome
        (match ask H exit (world_after ob) with
         | Raised e => Raised e
         | Returned _ => result ob
         end)
        (self_after ob) (after H exit (world_after ob))
        (Ev enter :: calls ob ++ [Ev exit])
  end.
Proof.
  unfold with_. rewrite run_call.
  destruct (ask H enter w) as [[] | e]; [| reflexivity].
  cbv zeta. rewrite run_bind, run_catch, run_bind.
  set (ob := run H body s (after H enter w)).
  destruct ob as [[a | e] s1 w1 tr] eqn:Eob; cbn [result self_after world_after calls prepend run];
    rewrite ?app_nil_r.
  - rewrite run_call. destruct (ask H exit w1) as [[] | e]; reflexivity.
  - rewrite run_call. destruct (ask H exit w1) as [[] | e']; reflexivity.
Qed.

(** The registrations of a session: the filter is installed, and the only
    script job is the one-shot job that runs [cleanup] on SelectionChanged. *)
Lemma editPivotHandle_registers (s : Ctx) (w : World H) :
  filter_installed_by (calls (run H editPivotHandle s w)) false = true /\
  (result (run H editPivotHandle s w) = Returned tt ->
   script_jobs (calls (run H editPivotHandle s w)) = [("SelectionChanged", cb_cleanup, true)]) /\
  (forall j, In j (script_jobs (calls (run H editPivotHandle s w))) ->
             j = ("SelectionChanged", cb_cleanup, true)).
Proof.
  unfold editPivotHandle.
  cbn [bind call run catch self set_self assign_pivotHandle assign_scriptJob item0 str_of].
  repeat match goal with
  | |- context [ask H ?c ?w'] =>
      destruct (ask H c w') eqn:?;
      cbn [bind call run catch self set_self assign_pivotHandle assign_scriptJob item0 str_of]
  | |- context [item0 ?l] =>
      destruct l;
      cbn [bind call run catch self set_self assign_pivotHandle assign_scriptJob item0 str_of]
  | |- context [str_of ?o] =>
      destruct o;
      cbn [bind call run catch self set_self assign_pivotHandle assign_scriptJob item0 str_of]
  end;
  simpl; (split; [reflexivity | split; [intros; congruence | intros j Hj; tauto || (destruct Hj as [<- | []]; reflexivity)]]).
Qed.

Lemma run_then_ret (p : Prog unit) (s : Ctx) (w : World H) :
  run H (p ;; Ret tt) s w = run H p s w.
Proof.
  rewrite run_bind.
  destruct (run H p s w) as [[[] | e] s1 w1 tr]; unfold prepend; simpl;
    now rewrite ?app_nil_r.
Qed.

Lemma is_key_true (k : Z) (ev : QEvent) :
  is_key k ev = true -> ev_type ev = QEvent_KeyPress /\ ev_key ev = k.
Proof.
  unfold is_key. rewrite andb_true_iff, !Z.eqb_eq. tauto.
Qed.

Lemma filter_on_return (ev : QEvent) (s : Ctx) (w : World H) :
  is_key Key_Return ev = true ->
  run H (keypressFilter ev) s w =
  run H (with_ (UndoChunk_enter true) UndoChunk_exit bakePivot ;; Ret false) s w.
Proof.
  intro Hk. apply is_key_true in Hk. destruct Hk as [Ht Hk].
  unfold keypressFilter, eventFilter. rewrite Ht, Hk.
  change (QEvent_KeyPress =? QEvent_KeyPress)%Z with true.
  change (Key_Return =? Key_Return)%Z with true.
  change (Key_Return =? Key_Escape)%Z with false.
  cbv iota. now rewrite !run_bind_assoc.
Qed.

Lemma filter_on_escape (ev : QEvent) (s : Ctx) (w : World H) :
  is_key Key_Escape ev = true ->
  run H (keypressFilter ev) s w =
  run H (cleanup ;; call removeEventFilter ;; Ret false) s w.
Proof.
  intro Hk. apply is_key_true in Hk. destruct Hk as [Ht Hk].
  unfold keypressFilter, eventFilter. rewrite Ht, Hk.
  change (QEvent_KeyPress =? QEvent_KeyPress)%Z with true.
  change (Key_Escape =? Key_Return)%Z with false.
  change (Key_Escape =? Key_Escape)%Z with true.
  cbv iota. cbn [bind]. now rewrite !run_bind_assoc.
Qed.

Lemma filter_on_other (ev : QEvent) (s : Ctx) (w : World H) :
  is_key Key_Return ev = false -> is_key Key_Escape ev = false ->
  run H (keypressFilter ev) s w = mkOutcome (Returned false) s w [].
Proof.
  unfold is_key, keypressFilter, eventFilter.
  destruct (ev_type ev =? QEvent_KeyPress)%Z; [| reflexivity].
  cbn [andb]. intros -> ->. reflexivity.
Qed.

Lemma bakePivot_opens_no_chunk :
  Always (fun e => is_undo_enter e || is_undo_exit e = false) bakePivot.
Proof.
  unfold bakePivot, cleanup, cleanup_handle, cleanup_job, cleanup_leftovers. always.
Qed.

(** C3. In an active session the installed filter reacts to two keys
    only: on Return it runs [bakePivot] inside one undo chunk, on Escape it
    runs [cleanup] and removes itself, and every other event makes it do
    nothing; besides, the session has one script job, a one-shot job on
    SelectionChanged that runs [cleanup]. *)
Theorem filter_commits_on_return_cancels_on_escape (s0 : Ctx) (w0 : World H) :
  result (run H editPivotHandle s0 w0) = Returned tt ->
  forall (ev : QEvent) (s : Ctx) (w : World H),
    reaction (calls (run H editPivotHandle s0 w0)) (QtInput ev) = (keypressFilter ev ;; Ret tt) /\
    (is_key Key_Return ev = true ->
       run H (keypressFilter ev) s w =
         run H (with_ (UndoChunk_enter true) UndoChunk_exit bakePivot ;; Ret false) s w /\
       (ask H (UndoChunk_enter true) w = Returned tt ->
        calls (run H (keypressFilter ev) s w) =
          Ev (UndoChunk_enter true)
            :: calls (run H bakePivot s (after H (UndoChunk_enter true) w))
            ++ [Ev UndoChunk_exit]) /\
       existsb (fun e => is_undo_enter e || is_undo_exit e)
         (calls (run H bakePivot s (after H (UndoChunk_enter true) w))) = false) /\
    (is_key Key_Escape ev = true ->
       run H (keypressFilter ev) s w =
         run H (cleanup ;; call removeEventFilter ;; Ret false) s w) /\
    (is_key Key_Return ev = false -> is_key Key_Escape ev = false ->
       run H (keypressFilter ev) s w = mkOutcome (Returned false) s w []) /\
    script_jobs (calls (run H editPivotHandle s0 w0)) = [("SelectionChanged", cb_cleanup, true)] /\
    run H (reaction (calls (run H editPivotHandle s0 w0)) (HostEvent "SelectionChanged")) s w
      = run H cleanup s w.
Proof.
  intros Hret ev s w.
  destruct (editPivotHandle_registers s0 w0) as (Hf & Hj & _).
  specialize (Hj Hret).
  split; [unfold reaction; now rewrite Hf |].
  split; [| split; [apply filter_on_escape | split; [apply filter_on_other | split; [exact Hj |]]]].
  - intro Hk. split; [now apply filter_on_return | split].
    + intro Henter. rewrite (filter_on_return ev s w Hk).
      rewrite run_bind, run_with, Henter. cbv zeta.
      destruct (ask H UndoChunk_exit _);
        destruct (result (run H bakePivot s (after H (UndoChunk_enter true) w)));
        cbn [result calls prepend run]; now rewrite ?app_nil_r.
    + apply Always_never, bakePivot_opens_no_chunk.
  - unfold reaction. rewrite Hj. cbn [filter fst snd String.eqb Ascii.eqb Bool.eqb for_each callback].
    apply run_then_ret.
Qed.

Lemma no_job_listens (name : string) (l : list (string * Callback * bool)) :
  (forall j, In j l -> j = ("SelectionChanged", cb_cleanup, true)) ->
  name <> "SelectionChanged" ->
  filter (fun j => fst (fst j) =? name) l = [].
Proof.
  intros Hl Hn. induction l as [| j l IH]; [reflexivity |].
  simpl. rewrite (Hl j (or_introl eq_refl)). cbn [fst].
  destruct (String.eqb_spec "SelectionChanged" name) as [E | _]; [congruence |].
  apply IH. intros j' Hj'. apply Hl. now right.
Qed.

(** Every Qt event other than the two keys, and every host event other than
    SelectionChanged, makes the script call nothing. *)
Lemma other_events_call_nothing (s0 : Ctx) (w0 : World H)
    (i : Input) (s : Ctx) (w : World H) :
  (forall b, i <> Click b) ->
  calls (run H (reaction (calls (run H editPivotHandle s0 w0)) i) s w) <> [] ->
  return_or_escape i = true \/ i = HostEvent "SelectionChanged".
Proof.
  destruct (editPivotHandle_registers s0 w0) as (Hf & _ & Hj).
  destruct i as [ev | name | b]; unfold reaction; intro Hi.
  - rewrite Hf. intro Hc. left. unfold return_or_escape.
    destruct (is_key Key_Return ev) eqn:Er; [reflexivity |].
    destruct (is_key Key_Escape ev) eqn:Ee; [reflexivity |].
    exfalso. apply Hc. rewrite run_bind, (filter_on_other ev s w Er Ee). reflexivity.
  - intro Hc. right.
    destruct (String.eqb_spec name "SelectionChanged") as [-> | Hn]; [reflexivity |].
    exfalso. apply Hc. now rewrite (no_job_listens name _ Hj Hn).
  - now contradiction (Hi b).
Qed.

(** The commands of the buttons unlock no node, kill no job and remove no
    filter. *)
Lemma edit_pivot_ends_no_session (args : list Arg) :
  Always (fun e => ends_session e = false) (edit_pivot args).
Proof. unfold edit_pivot, editPivot, editPivotDriver, editPivotHandle. always; exact I. Qed.

Lemma reset_pivot_ends_no_session (args : list Arg) :
  Always (fun e => ends_session e = false) (reset_pivot args).
Proof. unfold reset_pivot, reset_pivot_bake. always. Qed.

Lemma doEditPivotDriver_ends_no_session :
  Always (fun e => ends_session e = false) doEditPivotDriver.
Proof. unfold doEditPivotDriver. always. Qed.

Lemma click_ends_no_session (b : Button) (s : Ctx) (w : World H) :
  existsb ends_session (calls (run H (callback (button_command b)) s w)) = false.
Proof.
  apply Always_never. destruct b; cbn [button_command callback].
  - apply edit_pivot_ends_no_session.
  - apply reset_pivot_ends_no_session.
  - apply doEditPivotDriver_ends_no_session.
Qed.

(** C5, as amended.  An active session is cancelled or terminated by three
    inputs and no other: the Return key, the Escape key, and the
    SelectionChanged event of the host.  Of all that can reach the script
    while the session is active (the Qt events that the installed filter
    sees, the host events, and the clicks on the buttons of the tool), no
    other makes it unlock a node, kill a script job or remove the filter:
    the other keys and events make it call nothing, and the commands of the
    buttons make none of these calls. *)
Theorem session_reacts_to_three_inputs (s0 : Ctx) (w0 : World H)
    (i : Input) (s : Ctx) (w : World H) :
  existsb ends_session
    (calls (run H (reaction (calls (run H editPivotHandle s0 w0)) i) s w)) = true ->
  return_or_escape i = true \/ i = HostEvent "SelectionChanged".
Proof.
  intro He.
  destruct i as [ev | name | b].
  - apply (other_events_call_nothing s0 w0 (QtInput ev) s w); [discriminate |].
    intro Hc. rewrite Hc in He. discriminate.
  - apply (other_events_call_nothing s0 w0 (HostEvent name) s w); [discriminate |].
    intro Hc. rewrite Hc in He. discriminate.
  - cbn [reaction] in He. rewrite click_ends_no_session in He. discriminate.
Qed.

(** C6, as amended.  The first two steps of [cleanup] (unlock and delete
    the pivot handle; kill the script job) run inside catch-and-ignore
    blocks and never raise.  The last step, which deletes the left-over
    nodes that carry ml_pivot_handle, is not guarded: [cleanup] ends as that
    step ends, and raises exactly when it raises. *)
Theorem cleanup_ends_as_its_last_step (s : Ctx) (w : World H) :
  result (run H (try_pass cleanup_handle) s w) = Returned tt /\
  result (run H (try_pass cleanup_job)
            (self_after (run H (try_pass cleanup_handle) s w))
            (world_after (run H (try_pass cleanup_handle) s w))) = Returned tt /\
  (let o1 := run H (try_pass cleanup_handle) s w in
   let o2 := run H (try_pass cleanup_job) (self_after o1) (world_after o1) in
   let o3 := run H cleanup_leftovers (self_after o2) (world_after o2) in
   run H cleanup s w = prepend (calls o1 ++ calls o2) o3 /\
   result (run H cleanup s w) = result o3).
Proof.
  split; [apply try_pass_returns | split; [apply try_pass_returns |]].
  cbv zeta. unfold cleanup.
  rewrite (run_bind H (try_pass cleanup_handle)), try_pass_returns.
  set (o1 := run H (try_pass cleanup_handle) s w).
  rewrite (run_bind H (try_pass cleanup_job)), try_pass_returns.
  set (o2 := run H (try_pass cleanup_job) (self_after o1) (world_after o1)).
  rewrite prepend_prepend. split; reflexivity.
Qed.

End Session.

(** ** The scene host *)

Lemma Maya_queries_pure {Vals : Scalars} : queries_pure Maya.
Proof.
  intros T c sc Hq.
  destruct c; simpl in Hq; try discriminate; simpl; try reflexivity.
  - destruct (lookup node_ (nodes sc)); reflexivity.
  - destruct (lookup node_ (nodes sc)); reflexivity.
  - destruct obj; reflexivity.
  - destruct job; reflexivity.
  - match goal with |- context [lookup ?a ?b] => destruct (lookup a b) end; reflexivity.
Qed.

(** ** The statements at work on scenes *)

(** C2, as stated, fails on a pivot handle whose own rotatePivot is
    connected with no supported driver: Edit Pivot returns at once and
    displays no warning. *)
Lemma handle_with_connected_pivot_gets_no_warning :
  ask Maya ls_sl connected_handle_scene = Returned ["Adjust_Pivot"] /\
  observe Maya (is_pivot_connected "Adjust_Pivot") connected_handle_scene = Returned true /\
  observe Maya (pivot_driver_attr "Adjust_Pivot") connected_handle_scene = Returned None /\
  result (run Maya (command EditPivot) EditPivotContext connected_handle_scene) = Returned tt /\
  existsb is_warning
    (calls (run Maya (command EditPivot) EditPivotContext connected_handle_scene)) = false /\
  warnings (gui (world_after
    (run Maya (command EditPivot) EditPivotContext connected_handle_scene))) = [].
Proof. repeat split; vm_compute; reflexivity. Qed.

Lemma command_warns_and_returns_witness :
  ask Maya ls_sl connected_scene = Returned ["cube"] /\
  undriven Maya EditPivot "cube" connected_scene /\
  exists qs msg,
    calls (run Maya (command EditPivot) EditPivotContext connected_scene)
      = qs ++ [Ev (displayWarning msg)] /\
    forallb query_event qs = true /\
    result (run Maya (command EditPivot) EditPivotContext connected_scene)
      = ask Maya (displayWarning msg) connected_scene /\
    world_after (run Maya (command EditPivot) EditPivotContext connected_scene)
      = after Maya (displayWarning msg) connected_scene.
Proof.
  assert (U : undriven Maya EditPivot "cube" connected_scene).
  { split; [reflexivity | split; [reflexivity |]].
    exists None. split; reflexivity. }
  split; [reflexivity | split; [exact U |]].
  apply (command_warns_and_returns Maya Maya_queries_pure EditPivot EditPivotContext
           connected_scene ["cube"]).
  - reflexivity.
  - right; right. exists "cube". split; [reflexivity | exact U].
Defined.

(** The same on the two other guards. *)
Example nothing_selected_warns :
  warnings (gui (world_after (run Maya (command ResetPivot) EditPivotContext
                                empty_selection_scene))) = ["Nothing selected."] /\
  nodes (world_after (run Maya (command ResetPivot) EditPivotContext empty_selection_scene))
    = nodes empty_selection_scene.
Proof. split; reflexivity. Qed.

Lemma filter_commits_on_return_cancels_on_escape_witness :
  result (run Maya editPivotHandle cube_context cube_scene) = Returned tt /\
  run Maya (keypressFilter (key_press Key_Escape)) cube_context cube_scene =
    run Maya (cleanup ;; call removeEventFilter ;; Ret false) cube_context cube_scene.
Proof.
  split; [vm_compute; reflexivity |].
  apply (filter_commits_on_return_cancels_on_escape Maya cube_context cube_scene
           ltac:(vm_compute; reflexivity) (key_press Key_Escape) cube_context cube_scene).
  reflexivity.
Defined.

(** C5, as stated, fails: the SelectionChanged event of the host, which is
    neither key, ends the session too.  It runs [cleanup], which deletes the
    handle and kills the job. *)
Lemma selection_change_cancels_the_session :
  return_or_escape (HostEvent "SelectionChanged") = false /\
  result session_start = Returned tt /\
  fired "SelectionChanged" (world_after session_start) = [cb_cleanup] /\
  lookup "Adjust_Pivot" (nodes (world_after session_start)) <> None /\
  (let o := run Maya (reaction (calls session_start) (HostEvent "SelectionChanged"))
              (self_after session_start) (world_after session_start) in
   result o = Returned tt /\
   calls o <> [] /\
   existsb ends_session (calls o) = true /\
   lookup "Adjust_Pivot" (nodes (world_after o)) = None /\
   jobs (world_after o) = []).
Proof. repeat split; vm_compute; congruence. Qed.

Lemma session_reacts_to_three_inputs_witness :
  existsb ends_session
    (calls (run Maya
              (reaction (calls (run Maya editPivotHandle cube_context cube_scene))
                        (QtInput (key_press Key_Escape)))
              (self_after session_start) (world_after session_start))) = true /\
  (return_or_escape (QtInput (key_press Key_Escape)) = true \/
   QtInput (key_press Key_Escape) = HostEvent "SelectionChanged").
Proof.
  assert (C : existsb ends_session
    (calls (run Maya
              (reaction (calls (run Maya editPivotHandle cube_context cube_scene))
                        (QtInput (key_press Key_Escape)))
              (self_after session_start) (world_after session_start))) = true)
    by (vm_compute; reflexivity).
  split; [exact C |].
  exact (session_reacts_to_three_inputs Maya cube_context cube_scene
           (QtInput (key_press Key_Escape))
           (self_after session_start) (world_after session_start) C).
Defined.

(** On the cube, in its session: a click on Edit Pivot asks twice and a
    click on Reset Pivot asks six times, and neither changes the scene; the
    handle, the job and the filter are still there. *)
Example clicks_leave_the_session :
  let tr := calls session_start in
  let sc := world_after session_start in
  let o1 := run Maya (reaction tr (Click EditPivotButton)) (self_after session_start) sc in
  let o2 := run Maya (reaction tr (Click ResetPivotButton)) (self_after session_start) sc in
  selection sc = ["Adjust_Pivot"] /\
  result o1 = Returned tt /\ length (calls o1) = 2 /\ world_after o1 = sc /\
  result o2 = Returned tt /\ length (calls o2) = 6 /\ world_after o2 = sc /\
  forallb query_event (calls o1 ++ calls o2) = true.
Proof. cbv zeta. repeat split; vm_compute; reflexivity. Qed.

(** C6, as stated, fails: with two left-over handles, one below the other,
    deleting the first deletes the second, unlocking the second then fails,
    and [cleanup] raises. *)
Lemma cleanup_raises_on_nested_leftovers :
  do_ls_o "*.ml_pivot_handle" leftover_scene = ["Adjust_Pivot"; "Adjust_Pivot1"] /\
  result (run Maya cleanup EditPivotContext leftover_scene) = Raised RuntimeError.
Proof. split; vm_compute; reflexivity. Qed.

Lemma ui_has_two_commands_witness :
  result (run Maya ui EditPivotContext cube_scene) = Returned tt /\
  buttons (calls (run Maya ui EditPivotContext cube_scene)) =
    [("Edit Pivot", cb_edit_pivot); ("Reset Pivot", cb_reset_pivot)].
Proof.
  split; [reflexivity |].
  apply (ui_has_two_commands Maya EditPivotContext cube_scene). reflexivity.
Defined.

Lemma bakePivot_without_keys_sets_the_pivot_witness :
  ask Maya (keyframe_query_name "cube" ["tx"; "ty"; "tz"; "rx"; "ry"; "rz"]) still_moved
    = Returned [] /\
  existsb creates_or_bakes (calls (run Maya bakePivot (self_after still_start) still_moved))
    = false.
Proof.
  split; [reflexivity |].
  apply (bakePivot_without_keys_sets_the_pivot Maya Maya_queries_pure
           (self_after still_start) still_moved "Adjust_Pivot" "cube"
           (2, 3, 0)%Z (0, 0, 0)%Z [] []); reflexivity.
Defined.

(** On that scene the pivot is where the handle was and the handle is gone. *)
Example bakePivot_without_keys_on_the_still_cube :
  option_map x_rotatePivot
    (lookup "cube" (nodes (world_after (run Maya bakePivot (self_after still_start) still_moved))))
    = Some (2, 3, 0)%Z /\
  map fst (nodes (world_after (run Maya bakePivot (self_after still_start) still_moved)))
    = ["cube"].
Proof. split; reflexivity. Qed.

Lemma editPivot_on_handle_is_silent_witness :
  ask Maya ls_sl connected_handle_scene = Returned ["Adjust_Pivot"] /\
  run Maya editPivot EditPivotContext connected_handle_scene =
    mkOutcome (Returned tt) EditPivotContext connected_handle_scene
      [Ev ls_sl; Ev (attributeQuery_exists "ml_pivot_handle" "Adjust_Pivot")].
Proof.
  split; [reflexivity |].
  apply (editPivot_on_handle_is_silent Maya Maya_queries_pure EditPivotContext
           connected_handle_scene "Adjust_Pivot"); reflexivity.
Defined.

Lemma reset_pivot_at_reset_is_a_no_op_witness :
  at_reset Maya "cube" still_scene /\
  world_after (run Maya (reset_pivot [] ;; reset_pivot []) EditPivotContext still_scene)
    = world_after (run Maya (reset_pivot []) EditPivotContext still_scene).
Proof.
  assert (R : at_reset Maya "cube" still_scene).
  { left. split; [reflexivity |]. exists (0, 0, 0)%Z, []. split; reflexivity. }
  split; [exact R |].
  apply (reset_pivot_at_reset_is_a_no_op Maya Maya_queries_pure [] EditPivotContext
           still_scene "cube" eq_refl R).
Defined.

(** The driven case: the driver is at its default. *)
Example driven_pivot_at_reset :
  at_reset Maya "cube" driven_scene /\
  world_after (run Maya (reset_pivot []) EditPivotContext driven_scene) = driven_scene.
Proof.
  split; [| reflexivity].
  right. split; [reflexivity |].
  exists "ctrl.pivotBlend", "ctrl", "pivotBlend", 0%Z, 0%Z, [].
  repeat split; reflexivity.
Qed.

(** * The bake on a scene *)

Ltac by_components :=
  repeat match goal with
  | v : V3 |- _ => destruct v as [[? ?] ?]
  | m : M33 |- _ => destruct m as [[? ?] ?]
  | a : Affine |- _ => destruct a as [? ?]
  end;
  cbv [aapply acomp aid mmul mtrans mapply dot vadd vsub vzero mid mscale det adj fst snd];
  repeat match goal with |- (_, _) = (_, _) => apply f_equal2 end; ring.

Section SceneFacts.

Context {Vals : Scalars}.

Add Ring scalars : K_ring.

(** ** Names *)

Lemma rsplit_dot_app (n a : string) :
  rsplit_dot a = None -> rsplit_dot (n ++ String "."%char a) = Some (n, a).
Proof.
  intro Ha. induction n as [| c n IH]; simpl.
  - now rewrite Ha.
  - now rewrite IH.
Qed.

Lemma length_append (a b : string) :
  String.length (a ++ b) = (String.length a + String.length b)%nat.
Proof. induction a as [| c a IH]; simpl; [reflexivity | now rewrite IH]. Qed.

Lemma length_ones (k : nat) : String.length (ones k) = k.
Proof. induction k as [| k IH]; simpl; [reflexivity | now rewrite IH]. Qed.

Lemma mem_In (k : string) (l : list string) : mem k l = true <-> In k l.
Proof.
  unfold mem. rewrite existsb_exists. split.
  - intros (x & Hx & E). apply String.eqb_eq in E. now subst.
  - intros Hk. exists k. split; [exact Hk | apply String.eqb_refl].
Qed.

Lemma mem_false (k : string) (l : list string) : mem k l = false <-> ~ In k l.
Proof.
  rewrite <- mem_In. destruct (mem k l); split; intros; congruence.
Qed.

Lemma candidates_NoDup (base : string) (names : list string) :
  NoDup (candidates base names).
Proof.
  unfold candidates.
  apply NoDup_map_NoDup_ForallPairs; [| apply seq_NoDup].
  intros j k _ _ E.
  apply (f_equal String.length) in E.
  rewrite !length_append, !length_ones in E. lia.
Qed.

Lemma fresh_name_fresh (base : string) (names : list string) :
  ~ In (fresh_name base names) names.
Proof.
  unfold fresh_name.
  destruct (find (fun c => negb (mem c names)) (candidates base names)) as [c |] eqn:E.
  - apply find_some in E. destruct E as [_ E].
    apply mem_false. now destruct (mem c names).
  - exfalso.
    assert (Hincl : incl (candidates base names) names).
    { intros c Hc. apply (find_none _ _ E) in Hc.
      apply mem_In. now destruct (mem c names). }
    apply NoDup_incl_length in Hincl; [| apply candidates_NoDup].
    unfold candidates in Hincl. rewrite length_map, length_seq in Hincl. lia.
Qed.

(** ** Association lists *)

Lemma lookup_In {A : Type} (k : string) (l : list (string * A)) (v : A) :
  lookup k l = Some v -> In (k, v) l.
Proof.
  induction l as [| [k' v'] l IH]; simpl; [discriminate |].
  destruct (String.eqb_spec k' k) as [-> | _].
  - intros [= ->]. now left.
  - intro E. right. now apply IH.
Qed.

Lemma lookup_None {A : Type} (k : string) (l : list (string * A)) :
  ~ In k (map fst l) -> lookup k l = None.
Proof.
  induction l as [| [k' v'] l IH]; simpl; [reflexivity |].
  intro Hn. destruct (String.eqb_spec k' k) as [-> | _]; [tauto |].
  apply IH. tauto.
Qed.

Lemma lookup_update_same {A : Type} (k : string) (v v0 : A) (l : list (string * A)) :
  lookup k l = Some v0 -> lookup k (update k v l) = Some v.
Proof.
  induction l as [| [k' v'] l IH]; simpl; [discriminate |].
  destruct (String.eqb_spec k' k) as [-> | Hne]; simpl.
  - now rewrite String.eqb_refl.
  - destruct (String.eqb_spec k' k); [contradiction | exact IH].
Qed.

Lemma lookup_update_other {A : Type} (k k0 : string) (v : A) (l : list (string * A)) :
  k0 <> k -> lookup k0 (update k v l) = lookup k0 l.
Proof.
  intro Hne. induction l as [| [k' v'] l IH]; simpl; [reflexivity |].
  destruct (String.eqb_spec k' k) as [-> | Hk]; simpl.
  - destruct (String.eqb_spec k k0); [congruence | reflexivity].
  - now rewrite IH.
Qed.

Lemma update_keys {A : Type} (k : string) (v : A) (l : list (string * A)) :
  map fst (update k v l) = map fst l.
Proof.
  induction l as [| [k' v'] l IH]; simpl; [reflexivity |].
  destruct (k' =? k); simpl; [reflexivity | now rewrite IH].
Qed.

(** ** Vectors, matrices, affine maps *)

Lemma mapply_mmul (a b : M33) (v : V3) : mapply (mmul a b) v = mapply a (mapply b v).
Proof. by_components. Qed.

Lemma mapply_vadd (a : M33) (u v : V3) : mapply a (vadd u v) = vadd (mapply a u) (mapply a v).
Proof. by_components. Qed.

Lemma mapply_mid (v : V3) : mapply mid v = v.
Proof. by_components. Qed.

Lemma mmul_assoc (a b c : M33) : mmul (mmul a b) c = mmul a (mmul b c).
Proof. by_components. Qed.

Lemma mtrans_mmul (a b : M33) : mtrans (mmul a b) = mmul (mtrans b) (mtrans a).
Proof. by_components. Qed.

Lemma mmul_mid_l (a : M33) : mmul mid a = a.
Proof. by_components. Qed.

(** The adjugate gives the inverse of a matrix whose determinant has
    one. *)
Lemma adj_mmul (c : K) (m : M33) :
  mmul (mscale c (adj m)) m = mscale (kmul c (det m)) mid.
Proof. by_components. Qed.

Lemma mscale_one (m : M33) : mscale k1 m = m.
Proof. by_components. Qed.

Lemma minv_left (m : M33) : regular m -> mmul (minv m) m = mid.
Proof.
  unfold regular, unit_, minv. intro Hm.
  now rewrite adj_mmul, Hm, mscale_one.
Qed.

Lemma det_mid : det mid = k1.
Proof. cbv [det mid]. ring. Qed.

Lemma det_mmul (a b : M33) : det (mmul a b) = kmul (det a) (det b).
Proof.
  destruct a as [[[[? ?] ?] [[? ?] ?]] [[? ?] ?]],
           b as [[[[? ?] ?] [[? ?] ?]] [[? ?] ?]].
  cbv [det mmul mtrans mapply dot]. ring.
Qed.

Lemma regular_mid : regular mid.
Proof.
  unfold regular, unit_. rewrite det_mid.
  apply (kinv_unit k1 k1). ring.
Qed.

Lemma regular_mmul (a b : M33) : regular a -> regular b -> regular (mmul a b).
Proof.
  unfold regular, unit_. intros Ha Hb. rewrite det_mmul.
  apply (kinv_unit _ (kmul (kinv (det a)) (kinv (det b)))).
  set (da := det a) in *. set (db := det b) in *.
  transitivity (kmul (kmul (kinv da) da) (kmul (kinv db) db)); [ring |].
  rewrite Ha, Hb. ring.
Qed.

Lemma aapply_acomp (a b : Affine) (p : V3) : aapply (acomp a b) p = aapply a (aapply b p).
Proof. by_components. Qed.

Lemma aapply_aid (p : V3) : aapply aid p = p.
Proof. by_components. Qed.


Lemma vadd_zero_l (p : V3) : vadd vzero p = p.
Proof. by_components. Qed.

Lemma vsub_zero_r (p : V3) : vsub p vzero = p.
Proof. by_components. Qed.

Lemma ainv_cancel_aux (m : M33) (v q : V3) :
  aapply (ainv (m, v)) (vadd q v) = mapply (minv m) q.
Proof.
  unfold ainv. cbn [fst snd]. generalize (minv m). intro mi. by_components.
Qed.

Lemma aapply_ainv (a : Affine) (p : V3) :
  regular (fst a) -> aapply (ainv a) (aapply a p) = p.
Proof.
  destruct a as [m v]. simpl. intro Hm.
  unfold aapply at 2. simpl. rewrite ainv_cancel_aux.
  now rewrite <- mapply_mmul, (minv_left m Hm), mapply_mid.
Qed.

Lemma aapply_ainv_aid (p : V3) : aapply (ainv aid) p = p.
Proof.
  rewrite <- (aapply_aid p) at 1. apply aapply_ainv. apply regular_mid.
Qed.

(** Moving the pivot and compensating the translation leaves the map of
    the transform unchanged. *)
Lemma repivot (r : M33) (rp t np p : V3) :
  let old := (r, vsub (vadd rp t) (mapply r rp)) in
  let t' := vsub (aapply old np) np in
  aapply (r, vsub (vadd np t') (mapply r np)) p = aapply old p.
Proof. by_components. Qed.

(** ** Scenes *)

Lemma chain_world_ext (ns ns' : list (string * Xform)) (path : list string) (f : Z) :
  (forall a, In a path -> lookup a ns' = lookup a ns) ->
  chain_world ns' path f = chain_world ns path f.
Proof.
  induction path as [| a path IH]; intro Hl; simpl; [reflexivity |].
  rewrite IH by (intros; apply Hl; now right).
  unfold local_of. now rewrite Hl by now left.
Qed.

Lemma chain_world_regular (ns : list (string * Xform)) (path : list string) (f : Z) :
  (forall a x, In a path -> lookup a ns = Some x -> regular (x_rotate x f)) ->
  regular (fst (chain_world ns path f)).
Proof.
  induction path as [| a path IH]; intro Ho; simpl.
  - apply regular_mid.
  - apply regular_mmul.
    + apply IH. intros b x Hb. apply Ho. now right.
    + unfold local_of. destruct (lookup a ns) as [x |] eqn:E.
      * simpl. apply (Ho a x); [now left | exact E].
      * apply regular_mid.
Qed.

Lemma without_fresh (k : string) (l : list (string * Xform)) :
  ~ In k (all_names l) -> without k l = l.
Proof.
  induction l as [| [m x] l IH]; simpl; [reflexivity |].
  intro Hn. rewrite in_app_iff in Hn.
  assert (Hm : (m =? k) = false) by (apply String.eqb_neq; tauto).
  assert (Hp : mem k (x_path x) = false) by (apply mem_false; tauto).
  rewrite Hm, Hp. simpl. f_equal. apply IH. tauto.
Qed.

Lemma without_head (k : string) (x : Xform) (l : list (string * Xform)) :
  without k ((k, x) :: l) = without k l.
Proof. simpl. now rewrite String.eqb_refl. Qed.

Lemma lookup_without (k h : string) (l : list (string * Xform)) :
  k <> h ->
  (forall x, lookup k l = Some x -> ~ In h (x_path x)) ->
  lookup k (without h l) = lookup k l.
Proof.
  intros Hk. induction l as [| [m x] l IH]; simpl; intro Hx; [reflexivity |].
  destruct (String.eqb_spec m k) as [-> | Hm].
  - assert (Hp : mem h (x_path x) = false) by (apply mem_false; now apply Hx).
    destruct (String.eqb_spec k h); [contradiction |].
    rewrite Hp. simpl. now rewrite String.eqb_refl.
  - destruct (negb (m =? h) && negb (mem h (x_path x))); simpl.
    + destruct (String.eqb_spec m k); [contradiction | now apply IH].
    + now apply IH.
Qed.

Lemma lookup_without_self (h : string) (l : list (string * Xform)) :
  lookup h (without h l) = None.
Proof.
  induction l as [| [m x] l IH]; simpl; [reflexivity |].
  destruct (String.eqb_spec m h) as [-> | Hm]; simpl; [exact IH |].
  destruct (mem h (x_path x)); simpl; [exact IH |].
  destruct (String.eqb_spec m h); [contradiction | exact IH].
Qed.

Lemma all_names_update (k : string) (v v0 : Xform) (l : list (string * Xform)) :
  lookup k l = Some v0 -> x_path v = x_path v0 ->
  all_names (update k v l) = all_names l.
Proof.
  intros Hl Hp. induction l as [| [m x] l IH]; simpl in *; [reflexivity |].
  destruct (String.eqb_spec m k) as [-> | Hm]; simpl.
  - injection Hl as ->. now rewrite Hp.
  - now rewrite IH.
Qed.

Lemma In_update (k : string) (v : Xform) (l : list (string * Xform)) (m : string) (x : Xform) :
  In (m, x) (update k v l) -> In (m, x) l \/ (m = k /\ x = v).
Proof.
  induction l as [| [m' x'] l IH]; simpl; [tauto |].
  destruct (String.eqb_spec m' k) as [-> | Hm]; simpl.
  - intros [[= <- <-] | Hin]; auto.
  - intros [E | Hin]; auto. destruct (IH Hin); auto.
Qed.

Lemma In_without (h : string) (l : list (string * Xform)) (m : string) (x : Xform) :
  In (m, x) (without h l) -> In (m, x) l /\ m <> h.
Proof.
  unfold without. rewrite filter_In. simpl. intros [Hin Hb].
  split; [exact Hin |].
  apply andb_true_iff in Hb. destruct Hb as [Hb _].
  intros ->. now rewrite String.eqb_refl in Hb.
Qed.

Lemma no_handle_left (l : list (string * Xform)) (attr : string) :
  (forall m x, In (m, x) l -> mem attr (x_attrs x) = false) ->
  filter (fun nx => mem attr (x_attrs (snd nx))) l = [].
Proof.
  intro Hl. induction l as [| [m x] l IH]; simpl; [reflexivity |].
  rewrite (Hl m x) by now left. apply IH. intros m' x' Hin. apply (Hl m' x'). now right.
Qed.

Lemma run_Maya_call {T A : Type} (c : mc T) (f : T -> Prog A) (s : Ctx) (sc sc' : Scene) (v : T) :
  scene_exec T c sc = (Returned v, sc') ->
  run Maya (bind (call c) f) s sc = logged (Ev c) (run Maya (f v) s sc').
Proof.
  intro E. rewrite run_call. unfold ask, after. simpl. now rewrite E.
Qed.

Lemma cleanup_on_scene (s : Ctx) (sc : Scene) (h : string) (hx : Xform) :
  pivotHandle s = Some h ->
  lookup h (nodes sc) = Some hx ->
  (forall m x, In (m, x) (nodes sc) -> mem "ml_pivot_handle" (x_attrs x) = true -> m = h) ->
  result (run Maya cleanup s sc) = Returned tt /\
  nodes (world_after (run Maya cleanup s sc))
    = without h (update h (set_locked hx false) (nodes sc)) /\
  self_after (run Maya cleanup s sc) = s.
Proof.
  intros Hs Hh Honly.
  unfold cleanup.
  rewrite (run_bind Maya (try_pass cleanup_handle)), try_pass_returns.
  destruct (try_pass_calls Maya cleanup_handle s sc) as (_ & -> & ->).
  assert (E1 : run Maya cleanup_handle s sc =
               mkOutcome (Returned tt) s
                 (with_selection
                    (with_nodes (with_nodes sc (update h (set_locked hx false) (nodes sc)))
                       (without h (update h (set_locked hx false) (nodes sc))))
                    (filter (fun x => negb (x =? h)) (selection sc)))
                 [Ev (lockNode (Some h) false); Ev (delete [Some h])]).
  { unfold cleanup_handle. cbn [self bind run]. rewrite Hs.
    rewrite (run_Maya_call (lockNode (Some h) false) _ s sc
               (with_nodes sc (update h (set_locked hx false) (nodes sc))) tt).
    2:{ simpl. unfold do_lockNode. now rewrite Hh. }
    rewrite run_call_last. unfold ask, after. simpl.
    rewrite (lookup_update_same h _ hx) by exact Hh. simpl. reflexivity. }
  rewrite E1. cbn [self_after world_after calls result prepend].
  set (sc1 := with_selection _ _).
  rewrite (run_bind Maya (try_pass cleanup_job)), try_pass_returns.
  destruct (try_pass_calls Maya cleanup_job s sc1) as (_ & -> & ->).
  assert (E2 : nodes (world_after (run Maya cleanup_job s sc1)) = nodes sc1 /\
               self_after (run Maya cleanup_job s sc1) = s).
  { unfold cleanup_job. cbn [self bind run call]. unfold ask, after.
    cbn [exec Maya scene_exec fst snd].
    destruct (scriptJob s) as [j |];
      cbn [bind run fails ok fst snd logged world_after self_after]; [| auto].
    match goal with |- context [existsb ?f ?l] => destruct (existsb f l) end;
      cbn [bind run call logged world_after self_after]; unfold ask, after;
      cbn [exec Maya scene_exec fst snd ok run logged world_after self_after]; auto. }
  destruct E2 as [E2 E3]. rewrite E3.
  set (sc2 := world_after (run Maya cleanup_job s sc1)) in *.
  assert (L : do_ls_o "*.ml_pivot_handle" sc2 = []).
  { unfold do_ls_o. simpl rsplit_dot. cbn [String.eqb Ascii.eqb Bool.eqb].
    rewrite E2. subst sc1. cbn [nodes with_selection with_nodes].
    rewrite no_handle_left; [reflexivity |].
    intros m x Hin. apply In_without in Hin. destruct Hin as [Hin Hm].
    apply In_update in Hin. destruct Hin as [Hin | [-> _]]; [| contradiction].
    destruct (mem "ml_pivot_handle" (x_attrs x)) eqn:E; [| reflexivity].
    exfalso. apply Hm. now apply (Honly m x). }
  unfold cleanup_leftovers.
  rewrite (run_Maya_call (ls_o "*.ml_pivot_handle") _ s sc2 sc2 []).
  2:{ simpl. unfold ok. now rewrite L. }
  cbn [run logged result world_after self_after prepend].
  rewrite E2. subst sc1. auto.
Qed.

Lemma in_all_names (k : string) (x : Xform) (l : list (string * Xform)) :
  lookup k l = Some x -> In k (all_names l) /\ incl (x_path x) (all_names l).
Proof.
  induction l as [| [m y] l IH]; simpl; [discriminate |].
  destruct (String.eqb_spec m k) as [-> | Hm].
  - intros [= ->]. split; [now left |].
    intros a Ha. right. apply in_or_app. now left.
  - intro E. destruct (IH E) as [H1 H2]. split.
    + right. apply in_or_app. now right.
    + intros a Ha. right. apply in_or_app. right. now apply H2.
Qed.

Lemma lookup_cons_eq {A : Type} (k : string) (v : A) (l : list (string * A)) :
  lookup k ((k, v) :: l) = Some v.
Proof. simpl. now rewrite String.eqb_refl. Qed.

Lemma lookup_cons_ne {A : Type} (k k' : string) (v : A) (l : list (string * A)) :
  k' <> k -> lookup k ((k', v) :: l) = lookup k l.
Proof. intro Hne. simpl. now destruct (String.eqb_spec k' k). Qed.

Lemma update_cons_eq {A : Type} (k : string) (v v' : A) (l : list (string * A)) :
  update k v ((k, v') :: l) = (k, v) :: l.
Proof. simpl. now rewrite String.eqb_refl. Qed.

Lemma update_cons_ne {A : Type} (k k' : string) (v v' : A) (l : list (string * A)) :
  k' <> k -> update k v ((k', v') :: l) = (k', v') :: update k v l.
Proof. intro Hne. simpl. now destruct (String.eqb_spec k' k). Qed.

Lemma run_Maya_step {T A : Type} (c : mc T) (f : T -> Prog A) (s : Ctx) (sc sc' : Scene) (v : T)
    (tr : list Event) :
  scene_exec T c sc = (Returned v, sc') ->
  prepend tr (run Maya (bind (call c) f) s sc) = prepend (tr ++ [Ev c]) (run Maya (f v) s sc').
Proof.
  intro E. rewrite (run_Maya_call c f s sc sc' v E).
  unfold prepend, logged; simpl. now rewrite <- app_assoc.
Qed.

Lemma do_setAttr_rotatePivot (n : string) (x : Xform) (v : V3) (sc : Scene) :
  lookup n (nodes sc) = Some x ->
  do_setAttr (n ++ ".rotatePivot") (vec_args v) sc =
  (Returned tt, with_nodes sc (update n (set_rotatePivot x v) (nodes sc))).
Proof.
  intro Hx. destruct v as [[v1 v2] v3]. unfold do_setAttr. cbn [vec_args].
  rewrite rsplit_dot_app by reflexivity. rewrite Hx.
  destruct (lookup (n ++ ".rotatePivot") (scalars sc)); reflexivity.
Qed.

Section Bake.

Variables (sc : Scene) (s : Ctx) (n h : string) (nd hd : Xform).
Hypothesis Hn : node s = Some n.
Hypothesis Hh : pivotHandle s = Some h.
Hypothesis Hses : in_session sc n h nd hd.
Hypothesis Hkeyed : keyed nd.
Hypothesis Hmoved : vec_eqb (x_translate hd (now sc)) (x_rotatePivot nd) = false.

Let newPivot : V3 := x_translate hd (now sc).

Lemma handle_is_not_node : h <> n.
Proof.
  destruct Hses as [Hnd Hhd Hbelow _ _ _ _ _].
  intro E. rewrite E, Hnd in Hhd. injection Hhd as E'.
  rewrite <- E' in Hbelow.
  apply (f_equal (@length string)) in Hbelow. simpl in Hbelow. lia.
Qed.

(** The host can invert the frame of the node's parent at every frame,
    and the frame of the node. *)
Lemma parent_frame_regular (f : Z) : regular (fst (chain_world (nodes sc) (x_path nd) f)).
Proof.
  destruct Hses as [_ _ _ _ _ _ _ Hregular].
  apply chain_world_regular. intros a x Ha. apply Hregular. now right.
Qed.

Lemma node_frame_regular (f : Z) : regular (fst (world (nodes sc) nd f)).
Proof.
  destruct Hses as [Hnd _ _ _ _ _ _ Hregular].
  unfold world. simpl. apply regular_mmul.
  - apply parent_frame_regular.
  - apply (Hregular n nd f); [now left | exact Hnd].
Qed.

Lemma bake_sequence :
  exists (temp c : string) (tr : list Event) (scB : Scene) (nd2 : Xform),
    run Maya bakePivot s sc =
      prepend tr (run Maya (cleanup ;; try_pass (call removeEventFilter)) s scB) /\
    tr = [Ev (objExists (Some h)); Ev (objExists (Some n));
          Ev (getAttr3 (h ++ ".translate")); Ev (getAttr3 (n ++ ".rotatePivot"));
          Ev (keyframe_query_name n ["tx"; "ty"; "tz"; "rx"; "ry"; "rz"]);
          Ev (group_em None); Ev (parentConstraint h temp); Ev (delete [Some c]);
          Ev (matchBake [n] [temp] true true false (Some false));
          Ev (setAttr (n ++ ".rotatePivot") (vec_args newPivot) None None);
          Ev (matchBake [temp] [n] true false false (Some false));
          Ev (delete [Some temp]); Ev (select n)] /\
    nodes scB = update n nd2 (update n (set_rotatePivot nd newPivot) (nodes sc)) /\
    x_rotatePivot nd2 = newPivot /\
    x_rotate nd2 = x_rotate nd /\
    x_path nd2 = x_path nd /\
    x_attrs nd2 = x_attrs nd /\
    forall f, x_translate nd2 f = vsub (aapply (local nd f) newPivot) newPivot.
Proof.
  pose proof handle_is_not_node as Hhn.
  destruct Hses as [Hnd Hhd Hbelow Hhp Hacyc Habove Honly Hregular].
  set (ns0 := nodes sc) in *.
  eexists. eexists. eexists. eexists. eexists. split.
  rewrite <- (prepend_nil Maya (run Maya bakePivot s sc)).
  unfold bakePivot. cbn [self bind run]. rewrite Hn, Hh.
  erewrite run_Maya_step; [| cbn [scene_exec]; fold ns0; rewrite Hhd; reflexivity].
  cbn [negb]. rewrite run_bind_assoc.
  erewrite run_Maya_step; [| cbn [scene_exec]; fold ns0; rewrite Hnd; reflexivity].
  cbn [negb bind str_of].
  rewrite run_bind_assoc.
  erewrite run_Maya_step;
    [| cbn [scene_exec]; unfold do_getAttr3;
       rewrite rsplit_dot_app by reflexivity; fold ns0; rewrite Hhd; reflexivity].
  cbn [item0 bind].
  rewrite run_bind_assoc.
  erewrite run_Maya_step;
    [| cbn [scene_exec]; unfold do_getAttr3;
       rewrite rsplit_dot_app by reflexivity; fold ns0; rewrite Hnd; reflexivity].
  cbn [item0 bind].
  fold newPivot. unfold newPivot at 1. rewrite Hmoved.
  erewrite run_Maya_step;
    [| cbn [scene_exec]; unfold do_keyframe; fold ns0; rewrite Hnd; reflexivity].
  unfold keyed in Hkeyed.
  destruct (map snd (filter _ (x_curves nd))) as [| curve curves] eqn:Ecurves.
  { exfalso. apply Hkeyed. now apply map_eq_nil in Ecurves. }
  (* tempPosition = mc.group(em=True) *)
  set (temp := fresh_name "null1" (all_names ns0)).
  assert (Htemp : ~ In temp (all_names ns0)) by apply fresh_name_fresh.
  destruct (in_all_names n nd ns0 Hnd) as [Hn_in Hpath_in].
  destruct (in_all_names h hd ns0 Hhd) as [Hh_in _].
  assert (Htn : temp <> n) by (intros E; apply Htemp; now rewrite E).
  assert (Hth : temp <> h) by (intros E; apply Htemp; now rewrite E).
  erewrite run_Maya_step; [| cbn [scene_exec]; unfold do_group, ok; reflexivity].
  fold ns0. fold temp.
  set (sc1 := with_selection (with_nodes sc ((temp, new_transform) :: ns0)) [temp]).
  (* mc.delete(mc.parentConstraint(self.pivotHandle, tempPosition)) *)
  erewrite run_Maya_step;
    [| cbn [scene_exec]; unfold do_parentConstraint, ok;
       cbn [sc1 nodes with_selection with_nodes];
       rewrite (lookup_cons_ne h temp) by exact Hth;
       rewrite lookup_cons_eq; fold ns0; rewrite Hhd;
       rewrite update_cons_eq; reflexivity].
  set (c := fresh_name (temp ++ "_parentConstraint1") (all_names ((temp, new_transform) :: ns0))).
  assert (Hc : ~ In c (all_names ((temp, new_transform) :: ns0))) by apply fresh_name_fresh.
  match goal with |- context [(temp, ?x) :: ns0] =>
    match x with set_rotate _ _ => set (T1 := x) end end.
  match goal with |- context [(c, ?x) :: (temp, T1) :: ns0] => set (cx := x) end.
  cbn [map].
  erewrite run_Maya_step;
    [| cbn [scene_exec do_delete nodes with_nodes]; rewrite lookup_cons_eq;
       cbn [cx set_path x_locked]; rewrite without_head;
       rewrite (without_fresh c ((temp, T1) :: ns0)) by exact Hc; reflexivity].
  match goal with |- context [run Maya _ s ?w] => set (sc3 := w) end.
  (* utl.matchBake(source=[self.node], destination=[tempPosition], ...) *)
  erewrite run_Maya_step;
    [| cbn [scene_exec do_matchBake sc3 nodes with_selection with_nodes];
       rewrite (lookup_cons_ne n temp) by exact Htn; rewrite Hnd;
       rewrite lookup_cons_eq, update_cons_eq; reflexivity].
  set (ns3 := (temp, T1) :: ns0).
  set (T2 := bake_pair ns3 _ true false temp nd T1).
  (* mc.setAttr(self.node+'.rotatePivot', *newPivot) *)
  erewrite run_Maya_step;
    [| cbn [scene_exec]; apply do_setAttr_rotatePivot;
       cbn [nodes with_nodes]; rewrite (lookup_cons_ne n temp) by exact Htn; exact Hnd].
  cbn [nodes with_nodes]. rewrite (update_cons_ne n temp) by exact Htn.
  set (nd1 := set_rotatePivot nd newPivot).
  (* utl.matchBake(source=[tempPosition], destination=[self.node], ...) *)
  erewrite run_Maya_step;
    [| cbn [scene_exec do_matchBake nodes with_nodes];
       rewrite lookup_cons_eq; rewrite (lookup_cons_ne n temp) by exact Htn;
       rewrite (lookup_update_same n nd1 nd) by exact Hnd;
       rewrite (update_cons_ne n temp) by exact Htn; reflexivity].
  set (ns4 := (temp, T2) :: update n nd1 ns0).
  set (nd2 := bake_pair ns4 _ false false n T2 nd1).
  assert (Hfresh : ~ In temp (all_names (update n nd2 (update n nd1 ns0)))).
  { rewrite (all_names_update n nd2 nd1);
      [| now apply (lookup_update_same n nd1 nd) | reflexivity].
    now rewrite (all_names_update n nd1 nd). }
  (* mc.delete(tempPosition) *)
  erewrite run_Maya_step;
    [| cbn [scene_exec do_delete nodes with_nodes]; rewrite lookup_cons_eq;
       cbn [T2 bake_pair set_curves set_translate set_rotate T1 new_transform x_locked];
       rewrite without_head, (without_fresh temp _ Hfresh); reflexivity].
  (* mc.select(self.node) *)
  erewrite run_Maya_step;
    [| cbn [scene_exec nodes with_nodes with_selection];
       rewrite (lookup_update_same n nd2 nd1)
         by (now apply (lookup_update_same n nd1 nd)); reflexivity].
  reflexivity.
  split; [reflexivity |].
  (* the node after the bake *)
  cbn [nodes with_nodes with_selection].
  split; [reflexivity |].
  split; [reflexivity |].
  split; [reflexivity |].
  split; [reflexivity |].
  split; [reflexivity |].
  intro f.
  set (temp := fresh_name "null1" (all_names ns0)).
  assert (Htemp : ~ In temp (all_names ns0)) by apply fresh_name_fresh.
  destruct (in_all_names n nd ns0 Hnd) as [Hn_in Hpath_in].
  assert (Htn : temp <> n) by (intros E; apply Htemp; now rewrite E).
  assert (F1 : forall X g, chain_world ((temp, X) :: ns0) (x_path nd) g
                           = chain_world ns0 (x_path nd) g).
  { intros X g. apply chain_world_ext. intros a Ha. apply lookup_cons_ne.
    intros E. apply Htemp. rewrite E. now apply Hpath_in. }
  assert (F2 : forall X Y g, chain_world ((temp, X) :: update n Y ns0) (x_path nd) g
                             = chain_world ns0 (x_path nd) g).
  { intros X Y g. apply chain_world_ext. intros a Ha.
    rewrite lookup_cons_ne by (intros E; apply Htemp; rewrite E; now apply Hpath_in).
    apply lookup_update_other. intros ->. contradiction. }
  repeat (progress (unfold pivot_world, world;
    cbn [x_translate x_rotatePivot x_path x_rotate bake_pair set_curves set_translate
         set_rotate set_rotatePivot new_transform now with_selection with_nodes
         chain_world])).
  rewrite Hbelow, Hhp. cbn [chain_world].
  rewrite !F1, !F2.
  unfold local_of. rewrite (lookup_cons_ne n temp) by exact Htn. rewrite Hnd.
  rewrite ?aapply_ainv_aid, ?aapply_aid, ?vadd_zero_l, ?vsub_zero_r.
  fold newPivot.
  rewrite (aapply_ainv (acomp (chain_world ns0 (x_path nd) (now sc)) (local nd (now sc))))
    by apply node_frame_regular.
  rewrite aapply_acomp.
  rewrite aapply_ainv by apply parent_frame_regular.
  reflexivity.
Qed.

(** The bake in a session on a node with keys, once the handle has been
    moved: [bakePivot] returns, the handle is gone, the node has the new
    rotatePivot and its old matrix, and at every frame every point of the
    node is where it was in the world before.  The helper is baked from the
    node before the pivot is set, and the node is baked from the helper
    after. *)
Lemma bake_in_session :
  result (run Maya bakePivot s sc) = Returned tt /\
  lookup h (nodes (world_after (run Maya bakePivot s sc))) = None /\
  exists nd',
    lookup n (nodes (world_after (run Maya bakePivot s sc))) = Some nd' /\
    x_rotatePivot nd' = x_translate hd (now sc) /\
    x_rotate nd' = x_rotate nd /\
    (forall (f : Z) (p : V3),
       world_position (world_after (run Maya bakePivot s sc)) n f p
         = world_position sc n f p) /\
    exists tempPosition,
      filter bakes_or_sets (calls (run Maya bakePivot s sc)) =
        [Ev (matchBake [n] [tempPosition] true true false (Some false));
         Ev (setAttr (n ++ ".rotatePivot") (vec_args (x_translate hd (now sc))) None None);
         Ev (matchBake [tempPosition] [n] true false false (Some false))].
Proof.
  pose proof handle_is_not_node as Hhn.
  destruct bake_sequence
    as (temp & c & tr & scB & nd2 & E & Etr & Hnodes & Hrp & Hrot & Hpath & Hattrs & Htr).
  destruct Hses as [Hnd Hhd Hbelow Hhp Hacyc Habove Honly Hregular].
  set (ns0 := nodes sc) in *.
  assert (Hh_path : ~ In h (x_path nd)) by (apply (Habove n nd); [now left | exact Hnd]).
  assert (HnB : lookup n (nodes scB) = Some nd2).
  { rewrite Hnodes. apply (lookup_update_same n nd2 (set_rotatePivot nd newPivot)).
    now apply (lookup_update_same n _ nd). }
  assert (HoB : forall a, a <> n -> lookup a (nodes scB) = lookup a ns0).
  { intros a Ha. rewrite Hnodes. now rewrite !lookup_update_other. }
  assert (HhB : lookup h (nodes scB) = Some hd) by (now rewrite HoB).
  assert (HonlyB : forall m x, In (m, x) (nodes scB) ->
                               mem "ml_pivot_handle" (x_attrs x) = true -> m = h).
  { intros m x Hin Hattr. rewrite Hnodes in Hin.
    apply In_update in Hin. destruct Hin as [Hin | [-> ->]].
    - apply In_update in Hin. destruct Hin as [Hin | [-> ->]].
      + now apply (Honly m x).
      + apply (Honly n nd); [now apply lookup_In | exact Hattr].
    - apply (Honly n nd); [now apply lookup_In | now rewrite <- Hattrs]. }
  destruct (cleanup_on_scene s scB h hd Hh HhB HonlyB) as (Rc & Nc & Sc).
  assert (F : result (run Maya bakePivot s sc) = Returned tt /\
              nodes (world_after (run Maya bakePivot s sc))
                = without h (update h (set_locked hd false) (nodes scB))).
  { rewrite E. cbn [result world_after prepend].
    rewrite (run_bind Maya cleanup), Rc. cbn [result world_after prepend].
    split; [apply try_pass_returns |].
    destruct (try_pass_calls Maya (call removeEventFilter)
                (self_after (run Maya cleanup s scB))
                (world_after (run Maya cleanup s scB))) as (_ & _ & ->).
    rewrite run_call_last. cbn [world_after]. unfold after.
    cbn [exec Maya scene_exec ok snd nodes with_gui]. exact Nc. }
  destruct F as [Fr Fn].
  assert (Hfinal : forall a, a <> h ->
            (forall x, lookup a (nodes scB) = Some x -> ~ In h (x_path x)) ->
            lookup a (nodes (world_after (run Maya bakePivot s sc))) = lookup a (nodes scB)).
  { intros a Ha Hx. rewrite Fn.
    rewrite lookup_without; [now apply lookup_update_other | exact Ha |].
    intros x. rewrite lookup_update_other by (intros ->; now apply Ha). apply Hx. }
  assert (Hn_final : lookup n (nodes (world_after (run Maya bakePivot s sc))) = Some nd2).
  { rewrite Hfinal; [exact HnB | now apply not_eq_sym |].
    intros x. rewrite HnB. intros [= <-]. now rewrite Hpath. }
  split; [exact Fr |].
  split; [rewrite Fn; apply lookup_without_self |].
  exists nd2. split; [exact Hn_final |]. split; [exact Hrp |]. split; [exact Hrot |].
  split.
  2:{ exists temp. rewrite E. cbn [calls prepend]. rewrite filter_app.
      rewrite Always_filter
        by (unfold cleanup, cleanup_handle, cleanup_job, cleanup_leftovers; always).
      rewrite Etr. reflexivity. }
  intros f p. unfold world_position. rewrite Hn_final. fold ns0. rewrite Hnd.
  f_equal. unfold world. rewrite !aapply_acomp, Hpath. f_equal.
  - apply chain_world_ext. intros a Ha.
    assert (Han : a <> n) by (intros ->; contradiction).
    assert (Hah : a <> h) by (intros ->; contradiction).
    rewrite Hfinal, HoB; [reflexivity | exact Han | exact Hah |].
    intros x. rewrite HoB by exact Han. apply Habove. now right.
  - unfold local. rewrite Hrot, Hrp, Htr. unfold local. apply repivot.
Qed.

End Bake.

End SceneFacts.

(** ** The bake on the animated cube *)

Lemma session_moved_nodes :
  nodes session_moved = [("Adjust_Pivot", moved_handle); ("cube", cube)].
Proof. reflexivity. Qed.

Lemma session_moved_is_a_session :
  in_session session_moved "cube" "Adjust_Pivot" cube moved_handle.
Proof.
  constructor; rewrite ?session_moved_nodes.
  - reflexivity.
  - reflexivity.
  - reflexivity.
  - reflexivity.
  - simpl. tauto.
  - intros a ax [<- | []] [= <-]. simpl. tauto.
  - intros m x [[= <- <-] | [[= <- <-] | []]] Hattr; [reflexivity | discriminate].
  - intros a ax f [<- | []] [= <-]. simpl.
    destruct (Z.even f); reflexivity.
Qed.

(** On the cube, with the handle moved to (2, 3, 0), after [bakePivot]:
    the pivot is at the handle, the handle and the helper
    are gone, the translation has been baked, and the cube is where it was
    at each of these frames. *)
Example bakePivot_on_the_cube :
  let after := world_after (run Maya bakePivot (self_after session_start) session_moved) in
  map fst (nodes after) = ["cube"] /\
  option_map x_rotatePivot (lookup "cube" (nodes after)) = Some (2, 3, 0)%Z /\
  option_map (fun x => map (x_translate x) [0; 1; 2; 3]%Z) (lookup "cube" (nodes after))
    = Some [(0, 0, 0); (-4, -1, 0); (2, 0, 0); (-2, -1, 0)]%Z /\
  map (fun f => world_position after "cube" f (5, 7, 9)%Z) [0; 1; 2; 3]%Z
    = map (fun f => world_position session_moved "cube" f (5, 7, 9)%Z) [0; 1; 2; 3]%Z.
Proof. cbv zeta. repeat split; vm_compute; reflexivity. Qed.

(** * More of the script *)

(** ** The order of calls *)

Section OrderFacts.

Context {N : Number}.
Variable H : Host.

Lemma Before_run (a b : Event -> bool) {A : Type} (p : Prog A) (s : Ctx) (w : World H)
    (pre post : list Event) (e : Event) :
  Before a b p ->
  calls (run H p s w) = pre ++ e :: post -> a e = true -> existsb b pre = true.
Proof.
  revert s w pre.
  induction p as [x | x | T c k IH | k IH | s' k IH]; intros s w pre Hp E Ha; simpl in *.
  - destruct pre; discriminate.
  - destruct pre; discriminate.
  - destruct Hp as [Hc Hk].
    destruct pre as [| x pre]; simpl in E; injection E as <- E; [congruence |].
    simpl. destruct Hk as [Hb | Hk]; [now rewrite Hb |].
    rewrite (IH _ _ _ _ (Hk _) E Ha). apply orb_true_r.
  - exact (IH _ _ _ _ (Hp s) E Ha).
  - exact (IH _ _ _ Hp E Ha).
Qed.

Lemma Before_bind (a b : Event -> bool) {A B : Type} (p : Prog A) (f : A -> Prog B) :
  Before a b p -> (forall x, Before a b (f x)) -> Before a b (bind p f).
Proof.
  intros Hp Hf.
  induction p as [x | e | T c k IH | k IH | s' k IH]; simpl in *.
  - apply Hf.
  - exact I.
  - destruct Hp as [Ha [Hb | Hk]]; (split; [exact Ha |]); [now left |].
    right. intro r. apply IH, Hk.
  - intro s. apply IH, Hp.
  - apply IH, Hp.
Qed.

Lemma Always_Before (a b : Event -> bool) {A : Type} (p : Prog A) :
  Always (fun e => a e = false) p -> Before a b p.
Proof.
  induction p as [x | e | T c k IH | k IH | s' k IH]; simpl; intro Hp.
  - exact I.
  - exact I.
  - destruct Hp as [Ha Hk]. split; [exact Ha |]. right. intro r. apply IH, Hk.
  - intro s. apply IH, Hp.
  - apply IH, Hp.
Qed.

Lemma Before_call_first (a b : Event -> bool) {T A : Type} (c : mc T) (f : T -> Prog A) :
  a (Ev c) = false -> b (Ev c) = true -> Before a b (bind (call c) f).
Proof. intros Ha Hb. simpl. auto. Qed.

Lemma Before_call (a b : Event -> bool) {T A : Type} (c : mc T) (f : T -> Prog A) :
  a (Ev c) = false -> (forall x, Before a b (f x)) -> Before a b (bind (call c) f).
Proof.
  intros Ha Hf. simpl. split; [exact Ha |]. right.
  intros [v | e]; simpl; [apply Hf | exact I].
Qed.

End OrderFacts.

Ltac before_step :=
  match goal with
  | |- Before _ _ (Ret _) => exact I
  | |- Before _ _ (Raise _) => exact I
  | |- Before _ _ (bind (call _) _) =>
      (apply Before_call_first; reflexivity) || (apply Before_call; [reflexivity | intro])
  | |- Before _ _ (bind _ _) => apply Before_bind; [| intro]
  | |- Before _ _ (GetSelf _) => intro
  | |- Before _ _ (if ?b then _ else _) => destruct b
  | |- Before _ _ (match ?x with _ => _ end) => destruct x
  | |- Before _ _ (let '(_, _) := ?x in _) => destruct x
  | |- Before _ _ (call _) => apply Always_Before, Always_call; reflexivity
  | |- Before _ _ (try_pass _) => apply Always_Before; always
  | |- Before _ _ _ => progress (cbv delta [self item0 str_of attr_of] beta)
  end.

Section CallOrders.

Context {N : Number}.
Variable H : Host.

Lemma cleanup_keeps_filter : Always (fun e => removes_filter e = false) cleanup.
Proof. unfold cleanup, cleanup_handle, cleanup_job, cleanup_leftovers. always. Qed.

Lemma bakePivot_order : Before removes_filter is_matchBake bakePivot.
Proof.
  unfold bakePivot.
  repeat before_step; try (apply Always_Before, cleanup_keeps_filter).
Qed.

(** X1. In every execution of [bakePivot], on every host, a call that removes
    the keypress filter comes only after a [matchBake] call: on the paths
    that give up or that set the pivot of an unanimated node, the filter is
    left installed. *)
Theorem bakePivot_removes_filter_after_baking (s : Ctx) (w : World H)
    (pre post : list Event) (e : Event) :
  calls (run H bakePivot s w) = pre ++ e :: post -> removes_filter e = true ->
  existsb is_matchBake pre = true.
Proof. apply Before_run, bakePivot_order. Qed.

Lemma doEditPivotDriver_order : Before is_cutKey is_matchBake doEditPivotDriver.
Proof. unfold doEditPivotDriver. repeat before_step. Qed.

(** X2. In every execution of [doEditPivotDriver], on every host, the keys of
    the driver are cut only after a [matchBake] call has recorded the motion
    of the node. *)
Theorem doEditPivotDriver_cuts_keys_after_baking (s : Ctx) (w : World H)
    (pre post : list Event) (e : Event) :
  calls (run H doEditPivotDriver s w) = pre ++ e :: post -> is_cutKey e = true ->
  existsb is_matchBake pre = true.
Proof. apply Before_run, doEditPivotDriver_order. Qed.

End CallOrders.

Lemma bakePivot_removes_filter_after_baking_witness :
  existsb is_matchBake
    (removelast (calls (run Maya bakePivot (self_after session_start) session_moved))) = true.
Proof.
  apply (bakePivot_removes_filter_after_baking Maya (self_after session_start) session_moved
           _ [] (Ev removeEventFilter)); vm_compute; reflexivity.
Defined.

(** ** The two look-ups *)

Section Lookups.

Context {N : Number}.
Variable H : Host.

Lemma Pure_calls {A : Type} (p : Prog A) (s : Ctx) (w : World H) :
  Pure p ->
  forallb query_event (calls (run H p s w)) = true /\ self_after (run H p s w) = s.
Proof.
  revert s w.
  induction p as [a | e | T c k IH | k IH | s' k IH]; intros s w Hp; simpl in *.
  - split; reflexivity.
  - split; reflexivity.
  - destruct Hp as [Hc Hk].
    destruct (IH (ask H c w) s (after H c w) (Hk _)) as [IH1 IH2].
    split; [now rewrite Hc, IH1 | exact IH2].
  - contradiction.
  - contradiction.
Qed.

(** X3. [is_pivot_connected] and [pivot_driver_attr] only ask: on every host,
    every call they make is a query form, and the context is left as it
    is. *)
Theorem pivot_lookups_only_query (n : string) (s : Ctx) (w : World H) :
  forallb query_event (calls (run H (is_pivot_connected n) s w)) = true /\
  self_after (run H (is_pivot_connected n) s w) = s /\
  forallb query_event (calls (run H (pivot_driver_attr n) s w)) = true /\
  self_after (run H (pivot_driver_attr n) s w) = s.
Proof.
  destruct (Pure_calls (is_pivot_connected n) s w (is_pivot_connected_pure n)) as [A1 A2].
  destruct (Pure_calls (pivot_driver_attr n) s w (pivot_driver_attr_pure n)) as [B1 B2].
  auto.
Qed.

Hypothesis HH : queries_pure H.

Lemma is_pivot_connected_loop_answer (n : string) (attrs : list string)
    (conn : string -> list string) (s : Ctx) (w : World H) :
  (forall each, In each attrs ->
     ask H (listConnections (n ++ "." ++ each) false) w = Returned (conn each)) ->
  result (run H (is_pivot_connected_loop n attrs) s w)
    = Returned (existsb (fun each => nonempty (conn each)) attrs).
Proof.
  induction attrs as [| each rest IH]; intro Hc.
  - reflexivity.
  - cbn [is_pivot_connected_loop existsb].
    rewrite (run_query H HH (listConnections (n ++ "." ++ each) false) _ s w (conn each))
      by (reflexivity || apply Hc; now left).
    cbn [logged result].
    destruct (conn each) as [| src0 src]; cbn [nonempty orb].
    + apply IH. intros e He. apply Hc. now right.
    + reflexivity.
Qed.

(** X4. [is_pivot_connected] answers True exactly when one of the plugs
    rotatePivot, rotatePivotX, rotatePivotY, rotatePivotZ of the node has an
    incoming connection. *)
Theorem is_pivot_connected_answer (n : string) (conn : string -> list string) (w : World H) :
  (forall each, In each pivot_plugs ->
     ask H (listConnections (n ++ "." ++ each) false) w = Returned (conn each)) ->
  observe H (is_pivot_connected n) w
    = Returned (existsb (fun each => nonempty (conn each)) pivot_plugs).
Proof.
  intro Hc. unfold observe, is_pivot_connected.
  now apply is_pivot_connected_loop_answer.
Qed.

Lemma pivot_driver_attr_loop_unconnected (n : string) (attrs : list string)
    (s : Ctx) (w : World H) :
  (forall each, In each attrs ->
     ask H (listConnections (n ++ "." ++ each) false) w = Returned []) ->
  result (run H (pivot_driver_attr_loop n attrs) s w) = Returned None.
Proof.
  induction attrs as [| each rest IH]; intro Hc.
  - reflexivity.
  - cbn [pivot_driver_attr_loop].
    rewrite (run_query H HH (listConnections (n ++ "." ++ each) false) _ s w [])
      by (reflexivity || apply Hc; now left).
    cbn [logged result].
    apply IH. intros e He. apply Hc. now right.
Qed.

(** X5. [pivot_driver_attr] looks at rotatePivotX, rotatePivotY and
    rotatePivotZ only: when none of the three has an incoming connection it
    returns None, whatever is connected to the compound plug rotatePivot. *)
Theorem pivot_driver_attr_ignores_the_compound_plug (n : string) (w : World H) :
  (forall each, In each pivot_axis_plugs ->
     ask H (listConnections (n ++ "." ++ each) false) w = Returned []) ->
  observe H (pivot_driver_attr n) w = Returned None.
Proof.
  intro Hc. unfold observe, pivot_driver_attr.
  now apply pivot_driver_attr_loop_unconnected.
Qed.

Lemma pivot_driver_attr_loop_sound (n d : string) (attrs : list string) (s : Ctx) (w : World H) :
  result (run H (pivot_driver_attr_loop n attrs) s w) = Returned (Some d) ->
  exists each src0 rest rest',
    In each attrs /\
    ask H (listConnections (n ++ "." ++ each) false) w = Returned (src0 :: rest) /\
    ask H (nodeType src0) w = Returned "remapValue" /\
    ask H (listConnections (src0 ++ ".inputValue") true) w = Returned (d :: rest') /\
    ask H (getAttr_keyable d) w = Returned true /\
    ask H (getAttr_lock d) w = Returned false.
Proof.
  induction attrs as [| each rest IH]; intro Hr.
  - discriminate.
  - assert (Hrec : result (run H (pivot_driver_attr_loop n rest) s w) = Returned (Some d) ->
      exists each0 src0 rest0 rest',
        In each0 (each :: rest) /\
        ask H (listConnections (n ++ "." ++ each0) false) w = Returned (src0 :: rest0) /\
        ask H (nodeType src0) w = Returned "remapValue" /\
        ask H (listConnections (src0 ++ ".inputValue") true) w = Returned (d :: rest') /\
        ask H (getAttr_keyable d) w = Returned true /\
        ask H (getAttr_lock d) w = Returned false).
    { intro Hr'. destruct (IH Hr') as (e & a & b & c & Hin & R).
      exists e, a, b, c. split; [now right | exact R]. }
    revert Hr. cbn [pivot_driver_attr_loop].
    rewrite run_call, after_query by (exact HH || reflexivity).
    destruct (ask H (listConnections (n ++ "." ++ each) false) w) as [[| src0 src] | e] eqn:E1;
      cbn [logged result]; [exact Hrec | | discriminate].
    rewrite run_call, after_query by (exact HH || reflexivity).
    destruct (ask H (nodeType src0) w) as [srcType | e] eqn:E2;
      cbn [logged result]; [| discriminate].
    destruct (String.eqb_spec srcType "remapValue") as [-> | _]; [| exact Hrec].
    rewrite run_call, after_query by (exact HH || reflexivity).
    destruct (ask H (listConnections (src0 ++ ".inputValue") true) w) as [[| plug src'] | e] eqn:E3;
      cbn [logged result]; [exact Hrec | | discriminate].
    rewrite run_call, after_query by (exact HH || reflexivity).
    destruct (ask H (getAttr_keyable plug) w) as [[|] | e] eqn:E4;
      cbn [logged result]; [| exact Hrec | discriminate].
    rewrite run_call, after_query by (exact HH || reflexivity).
    destruct (ask H (getAttr_lock plug) w) as [[|] | e] eqn:E5;
      cbn [logged result negb]; [exact Hrec | | discriminate].
    cbn [run result]. intros [= ->].
    exists each, src0, src, src'. split; [now left | auto].
Qed.

(** X6. A plug returned by [pivot_driver_attr] is the first plug connected
    into the inputValue of a remapValue node that feeds rotatePivotX,
    rotatePivotY or rotatePivotZ of the node, and it is keyable and not
    locked. *)
Theorem pivot_driver_attr_sound (n d : string) (w : World H) :
  observe H (pivot_driver_attr n) w = Returned (Some d) -> drives H n d w.
Proof.
  unfold observe, pivot_driver_attr. apply pivot_driver_attr_loop_sound.
Qed.

End Lookups.

(** ** The keypress filter *)

Section Filter.

Context {N : Number}.
Variable H : Host.

(** X7. The keypress filter never consumes an event: whatever the event and
    the two commands, [eventFilter] returns False or lets an exception
    through; it never returns True. *)
Theorem eventFilter_never_consumes_the_event (enterCommand escapeCommand : Prog unit)
    (ev : QEvent) (s : Ctx) (w : World H) :
  result (run H (eventFilter enterCommand escapeCommand ev) s w) = Returned false \/
  exists e, result (run H (eventFilter enterCommand escapeCommand ev) s w) = Raised e.
Proof.
  unfold eventFilter. rewrite run_bind.
  match goal with |- context [result (run H ?p s w)] =>
    destruct (result (run H p s w)) as [[] | e] end;
    cbn [result prepend run]; [left; reflexivity | right; exists e; reflexivity].
Qed.

(** X8. On Escape the filter removes itself exactly when [cleanup] returns;
    when [cleanup] raises, the exception leaves the filter and the filter
    stays installed. *)
Theorem escape_removes_the_filter_when_cleanup_returns (ev : QEvent) (s : Ctx) (w : World H) :
  is_key Key_Escape ev = true ->
  (existsb removes_filter (calls (run H (keypressFilter ev) s w)) = true <->
   result (run H cleanup s w) = Returned tt) /\
  (forall e, result (run H cleanup s w) = Raised e ->
             result (run H (keypressFilter ev) s w) = Raised e).
Proof.
  intro Hk. rewrite (filter_on_escape H ev s w Hk).
  rewrite (run_bind H cleanup).
  pose proof (Always_never H removes_filter cleanup s w cleanup_keeps_filter) as Hc.
  destruct (result (run H cleanup s w)) as [[] | e].
  - cbn [calls prepend result]. rewrite existsb_app, Hc. cbn [orb].
    rewrite run_call.
    destruct (ask H removeEventFilter _); simpl;
      (split; [split; intros _; reflexivity | intros; discriminate]).
  - cbn [calls result]. rewrite Hc. split; [split; discriminate | intros e0 [= ->]; reflexivity].
Qed.

End Filter.

(** ** What the commands never call *)

Section Never.

Context {N : Number}.
Variable H : Host.

Lemma queries_are_not (b : Event -> bool) (qs : list Event) :
  (forall e, query_event e = true -> b e = false) ->
  forallb query_event qs = true -> existsb b qs = false.
Proof.
  intros Hb. induction qs as [| e qs IH]; simpl; [reflexivity |].
  rewrite andb_true_iff. intros [He Hq]. now rewrite (Hb e He), IH.
Qed.

Lemma cleanup_writes_nothing : Always (fun e => bakes_or_sets e = false) cleanup.
Proof. unfold cleanup, cleanup_handle, cleanup_job, cleanup_leftovers. always. Qed.

Lemma edit_pivot_bakes_nothing (args : list Arg) :
  Always (fun e => bakes_cuts_or_deletes e = false) (edit_pivot args).
Proof. unfold edit_pivot, editPivot, editPivotDriver, editPivotHandle. always; exact I. Qed.

(** X9. Edit Pivot itself changes no animation: on every host, [edit_pivot]
    never calls matchBake, cutKey, delete or parentConstraint. *)
Theorem edit_pivot_never_bakes (args : list Arg) (s : Ctx) (w : World H) :
  existsb bakes_cuts_or_deletes (calls (run H (edit_pivot args) s w)) = false.
Proof. apply Always_never, edit_pivot_bakes_nothing. Qed.

Lemma cleanup_registers_nothing : Always (fun e => registers e = false) cleanup.
Proof. unfold cleanup, cleanup_handle, cleanup_job, cleanup_leftovers. always. Qed.

Lemma bakePivot_registers_nothing : Always (fun e => registers e = false) bakePivot.
Proof. unfold bakePivot. always; apply cleanup_registers_nothing. Qed.

Lemma reset_pivot_registers_nothing (args : list Arg) :
  Always (fun e => registers e = false) (reset_pivot args).
Proof. unfold reset_pivot, reset_pivot_bake. always. Qed.

Lemma doEditPivotDriver_registers_nothing :
  Always (fun e => registers e = false) doEditPivotDriver.
Proof. unfold doEditPivotDriver. always. Qed.

(** X10. Only Edit Pivot registers anything: on every host, [reset_pivot],
    [bakePivot], [cleanup] and [doEditPivotDriver] install no event filter,
    create no script job and open no window. *)
Theorem only_edit_pivot_registers (args : list Arg) (s : Ctx) (w : World H) :
  existsb registers (calls (run H (reset_pivot args) s w)) = false /\
  existsb registers (calls (run H bakePivot s w)) = false /\
  existsb registers (calls (run H cleanup s w)) = false /\
  existsb registers (calls (run H doEditPivotDriver s w)) = false.
Proof.
  repeat split; apply Always_never.
  - apply reset_pivot_registers_nothing.
  - apply bakePivot_registers_nothing.
  - apply cleanup_registers_nothing.
  - apply doEditPivotDriver_registers_nothing.
Qed.

End Never.

(** ** The paths of [bakePivot], [editPivot] and [doEditPivotDriver] *)

Section Paths.

Context {N : Number}.
Variable H : Host.
Hypothesis HH : queries_pure H.

Lemma bakePivot_gives_up (s : Ctx) (w : World H) :
  ask H (objExists (pivotHandle s)) w = Returned false \/
  (ask H (objExists (pivotHandle s)) w = Returned true /\
   ask H (objExists (node s)) w = Returned false) \/
  (exists h n p q rest1 rest2,
     pivotHandle s = Some h /\ node s = Some n /\
     ask H (objExists (Some h)) w = Returned true /\
     ask H (objExists (Some n)) w = Returned true /\
     ask H (getAttr3 (h ++ ".translate")) w = Returned (p :: rest1) /\
     ask H (getAttr3 (n ++ ".rotatePivot")) w = Returned (q :: rest2) /\
     vec_eqb p q = true) ->
  exists qs, run H bakePivot s w = prepend qs (run H cleanup s w) /\
             forallb query_event qs = true.
Proof.
  intro Hcase.
  unfold bakePivot. cbn [self bind run].
  destruct Hcase as [Eh | [[Eh En] | (h & n & p & q & r1 & r2 & Hh & Hn & Eh & En & Et & Ep & Hpq)]].
  - rewrite (run_query H HH (objExists (pivotHandle s)) _ s w false) by (reflexivity || exact Eh).
    cbn [negb bind]. exists [Ev (objExists (pivotHandle s))]. split; reflexivity.
  - rewrite (run_query H HH (objExists (pivotHandle s)) _ s w true) by (reflexivity || exact Eh).
    cbn [negb]. rewrite run_bind_assoc.
    rewrite (run_query H HH (objExists (node s)) _ s w false) by (reflexivity || exact En).
    cbn [negb bind].
    exists [Ev (objExists (pivotHandle s)); Ev (objExists (node s))]. split; reflexivity.
  - rewrite Hh, Hn.
    rewrite (run_query H HH (objExists (Some h)) _ s w true) by (reflexivity || exact Eh).
    cbn [negb]. rewrite run_bind_assoc.
    rewrite (run_query H HH (objExists (Some n)) _ s w true) by (reflexivity || exact En).
    cbn [negb bind str_of].
    rewrite (run_query_item0 H HH (getAttr3 (h ++ ".translate")) _ s w p r1)
      by (reflexivity || exact Et).
    rewrite (run_query_item0 H HH (getAttr3 (n ++ ".rotatePivot")) _ s w q r2)
      by (reflexivity || exact Ep).
    rewrite Hpq.
    exists [Ev (objExists (Some h)); Ev (objExists (Some n));
            Ev (getAttr3 (h ++ ".translate")); Ev (getAttr3 (n ++ ".rotatePivot"))].
    split; reflexivity.
Qed.

(** X11. The three ways in which [bakePivot] gives up, on every host whose
    queries change nothing.  When the host says that the handle does not
    exist, [bakePivot] asks that one question and runs [cleanup]: it does
    not ask whether the node exists.  When the handle exists and the node
    does not, it asks these two questions and runs [cleanup].  When both
    exist and the translate of the handle equals the rotatePivot of the
    node, it asks four questions (the two, and the two attributes) and runs
    [cleanup].  In each case that is all it does, and [cleanup] sets no
    attribute and bakes nothing. *)
Theorem bakePivot_gives_up_quietly (s : Ctx) (w : World H) :
  (ask H (objExists (pivotHandle s)) w = Returned false ->
   run H bakePivot s w = prepend [Ev (objExists (pivotHandle s))] (run H cleanup s w)) /\
  (ask H (objExists (pivotHandle s)) w = Returned true ->
   ask H (objExists (node s)) w = Returned false ->
   run H bakePivot s w =
     prepend [Ev (objExists (pivotHandle s)); Ev (objExists (node s))] (run H cleanup s w)) /\
  (forall h n p q rest1 rest2,
     pivotHandle s = Some h -> node s = Some n ->
     ask H (objExists (Some h)) w = Returned true ->
     ask H (objExists (Some n)) w = Returned true ->
     ask H (getAttr3 (h ++ ".translate")) w = Returned (p :: rest1) ->
     ask H (getAttr3 (n ++ ".rotatePivot")) w = Returned (q :: rest2) ->
     vec_eqb p q = true ->
     run H bakePivot s w =
       prepend [Ev (objExists (Some h)); Ev (objExists (Some n));
                Ev (getAttr3 (h ++ ".translate")); Ev (getAttr3 (n ++ ".rotatePivot"))]
               (run H cleanup s w)) /\
  (forall s' w', existsb bakes_or_sets (calls (run H cleanup s' w')) = false).
Proof.
  split; [| split; [| split]].
  - intro Eh. unfold bakePivot. cbn [self bind run].
    rewrite (run_query H HH (objExists (pivotHandle s)) _ s w false) by (reflexivity || exact Eh).
    reflexivity.
  - intros Eh En. unfold bakePivot. cbn [self bind run].
    rewrite (run_query H HH (objExists (pivotHandle s)) _ s w true) by (reflexivity || exact Eh).
    cbn [negb]. rewrite run_bind_assoc.
    rewrite (run_query H HH (objExists (node s)) _ s w false) by (reflexivity || exact En).
    reflexivity.
  - intros h n p q r1 r2 Hh Hn Eh En Et Ep Hpq. unfold bakePivot. cbn [self bind run].
    rewrite Hh, Hn.
    rewrite (run_query H HH (objExists (Some h)) _ s w true) by (reflexivity || exact Eh).
    cbn [negb]. rewrite run_bind_assoc.
    rewrite (run_query H HH (objExists (Some n)) _ s w true) by (reflexivity || exact En).
    cbn [negb bind str_of].
    rewrite (run_query_item0 H HH (getAttr3 (h ++ ".translate")) _ s w p r1)
      by (reflexivity || exact Et).
    rewrite (run_query_item0 H HH (getAttr3 (n ++ ".rotatePivot")) _ s w q r2)
      by (reflexivity || exact Ep).
    rewrite Hpq. reflexivity.
  - intros s' w'. apply (Always_never H bakes_or_sets cleanup s' w' cleanup_writes_nothing).
Qed.

Lemma editPivot_free_node (s : Ctx) (w : World H) (n : string) :
  ask H ls_sl w = Returned [n] ->
  ask H (attributeQuery_exists "ml_pivot_handle" n) w = Returned false ->
  observe H (is_pivot_connected n) w = Returned false ->
  exists qs,
    run H editPivot s w =
      prepend qs
        (run H editPivotHandle
           (mkCtx (Some n) (pivotHandle s) (scriptJob s) (pivotDriver s) (pivotDriverWindow s)
              (floatSlider s)) w) /\
    forallb query_event qs = true.
Proof.
  intros Hsel Hattr Hc. unfold editPivot.
  rewrite (run_query H HH ls_sl _ s w [n]) by (reflexivity || exact Hsel).
  cbn [length Nat.ltb Nat.leb item0 bind].
  rewrite (run_query H HH (attributeQuery_exists "ml_pivot_handle" n) _ s w false)
    by (reflexivity || exact Hattr).
  rewrite run_assign_node.
  match goal with |- context [run H (bind _ ?f) ?s1 w] =>
    destruct (run_bind_pure H HH (is_pivot_connected n) f s1 w false
                (is_pivot_connected_pure n) Hc) as [E1 Q1]
  end.
  rewrite E1.
  eexists. split; [rewrite !prepend_logged; reflexivity |].
  cbn [forallb query_event is_query andb]. exact Q1.
Qed.

(** X12. On a single selected node that is not a pivot handle and whose pivot
    is not connected, [editPivot] makes queries, records the node in the
    context and runs [editPivotHandle]. *)
Theorem editPivot_on_a_free_node_starts_a_session (s : Ctx) (w : World H) (n : string) :
  ask H ls_sl w = Returned [n] ->
  ask H (attributeQuery_exists "ml_pivot_handle" n) w = Returned false ->
  observe H (is_pivot_connected n) w = Returned false ->
  exists qs,
    run H editPivot s w =
      prepend qs
        (run H editPivotHandle
           (mkCtx (Some n) (pivotHandle s) (scriptJob s) (pivotDriver s) (pivotDriverWindow s)
              (floatSlider s)) w) /\
    forallb query_event qs = true.
Proof. apply editPivot_free_node. Qed.

Lemma editPivotDriver_opens_no_session (d : string) :
  Always (fun e => opens_session e = false) (editPivotDriver d).
Proof. unfold editPivotDriver. always; exact I. Qed.

(** X13. On a single selected node whose pivot has a supported driver,
    [editPivot] makes queries and runs [editPivotDriver] on that driver: no
    keypress filter is installed, no handle is created, no script job is
    registered. *)
Theorem editPivot_on_a_driven_node_opens_the_slider (s : Ctx) (w : World H) (n d : string) :
  ask H ls_sl w = Returned [n] ->
  ask H (attributeQuery_exists "ml_pivot_handle" n) w = Returned false ->
  observe H (is_pivot_connected n) w = Returned true ->
  observe H (pivot_driver_attr n) w = Returned (Some d) ->
  d <> "" ->
  (exists qs,
     run H editPivot s w =
       prepend qs
         (run H (editPivotDriver d)
            (mkCtx (Some n) (pivotHandle s) (scriptJob s) (pivotDriver s) (pivotDriverWindow s)
               (floatSlider s)) w) /\
     forallb query_event qs = true) /\
  existsb opens_session (calls (run H editPivot s w)) = false.
Proof.
  intros Hsel Hattr Hc Hd Hne.
  match goal with |- ?L /\ _ => assert (E : L) end.
  2: { split; [exact E |]. destruct E as (qs & E & Q). rewrite E. cbn [calls prepend].
       rewrite existsb_app, (Always_never H opens_session _ _ w (editPivotDriver_opens_no_session d)).
       rewrite (queries_are_not opens_session qs); [reflexivity | | exact Q].
       intros [T c]; destruct c; simpl; congruence. }
  revert Hsel Hattr Hc Hd Hne.
  intros Hsel Hattr Hc Hd Hne. unfold editPivot.
  rewrite (run_query H HH ls_sl _ s w [n]) by (reflexivity || exact Hsel).
  cbn [length Nat.ltb Nat.leb item0 bind].
  rewrite (run_query H HH (attributeQuery_exists "ml_pivot_handle" n) _ s w false)
    by (reflexivity || exact Hattr).
  rewrite run_assign_node.
  match goal with |- context [run H (bind _ ?f) ?s1 w] =>
    destruct (run_bind_pure H HH (is_pivot_connected n) f s1 w true
                (is_pivot_connected_pure n) Hc) as [E1 Q1]
  end.
  rewrite E1.
  match goal with |- context [run H (bind _ ?f) ?s1 w] =>
    destruct (run_bind_pure H HH (pivot_driver_attr n) f s1 w (Some d)
                (pivot_driver_attr_pure n) Hd) as [E2 Q2]
  end.
  rewrite E2.
  assert (Ht : truthy (Some d) = true).
  { unfold truthy. destruct (String.eqb_spec d ""); [contradiction | reflexivity]. }
  rewrite Ht.
  eexists. split; [rewrite !prepend_prepend, !prepend_logged; reflexivity |].
  cbn [forallb query_event is_query andb]. now rewrite forallb_app, Q1, Q2.
Qed.

(** X14. When the slider holds the current value of the driver,
    [doEditPivotDriver] closes the window and returns: its calls are the
    query of the slider, deleteUI (whose failure is ignored) and the query of
    the driver. *)
Theorem doEditPivotDriver_with_unchanged_value (s : Ctx) (w : World H)
    (slider window driver : string) (newValue currentValue : Num) :
  floatSlider s = Some slider ->
  pivotDriverWindow s = Some window ->
  pivotDriver s = Some driver ->
  ask H (floatSliderButtonGrp_query_value slider) w = Returned newValue ->
  ask H (getAttr driver) (after H (deleteUI window) w) = Returned currentValue ->
  num_eqb newValue currentValue = true ->
  run H doEditPivotDriver s w =
    mkOutcome (Returned tt) s (after H (deleteUI window) w)
      [Ev (floatSliderButtonGrp_query_value slider); Ev (deleteUI window); Ev (getAttr driver)].
Proof.
  intros Hs Hw Hd Ev_ Ec He. unfold doEditPivotDriver.
  cbn [self bind run]. rewrite Hs, Hw, Hd. cbn [attr_of bind].
  rewrite (run_query H HH (floatSliderButtonGrp_query_value slider) _ s w newValue)
    by (reflexivity || exact Ev_).
  rewrite (run_bind H (try_pass (call (deleteUI window)))).
  rewrite try_pass_returns.
  destruct (try_pass_calls H (call (deleteUI window)) s w) as (C1 & C2 & C3).
  rewrite C1, C2, C3, run_call_last. cbn [calls self_after world_after].
  rewrite (run_query H HH (getAttr driver) _ s _ currentValue) by (reflexivity || exact Ec).
  rewrite He. reflexivity.
Qed.

End Paths.

(** ** What a session remembers *)

Ltac run_tree :=
  cbn [bind call run replies catch self set_self assign_pivotHandle assign_scriptJob
       assign_pivotDriver assign_pivotDriverWindow assign_floatSlider item0 str_of split2
       node pivotHandle scriptJob pivotDriver pivotDriverWindow floatSlider];
  repeat match goal with
  | |- context [ask ?H ?c ?w'] =>
      destruct (ask H c w') eqn:?;
      cbn [bind call run replies catch self set_self assign_pivotHandle assign_scriptJob
           assign_pivotDriver assign_pivotDriverWindow assign_floatSlider item0 str_of split2
       node pivotHandle scriptJob pivotDriver pivotDriverWindow floatSlider]
  | |- context [item0 ?l] =>
      destruct l;
      cbn [bind call run replies catch self set_self assign_pivotHandle assign_scriptJob
           assign_pivotDriver assign_pivotDriverWindow assign_floatSlider item0 str_of split2
       node pivotHandle scriptJob pivotDriver pivotDriverWindow floatSlider]
  | |- context [str_of ?o] =>
      destruct o;
      cbn [bind call run replies catch self set_self assign_pivotHandle assign_scriptJob
           assign_pivotDriver assign_pivotDriverWindow assign_floatSlider item0 str_of split2
       node pivotHandle scriptJob pivotDriver pivotDriverWindow floatSlider]
  | |- context [match split_dot ?d with _ => _ end] =>
      destruct (split_dot d) as [[? ?] |];
      cbn [bind call run replies catch self set_self assign_pivotHandle assign_scriptJob
           assign_pivotDriver assign_pivotDriverWindow assign_floatSlider item0 str_of split2
       node pivotHandle scriptJob pivotDriver pivotDriverWindow floatSlider]
  | |- context [if ?b then _ else _] =>
      destruct b;
      cbn [bind call run replies catch self set_self assign_pivotHandle assign_scriptJob
           assign_pivotDriver assign_pivotDriverWindow assign_floatSlider item0 str_of split2
       node pivotHandle scriptJob pivotDriver pivotDriverWindow floatSlider]
  end.

Section Contexts.

Context {N : Number}.
Variable H : Host.

(** X15. When [editPivotHandle] returns, every one of its calls has
    returned, and these are the calls with their answers: the handle is
    created under the name [h0] that the host gives it, it is parented below
    the node under the name [h] that the host returns first, and a job with
    the identifier [job] that the host returns runs [cleanup] once on
    SelectionChanged.  The context then holds [h] as the handle and [job] as
    the script job, and is otherwise unchanged; [h] is the node that was
    tagged with ml_pivot_handle, put at the rotatePivot of the node, and
    locked. *)
Theorem editPivotHandle_records_what_it_made (s : Ctx) (w : World H) :
  result (run H editPivotHandle s w) = Returned tt ->
  exists h0 h rest n rp rest' job,
    node s = Some n /\
    replies H editPivotHandle s w =
      [Re installEventFilter (Returned tt);
       Re (group_em (Some "Adjust_Pivot")) (Returned h0);
       Re (setAttr (h0 ++ ".rotate") [] (Some true) None) (Returned tt);
       Re (setAttr (h0 ++ ".rx") [] None (Some false)) (Returned tt);
       Re (setAttr (h0 ++ ".ry") [] None (Some false)) (Returned tt);
       Re (setAttr (h0 ++ ".rz") [] None (Some false)) (Returned tt);
       Re (setAttr (h0 ++ ".scale") [] (Some true) None) (Returned tt);
       Re (setAttr (h0 ++ ".sx") [] None (Some false)) (Returned tt);
       Re (setAttr (h0 ++ ".sy") [] None (Some false)) (Returned tt);
       Re (setAttr (h0 ++ ".sz") [] None (Some false)) (Returned tt);
       Re (setAttr (h0 ++ ".visibility") [] (Some true) (Some false)) (Returned tt);
       Re (setAttr (h0 ++ ".displayHandle") [ABool true] None None) (Returned tt);
       Re (parent h0 (Some n)) (Returned (h :: rest));
       Re (addAttr h "ml_pivot_handle" "bool" false) (Returned tt);
       Re (getAttr3 (n ++ ".rotatePivot")) (Returned (rp :: rest'));
       Re (setAttr (h ++ ".translate") (vec_args rp) None None) (Returned tt);
       Re (lockNode (Some h) true) (Returned tt);
       Re (scriptJob_event "SelectionChanged" cb_cleanup true) (Returned job);
       Re (setToolTo "Move") (Returned tt);
       Re (inViewMessage
             "After moving the pivot, press <hl>Return</hl> to bake or <hl>Esc</hl> to cancel."
             "midCenterTop" true 4000 true) (Returned tt)] /\
    self_after (run H editPivotHandle s w) =
      mkCtx (Some n) (Some h) (Some job) (pivotDriver s) (pivotDriverWindow s) (floatSlider s).
Proof.
  unfold editPivotHandle. run_tree; simpl; try discriminate.
  all: intros _; repeat match goal with u : unit |- _ => destruct u end;
    eexists _, _, _, _, _, _, _; split; [reflexivity |]; split; reflexivity.
Qed.

(** X16. When [editPivotDriver] returns for the plug [d], the plug is
    [node_.attr], and these are its calls with their answers: the value, the
    minimum and the maximum of the plug are read, a window left from before
    is deleted, the window is created, and the slider is created with that
    value and that range, with a button Bake whose command is
    [doEditPivotDriver]; the host returns [slider] for it.  The context then
    holds the plug, the window and [slider], and is otherwise unchanged, so
    that [doEditPivotDriver] starts by reading [slider]. *)
Theorem editPivotDriver_prepares_the_bake (d : string) (s : Ctx) (w : World H) :
  result (run H (editPivotDriver d) s w) = Returned tt ->
  exists node_ attr value minValue rest1 maxValue rest2 shown window layout slider,
    split_dot d = Some (node_, attr) /\
    replies H (editPivotDriver d) s w =
      [Re (getAttr d) (Returned value);
       Re (attributeQuery_minimum attr node_) (Returned (minValue :: rest1));
       Re (attributeQuery_maximum attr node_) (Returned (maxValue :: rest2));
       Re (window_exists "ml_pivot_editPivotDriverUI") (Returned shown)]
      ++ (if shown : bool
          then [Re (deleteUI "ml_pivot_editPivotDriverUI") (Returned tt)] else [])
      ++ [Re (window_create "ml_pivot_editPivotDriverUI" 1 1) (Returned window);
          Re columnLayout (Returned layout);
          Re (floatSliderButtonGrp attr true value "Bake" minValue maxValue
                cb_doEditPivotDriver) (Returned slider);
          Re (showWindow window) (Returned tt);
          Re (window_edit "ml_pivot_editPivotDriverUI" 1 1) (Returned tt)] /\
    self_after (run H (editPivotDriver d) s w) =
      mkCtx (node s) (pivotHandle s) (scriptJob s) (Some d) (Some "ml_pivot_editPivotDriverUI")
        (Some slider) /\
    forall w', exists o,
      run H (callback cb_doEditPivotDriver)
        (self_after (run H (editPivotDriver d) s w)) w'
      = logged (Ev (floatSliderButtonGrp_query_value slider)) o.
Proof.
  unfold editPivotDriver, split2. run_tree; simpl; try discriminate.
  all: intros _; repeat match goal with u : unit |- _ => destruct u end.
  all: first
    [ eexists _, _, _, _, _, _, _, true, _, _, _; split; [reflexivity |];
      split; [reflexivity |]; split; [reflexivity |]; intro w'; eexists; reflexivity
    | eexists _, _, _, _, _, _, _, false, _, _, _; split; [reflexivity |];
      split; [reflexivity |]; split; [reflexivity |]; intro w'; eexists; reflexivity ].
Qed.

End Contexts.

(** ** Reset Pivot on a driven node *)

Section DrivenReset.

Context {N : Number}.
Variable H : Host.
Hypothesis HH : queries_pure H.

Lemma logged_is_prepend {A : Type} (e : Event) (o : Outcome (World H) A) :
  logged e o = prepend [e] o.
Proof. reflexivity. Qed.

Lemma reset_pivot_bake_driven (n d : string) (v dflt : Num) (s : Ctx) (w : World H) :
  result (run H (reset_pivot_bake n (Some (d, v, dflt))) s w) = Returned tt ->
  exists tempPosition tempPivot newRP,
    filter bakes_or_sets (calls (run H (reset_pivot_bake n (Some (d, v, dflt))) s w)) =
      [Ev (setAttr d [ANum dflt] None None);
       Ev (setAttr d [ANum v] None None);
       Ev (setAttr (tempPivot ++ ".translate") (vec_args newRP) None None);
       Ev (setAttr (tempPivot ++ ".rotate") [ANum zero; ANum zero; ANum zero] None None);
       Ev (matchBake [tempPivot] [tempPosition] true false false (Some false));
       Ev (setAttr d [ANum dflt] None None);
       Ev (matchBake [tempPosition] [n] true false false (Some false))].
Proof.
  unfold reset_pivot_bake. run_tree; simpl; try discriminate.
  intros _. eexists _, _, _. reflexivity.
Qed.

(** X17. On a node whose pivot is driven and whose driver is away from its
    default, a [reset_pivot] that returns sets the driver to its default to
    read the pivot there, sets it back, bakes a helper at that pivot onto a
    second helper, sets the driver to its default and bakes the node from
    the second helper; it sets the rotatePivot of the node itself at no
    point. *)
Theorem reset_pivot_on_a_driven_node (args : list Arg) (s : Ctx) (w : World H)
    (n d dNode dAttr : string) (v dflt : Num) (rest : list Num) :
  ask H ls_sl w = Returned [n] ->
  observe H (is_pivot_connected n) w = Returned true ->
  observe H (pivot_driver_attr n) w = Returned (Some d) ->
  d <> "" ->
  split_dot d = Some (dNode, dAttr) ->
  ask H (getAttr d) w = Returned v ->
  ask H (attributeQuery_listDefault dAttr dNode) w = Returned (dflt :: rest) ->
  num_eqb dflt v = false ->
  result (run H (reset_pivot args) s w) = Returned tt ->
  exists tempPosition tempPivot newRP,
    filter bakes_or_sets (calls (run H (reset_pivot args) s w)) =
      [Ev (setAttr d [ANum dflt] None None);
       Ev (setAttr d [ANum v] None None);
       Ev (setAttr (tempPivot ++ ".translate") (vec_args newRP) None None);
       Ev (setAttr (tempPivot ++ ".rotate") [ANum zero; ANum zero; ANum zero] None None);
       Ev (matchBake [tempPivot] [tempPosition] true false false (Some false));
       Ev (setAttr d [ANum dflt] None None);
       Ev (matchBake [tempPosition] [n] true false false (Some false))].
Proof.
  intros Hsel Hc Hd Hne Hs Hv Hdf He.
  assert (E : exists qs,
            run H (reset_pivot args) s w =
              prepend qs (run H (reset_pivot_bake n (Some (d, v, dflt))) s w) /\
            forallb query_event qs = true).
  { unfold reset_pivot.
    rewrite (run_query H HH ls_sl _ s w [n]) by (reflexivity || exact Hsel).
    cbn [length Nat.ltb Nat.leb item0 bind].
    match goal with |- context [run H (bind _ ?f) s w] =>
      destruct (run_bind_pure H HH (is_pivot_connected n) f s w true
                  (is_pivot_connected_pure n) Hc) as [E1 Q1]
    end.
    rewrite E1.
    match goal with |- context [run H (bind _ ?f) s w] =>
      destruct (run_bind_pure H HH (pivot_driver_attr n) f s w (Some d)
                  (pivot_driver_attr_pure n) Hd) as [E2 Q2]
    end.
    rewrite E2.
    assert (Ht : truthy (Some d) = true).
    { unfold truthy. destruct (String.eqb_spec d ""); [contradiction | reflexivity]. }
    rewrite Ht. unfold split2. rewrite Hs. cbn [bind].
    rewrite (run_query H HH (getAttr d) _ s w v) by (reflexivity || exact Hv).
    rewrite (run_query_item0 H HH (attributeQuery_listDefault dAttr dNode) _ s w dflt rest)
      by (reflexivity || exact Hdf).
    rewrite He.
    eexists. split; [rewrite !logged_is_prepend, !prepend_prepend; reflexivity |].
    rewrite !forallb_app, Q1, Q2. reflexivity. }
  destruct E as (qs & E & Q). rewrite E. cbn [result calls prepend].
  intro Hret. destruct (reset_pivot_bake_driven n d v dflt s w Hret) as (a & b & c & F).
  exists a, b, c. rewrite filter_app, F.
  assert (Fq : filter bakes_or_sets qs = []).
  { clear E. induction qs as [| e qs IH]; [reflexivity |].
    simpl in Q. apply andb_true_iff in Q. destruct Q as [Qe Q].
    simpl. destruct e as [T c0]. destruct c0; simpl in Qe; try discriminate; simpl; now apply IH. }
  now rewrite Fq.
Qed.

End DrivenReset.

(** ** The undo chunk around the bake *)

Section Chunk.

Context {N : Number}.
Variable H : Host.

(** X18. When [bakePivot] raises on the Return key, the undo chunk is closed
    all the same, as the last call, and the exception leaves the filter. *)
Theorem return_closes_the_chunk_when_the_bake_raises (ev : QEvent) (s : Ctx) (w : World H)
    (e : Exn) :
  is_key Key_Return ev = true ->
  ask H (UndoChunk_enter true) w = Returned tt ->
  result (run H bakePivot s (after H (UndoChunk_enter true) w)) = Raised e ->
  result (run H (keypressFilter ev) s w) =
    match ask H UndoChunk_exit
            (world_after (run H bakePivot s (after H (UndoChunk_enter true) w))) with
    | Returned _ => Raised e
    | Raised e' => Raised e'
    end /\
  calls (run H (keypressFilter ev) s w) =
    Ev (UndoChunk_enter true)
      :: calls (run H bakePivot s (after H (UndoChunk_enter true) w)) ++ [Ev UndoChunk_exit].
Proof.
  intros Hk Henter Hraise.
  rewrite (filter_on_return H ev s w Hk).
  rewrite run_bind, run_with, Henter. cbv zeta. rewrite Hraise.
  destruct (ask H UndoChunk_exit _); cbn [result calls]; split; reflexivity.
Qed.

End Chunk.

Lemma return_closes_the_chunk_when_the_bake_raises_witness :
  result (run Maya (keypressFilter (key_press Key_Return)) EditPivotContext cube_scene)
    = Raised TypeError /\
  undo_depth (gui (world_after
    (run Maya (keypressFilter (key_press Key_Return)) EditPivotContext cube_scene))) = 0%nat.
Proof.
  split; [| reflexivity].
  apply (return_closes_the_chunk_when_the_bake_raises Maya (key_press Key_Return)
           EditPivotContext cube_scene TypeError); reflexivity.
Defined.

(** * Sessions on a scene *)

Section SessionFacts.

Context {Vals : Scalars}.

Add Ring session_scalars : K_ring.

Lemma do_setAttr_flags (h a : string) (x : Xform) (sc : Scene) :
  rsplit_dot a = None ->
  lookup h (nodes sc) = Some x ->
  do_setAttr (h ++ String "."%char a) [] sc = (Returned tt, sc).
Proof.
  intros Ha Hx. unfold do_setAttr.
  rewrite rsplit_dot_app by exact Ha. rewrite Hx.
  destruct (lookup _ (scalars sc)); reflexivity.
Qed.

Lemma do_setAttr_bool (h a : string) (x : Xform) (b : bool) (sc : Scene) :
  rsplit_dot a = None ->
  lookup h (nodes sc) = Some x ->
  do_setAttr (h ++ String "."%char a) [ABool b] sc = (Returned tt, sc).
Proof.
  intros Ha Hx. unfold do_setAttr.
  rewrite rsplit_dot_app by exact Ha. rewrite Hx.
  destruct (lookup _ (scalars sc)); reflexivity.
Qed.

Lemma do_setAttr_translate (n : string) (x : Xform) (v : V3) (sc : Scene) :
  lookup n (nodes sc) = Some x ->
  do_setAttr (n ++ ".translate") (vec_args v) sc =
  (Returned tt, with_nodes sc (update n (set_translate x (fun _ => v)) (nodes sc))).
Proof.
  intro Hx. destruct v as [[v1 v2] v3]. unfold do_setAttr. cbn [vec_args].
  rewrite rsplit_dot_app by reflexivity. rewrite Hx.
  destruct (lookup (n ++ ".translate") (scalars sc)); reflexivity.
Qed.

Section Start.

Variables (sc : Scene) (s : Ctx) (n : string) (nd : Xform).
Hypothesis Hn : node s = Some n.
Hypothesis Hnd : lookup n (nodes sc) = Some nd.

Lemma handle_name_fresh : ~ In (handle_name sc) (all_names (nodes sc)).
Proof. apply fresh_name_fresh. Qed.

Lemma handle_name_not_node : handle_name sc <> n.
Proof.
  intro E. apply handle_name_fresh. rewrite E.
  now destruct (in_all_names n nd (nodes sc) Hnd).
Qed.

Lemma editPivotHandle_on_scene :
  exists tr,
    run Maya editPivotHandle s sc =
      mkOutcome (Returned tt) (started_context sc s) (started sc n nd) tr.
Proof.
  pose proof handle_name_not_node as Hhn.
  unfold started, started_context. unfold handle_name in *.
  set (ns0 := nodes sc) in *.
  set (h := fresh_name "Adjust_Pivot" (all_names ns0)) in *.
  eexists.
  rewrite <- (prepend_nil Maya (run Maya editPivotHandle s sc)).
  unfold editPivotHandle.
  erewrite run_Maya_step; [| cbn [scene_exec]; reflexivity].
  erewrite run_Maya_step; [| cbn [scene_exec]; unfold do_group, ok; reflexivity].
  cbn [nodes with_gui]. fold ns0. fold h.
  cbn [assign_pivotHandle self set_self bind run].
  match goal with |- context [run Maya _ _ ?w] => set (sc1 := w) end.
  assert (L1 : lookup h (nodes sc1) = Some new_transform) by apply lookup_cons_eq.
  do 4 (erewrite run_Maya_step;
        [| cbn [scene_exec]; eapply do_setAttr_flags; [reflexivity | exact L1]]).
  do 4 (erewrite run_Maya_step;
        [| cbn [scene_exec]; eapply do_setAttr_flags; [reflexivity | exact L1]]).
  erewrite run_Maya_step;
    [| cbn [scene_exec]; eapply do_setAttr_flags; [reflexivity | exact L1]].
  erewrite run_Maya_step;
    [| cbn [scene_exec]; eapply do_setAttr_bool; [reflexivity | exact L1]].
  cbn [self bind run node]. rewrite Hn.
  rewrite run_bind_assoc.
  erewrite run_Maya_step;
    [| cbn [scene_exec]; unfold do_parent, ok; rewrite L1;
       cbn [sc1 nodes with_selection with_nodes];
       rewrite (lookup_cons_ne n h) by exact Hhn; fold ns0; rewrite Hnd;
       cbn [new_transform x_locked]; rewrite update_cons_eq; reflexivity].
  cbn [item0 bind assign_pivotHandle self set_self run].
  erewrite run_Maya_step;
    [| cbn [scene_exec nodes with_nodes]; rewrite lookup_cons_eq, update_cons_eq; reflexivity].
  cbn [str_of bind].
  rewrite run_bind_assoc.
  erewrite run_Maya_step;
    [| cbn [scene_exec]; unfold do_getAttr3;
       rewrite rsplit_dot_app by reflexivity; cbn [nodes with_nodes];
       rewrite (lookup_cons_ne n h) by exact Hhn; fold ns0; rewrite Hnd; reflexivity].
  cbn [item0 bind String.eqb Ascii.eqb Bool.eqb].
  erewrite run_Maya_step;
    [| cbn [scene_exec]; apply do_setAttr_translate; cbn [nodes with_nodes];
       apply lookup_cons_eq].
  cbn [nodes with_nodes]. rewrite update_cons_eq.
  erewrite run_Maya_step;
    [| cbn [scene_exec]; unfold do_lockNode, ok; cbn [nodes with_nodes];
       rewrite lookup_cons_eq, update_cons_eq; reflexivity].
  erewrite run_Maya_step; [| cbn [scene_exec]; reflexivity].
  cbn [assign_scriptJob self set_self bind run].
  erewrite run_Maya_step; [| cbn [scene_exec]; reflexivity].
  rewrite run_call_last. unfold prepend, ask, after.
  cbn [exec Maya scene_exec ok fst snd result self_after world_after calls].
  reflexivity.
Qed.

End Start.

Lemma keqb_refl (a : K) : keqb a a = true.
Proof. now apply keqb_eq. Qed.

Lemma vec_eqb_refl (v : V3) : vec_eqb v v = true.
Proof.
  destruct v as [[a b] c]. unfold vec_eqb. simpl. now rewrite !keqb_refl.
Qed.

Lemma vec_eqb_true (u v : V3) : vec_eqb u v = true -> u = v.
Proof.
  destruct u as [[a b] c], v as [[a' b'] c']. unfold vec_eqb. simpl.
  rewrite !andb_true_iff, !keqb_eq. intros [[-> ->] ->]. reflexivity.
Qed.

Lemma jobs_without_new (j : Z) (js : list (Z * (string * Callback * bool))) :
  (forall e, In e js -> fst e <> j) ->
  filter (fun e => negb (fst e =? j)%Z) js = js.
Proof.
  intro Hj. induction js as [| e js IH]; simpl; [reflexivity |].
  destruct (Z.eqb_spec (fst e) j) as [E | _].
  - exfalso. apply (Hj e); [now left | exact E].
  - simpl. f_equal. apply IH. intros e' He'. apply Hj. now right.
Qed.

(** [cleanup] on a scene that holds the handle and the job of a session,
    and no other handle. *)
Lemma cleanup_ends_the_session (sc : Scene) (s : Ctx) (hx : Xform) (u : Ui)
    (J : string * Callback * bool) :
  pivotHandle s = Some (handle_name sc) ->
  scriptJob s = Some (next_job sc) ->
  (forall m x, In (m, x) (nodes sc) -> mem "ml_pivot_handle" (x_attrs x) = false) ->
  (forall e, In e (jobs sc) -> fst e <> next_job sc) ->
  exists tr,
    run Maya cleanup s
      (mkScene ((handle_name sc, hx) :: nodes sc) (scalars sc) (connections sc)
         [handle_name sc] (now sc) ((next_job sc, J) :: jobs sc) (next_job sc + 1)%Z u)
    = mkOutcome (Returned tt) s (cancelled sc u) tr.
Proof.
  intros Hh Hj Hnone Hjobs.
  pose proof (handle_name_fresh sc) as Hfresh.
  set (h := handle_name sc) in *.
  eexists.
  match goal with |- run Maya cleanup s ?w = _ =>
    rewrite <- (prepend_nil Maya (run Maya cleanup s w)) end.
  unfold cleanup, try_pass, cleanup_handle, cleanup_job, cleanup_leftovers, call.
  cbn [self bind run catch]. rewrite Hh.
  assert (Hhh : (h =? h) = true) by apply String.eqb_refl.
  assert (Hjj : (next_job sc =? next_job sc)%Z = true) by apply Z.eqb_refl.
  repeat (progress (unfold ask, after;
    cbn [exec Maya scene_exec do_lockNode do_delete ok fails fst snd bind catch run logged
         nodes with_nodes with_selection with_jobs selection jobs filter existsb negb orb
         set_locked x_locked map];
    rewrite ?lookup_cons_eq, ?update_cons_eq, ?without_head, ?(without_fresh h (nodes sc) Hfresh),
      ?Hj, ?Hhh, ?Hjj, ?(jobs_without_new _ _ Hjobs))).
  unfold do_ls_o. cbn [rsplit_dot].
  cbn [String.eqb Ascii.eqb Bool.eqb nodes with_jobs with_selection with_nodes].
  rewrite (no_handle_left (nodes sc) "ml_pivot_handle" Hnone).
  cbn [map bind run]. unfold prepend, cancelled, logged.
  cbn [result self_after world_after calls next_job scalars connections now gui app].
  reflexivity.
Qed.

(** [cleanup] once the session is over. *)
Lemma cleanup_after_the_session (sc : Scene) (s : Ctx) (u : Ui) :
  pivotHandle s = Some (handle_name sc) ->
  scriptJob s = Some (next_job sc) ->
  (forall m x, In (m, x) (nodes sc) -> mem "ml_pivot_handle" (x_attrs x) = false) ->
  (forall e, In e (jobs sc) -> fst e <> next_job sc) ->
  exists tr, run Maya cleanup s (cancelled sc u) = mkOutcome (Returned tt) s (cancelled sc u) tr.
Proof.
  intros Hh Hj Hnone Hjobs.
  pose proof (handle_name_fresh sc) as Hfresh.
  assert (Hl : lookup (handle_name sc) (nodes sc) = None).
  { destruct (lookup (handle_name sc) (nodes sc)) as [x |] eqn:E; [| reflexivity].
    exfalso. apply Hfresh. now destruct (in_all_names _ _ _ E). }
  assert (He : existsb (fun e => (fst e =? next_job sc)%Z) (jobs sc) = false).
  { destruct (existsb _ (jobs sc)) eqn:E; [| reflexivity].
    apply existsb_exists in E. destruct E as (e & Hin & E).
    apply Z.eqb_eq in E. exfalso. now apply (Hjobs e). }
  eexists.
  unfold cleanup, try_pass, cleanup_handle, cleanup_job, cleanup_leftovers, call.
  cbn [self bind run catch]. rewrite Hh.
  repeat (progress (unfold ask, after;
    cbn [exec Maya scene_exec do_lockNode ok fails fst snd bind catch run logged
         nodes jobs cancelled];
    rewrite ?Hl, ?Hj, ?He)).
  unfold do_ls_o. cbn [rsplit_dot].
  cbn [String.eqb Ascii.eqb Bool.eqb nodes cancelled].
  rewrite (no_handle_left (nodes sc) "ml_pivot_handle" Hnone).
  cbn [map bind run]. unfold logged.
  cbn [result self_after world_after calls].
  reflexivity.
Qed.

Section SceneSession.

Variables (sc : Scene) (n : string) (nd : Xform).
Hypothesis Hsel : selection sc = [n].
Hypothesis Hnd : lookup n (nodes sc) = Some nd.
Hypothesis Hplain : mem "ml_pivot_handle" (x_attrs nd) = false.
Hypothesis Hfree : observe Maya (is_pivot_connected n) sc = Returned false.

Let ctx0 : Ctx := mkCtx (Some n) None None None None None.

Lemma edit_pivot_on_scene (args : list Arg) (s : Ctx) :
  exists tr,
    run Maya (edit_pivot args) s sc =
      mkOutcome (Returned tt) (started_context sc ctx0) (started sc n nd) tr.
Proof.
  unfold edit_pivot. cbn [set_self bind run].
  destruct (editPivot_free_node Maya Maya_queries_pure EditPivotContext sc n)
    as (qs & E & _).
  - unfold ask. simpl. now rewrite Hsel.
  - unfold ask. simpl. now rewrite Hnd, Hplain.
  - exact Hfree.
  - rewrite E. cbn [node pivotHandle scriptJob pivotDriver pivotDriverWindow floatSlider
                    EditPivotContext].
    destruct (editPivotHandle_on_scene sc ctx0 n nd eq_refl Hnd) as [tr E2].
    fold ctx0. rewrite E2. eexists. reflexivity.
Qed.

Lemma handle_above (a : string) :
  In a (n :: x_path nd) -> a <> handle_name sc.
Proof.
  intros Ha E. apply (handle_name_fresh sc). rewrite <- E.
  destruct (in_all_names n nd (nodes sc) Hnd) as [H1 H2].
  destruct Ha as [<- | Ha]; [exact H1 | now apply H2].
Qed.

(** X19. On a scene, Edit Pivot on a single selected node with an unconnected
    pivot returns and leaves one new node, the handle: below the node,
    tagged, locked and selected, with the filter installed and a job that
    runs [cleanup] on SelectionChanged.  At every frame the handle is, in
    the world, where the rotate pivot of the node is. *)
Theorem edit_pivot_puts_the_handle_at_the_pivot (args : list Arg) (s : Ctx) :
  result (run Maya (edit_pivot args) s sc) = Returned tt /\
  world_after (run Maya (edit_pivot args) s sc) = started sc n nd /\
  fired "SelectionChanged" (world_after (run Maya (edit_pivot args) s sc))
    = cb_cleanup :: fired "SelectionChanged" sc /\
  forall f,
    world_position (world_after (run Maya (edit_pivot args) s sc)) (handle_name sc) f vzero
      = world_position sc n f (x_rotatePivot nd).
Proof.
  destruct (edit_pivot_on_scene args s) as [tr E]. rewrite E.
  cbn [result world_after].
  split; [reflexivity | split; [reflexivity | split; [reflexivity |]]].
  intro f. unfold world_position, started. cbn [nodes].
  rewrite lookup_cons_eq, Hnd. f_equal.
  unfold world, handle_of. cbn [x_path chain_world].
  unfold local_of. rewrite (lookup_cons_ne n (handle_name sc)) by (apply not_eq_sym, handle_above; now left).
  rewrite Hnd.
  rewrite (chain_world_ext (nodes sc) ((handle_name sc, _) :: nodes sc)).
  2:{ intros a Ha. apply lookup_cons_ne. apply not_eq_sym, handle_above. now right. }
  rewrite !aapply_acomp. f_equal. f_equal.
  unfold local. cbn [x_rotate x_rotatePivot x_translate].
  destruct (x_rotatePivot nd) as [[a b] c]. by_components.
Qed.

Hypothesis Hacyclic : ~ In n (x_path nd).
Hypothesis Hnone : forall m x, In (m, x) (nodes sc) -> mem "ml_pivot_handle" (x_attrs x) = false.
Hypothesis Hregular : forall a ax f, In a (n :: x_path nd) -> lookup a (nodes sc) = Some ax ->
                                   regular (x_rotate ax f).

Lemma in_session_with_handle (ns : list (string * Xform)) (hd : Xform) :
  ns = (handle_name sc, hd) :: nodes sc ->
  x_path hd = n :: x_path nd ->
  x_rotatePivot hd = vzero ->
  forall sc', nodes sc' = ns -> in_session sc' n (handle_name sc) nd hd.
Proof.
  intros -> Hp Hrp sc' Hns.
  assert (Hlk : forall a, In a (n :: x_path nd) ->
                          lookup a (nodes sc') = lookup a (nodes sc)).
  { intros a Ha. rewrite Hns. apply lookup_cons_ne. apply not_eq_sym. now apply handle_above. }
  constructor.
  - rewrite Hlk by now left. exact Hnd.
  - rewrite Hns. apply lookup_cons_eq.
  - exact Hp.
  - exact Hrp.
  - exact Hacyclic.
  - intros a ax Ha. rewrite (Hlk a Ha). intros Hax Hin.
    apply (handle_name_fresh sc).
    destruct (in_all_names a ax (nodes sc) Hax) as [_ Hincl]. now apply Hincl.
  - intros m x. rewrite Hns. intros [[= <- <-] | Hin] Hattr; [reflexivity |].
    rewrite (Hnone m x Hin) in Hattr. discriminate.
  - intros a ax f Ha. rewrite (Hlk a Ha). now apply Hregular.
Qed.

Lemma world_position_with_handle (ns : list (string * Xform)) (hd : Xform) (f : Z) (p : V3) :
  ns = (handle_name sc, hd) :: nodes sc ->
  forall sc', nodes sc' = ns -> world_position sc' n f p = world_position sc n f p.
Proof.
  intros -> sc' Hns. unfold world_position. rewrite Hns.
  rewrite (lookup_cons_ne n (handle_name sc)) by (apply not_eq_sym, handle_above; now left).
  rewrite Hnd. f_equal. unfold world. rewrite !aapply_acomp. f_equal.
  apply chain_world_ext. intros a Ha. apply lookup_cons_ne.
  apply not_eq_sym, handle_above. now right.
Qed.

(** X20. The whole of Edit Pivot on a scene: Edit Pivot on the single
    selected node, whose pivot is unconnected and which has keys; the user
    moves the handle away from the pivot; Return.  The filter returns, the
    handle is gone, the rotate pivot of the node is where the handle was
    put, its matrix is unchanged, and at every frame every point of the node
    is where it was in the world before Edit Pivot.  The scene is one where
    the node is not above itself, no node carries ml_pivot_handle, and the
    host can invert the matrices of the node and of the nodes above it. *)
Theorem edit_move_return_preserves_world_motion (args : list Arg) (s : Ctx) (v : V3) :
  keyed nd ->
  v <> x_rotatePivot nd ->
  let o := run Maya (edit_pivot args) s sc in
  let h := handle_name sc in
  let moved :=
    snd (scene_exec unit (setAttr (h ++ ".translate") (vec_args v) None None) (world_after o)) in
  let o' := run Maya (keypressFilter (key_press Key_Return)) (self_after o) moved in
  result o' = Returned false /\
  lookup h (nodes (world_after o')) = None /\
  (exists nd',
     lookup n (nodes (world_after o')) = Some nd' /\
     x_rotatePivot nd' = v /\
     x_rotate nd' = x_rotate nd) /\
  (forall (f : Z) (p : V3),
     world_position (world_after o') n f p = world_position sc n f p).
Proof.
  intros Hkeyed Hv. cbv zeta.
  destruct (edit_pivot_on_scene args s) as [tr E]. rewrite E.
  cbn [self_after world_after scene_exec].
  rewrite (do_setAttr_translate (handle_name sc) (handle_of n nd) v (started sc n nd))
    by apply lookup_cons_eq.
  cbn [snd].
  set (hd := set_translate (handle_of n nd) (fun _ => v)).
  set (ns := (handle_name sc, hd) :: nodes sc).
  assert (Hup : update (handle_name sc) hd (nodes (started sc n nd)) = ns)
    by (unfold started; cbn [nodes]; apply update_cons_eq).
  rewrite !Hup.
  rewrite (filter_on_return Maya (key_press Key_Return)) by reflexivity.
  rewrite run_bind, run_with.
  unfold ask at 1. cbn [exec Maya scene_exec ok fst]. cbv zeta.
  match goal with |- context [run Maya bakePivot ?s1 ?w1] =>
    set (sB := s1); set (scB := w1)
  end.
  assert (Hses : in_session scB n (handle_name sc) nd hd).
  { apply (in_session_with_handle ns hd eq_refl eq_refl eq_refl). reflexivity. }
  assert (Hmoved : @vec_eqb ScalarNumber (x_translate hd (now scB)) (x_rotatePivot nd) = false).
  { cbn [hd set_translate x_translate].
    destruct (@vec_eqb ScalarNumber v (x_rotatePivot nd)) eqn:V; [| reflexivity].
    exfalso. apply Hv. now apply vec_eqb_true. }
  destruct (bake_in_session scB sB n (handle_name sc) nd hd eq_refl eq_refl Hses Hkeyed Hmoved)
    as (Rb & Hh & nd' & Hn' & Hrp & Hrot & Hworld & _).
  rewrite Rb.
  unfold ask, after.
  cbn [exec Maya scene_exec ok fst snd result self_after world_after calls prepend run
       nodes with_gui].
  split; [reflexivity |]. split; [exact Hh |].
  split; [exists nd'; auto |].
  intros f p.
  transitivity (world_position (world_after (run Maya bakePivot sB scB)) n f p);
    [reflexivity |].
  rewrite Hworld. apply (world_position_with_handle ns hd f p eq_refl). reflexivity.
Qed.

Hypothesis Hjobs : forall e, In e (jobs sc) -> fst e <> next_job sc.

Lemma cleanup_on_started (u : Ui) :
  exists tr,
    run Maya cleanup (started_context sc ctx0) (with_gui (started sc n nd) u)
    = mkOutcome (Returned tt) (started_context sc ctx0) (cancelled sc u) tr.
Proof.
  exact (cleanup_ends_the_session sc (started_context sc ctx0) (handle_of n nd) u
           ("SelectionChanged", cb_cleanup, true) eq_refl eq_refl Hnone Hjobs).
Qed.

(** X21. On a scene where no keypress filter is installed, Edit Pivot
    followed by Escape gives the scene back but for two things: nothing is
    selected any more, and the next job of the host will get the number
    after the one the session used.  The nodes, the plugs, the connections,
    the current frame, the jobs and the user interface, with no filter
    installed, are what they were before Edit Pivot. *)
Theorem escape_restores_the_scene (args : list Arg) (s : Ctx) :
  filter_installed (gui sc) = false ->
  let o := run Maya (edit_pivot args) s sc in
  let o' := run Maya (keypressFilter (key_press Key_Escape)) (self_after o) (world_after o) in
  result o' = Returned false /\
  world_after o' =
    mkScene (nodes sc) (scalars sc) (connections sc) [] (now sc) (jobs sc)
      (next_job sc + 1)%Z (gui sc).
Proof.
  intro Hnofilter.
  cbv zeta. destruct (edit_pivot_on_scene args s) as [tr E]. rewrite E.
  cbn [self_after world_after].
  rewrite (filter_on_escape Maya (key_press Key_Escape)) by reflexivity.
  destruct (cleanup_on_started (set_filter (gui sc) true)) as [tr2 E2].
  change (with_gui (started sc n nd) (set_filter (gui sc) true)) with (started sc n nd) in E2.
  rewrite (run_bind Maya cleanup), E2.
  cbn [result self_after world_after calls prepend].
  split; [reflexivity |].
  unfold cancelled, after. cbn [exec Maya scene_exec ok snd with_gui nodes scalars connections
    selection now jobs next_job gui].
  f_equal. unfold set_filter. revert Hnofilter.
  destruct (gui sc) as [installed ? ? ? ? ?].
  cbn [filter_installed warnings windows sliders window_buttons undo_depth].
  now intros ->.
Qed.

(** X22. Return on a handle that was not moved, and a change of selection,
    both cancel the session like Escape does, with one difference: the
    keypress filter stays installed. *)
Theorem return_on_an_unmoved_handle_cancels (args : list Arg) (s : Ctx) :
  let o := run Maya (edit_pivot args) s sc in
  let o' := run Maya (keypressFilter (key_press Key_Return)) (self_after o) (world_after o) in
  let o'' := run Maya (callback cb_cleanup) (self_after o) (world_after o) in
  result o' = Returned false /\
  world_after o' = cancelled sc (set_filter (gui sc) true) /\
  existsb bakes_or_sets (calls o') = false /\
  result o'' = Returned tt /\
  world_after o'' = cancelled sc (set_filter (gui sc) true).
Proof.
  cbv zeta. destruct (edit_pivot_on_scene args s) as [tr E]. rewrite E.
  cbn [self_after world_after].
  split; [| split; [| split]].
  4:{ destruct (cleanup_on_started (set_filter (gui sc) true)) as [tr2 E2].
      change (with_gui (started sc n nd) (set_filter (gui sc) true)) with (started sc n nd) in E2.
      cbn [callback]. rewrite E2. split; reflexivity. }
  all: rewrite (filter_on_return Maya (key_press Key_Return)) by reflexivity.
  all: rewrite run_bind, run_with.
  all: unfold ask at 1; cbn [exec Maya scene_exec ok fst]; cbv zeta.
  all: match goal with |- context [run Maya bakePivot ?s1 ?w1] =>
         destruct (bakePivot_gives_up Maya Maya_queries_pure s1 w1) as (qs & Eb & Q);
         [ right; right;
           exists (handle_name sc), n, (x_rotatePivot nd), (x_rotatePivot nd), [], [];
           split; [reflexivity |]; split; [reflexivity |];
           unfold ask, after; cbn [exec Maya scene_exec ok snd fst nodes with_gui started];
           unfold do_getAttr3; rewrite ?rsplit_dot_app by reflexivity;
           cbn [nodes with_gui started];
           rewrite ?lookup_cons_eq,
             ?(lookup_cons_ne n (handle_name sc)) by (apply not_eq_sym, handle_above; now left);
           rewrite ?Hnd; cbn [String.eqb Ascii.eqb Bool.eqb handle_of x_translate];
           repeat split; apply vec_eqb_refl
         | rewrite Eb ]
       end.
  all: match goal with |- context [run Maya cleanup _ ?w1] =>
         destruct (cleanup_on_started (gui w1)) as [tr2 E2];
         change (run Maya cleanup (started_context sc ctx0) w1)
           with (run Maya cleanup (started_context sc ctx0)
                   (with_gui (started sc n nd) (gui w1)));
         rewrite E2
       end.
  all: cbn [result self_after world_after calls prepend].
  - reflexivity.
  - reflexivity.
  - unfold ask, after.
    cbn [exec Maya scene_exec ok fst snd result calls prepend run self_after world_after].
    rewrite app_nil_r. cbn [existsb bakes_or_sets orb].
    rewrite !existsb_app. cbn [existsb bakes_or_sets orb]. rewrite !orb_false_r.
    rewrite (queries_are_not bakes_or_sets qs); [| | exact Q].
    + apply (f_equal calls) in E2. cbn [calls] in E2. rewrite <- E2.
      cbn [orb]. apply Always_never, cleanup_writes_nothing.
    + intros [T c]; destruct c; simpl; congruence.
Qed.

(** X23. Edit Pivot run twice in a row is Edit Pivot run once: the second run
    finds the handle selected and leaves the scene as the first run left
    it. *)
Theorem edit_pivot_twice_is_edit_pivot_once (args : list Arg) (s : Ctx) :
  result (run Maya (edit_pivot args ;; edit_pivot args) s sc) = Returned tt /\
  world_after (run Maya (edit_pivot args ;; edit_pivot args) s sc)
    = world_after (run Maya (edit_pivot args) s sc).
Proof.
  rewrite (run_bind Maya (edit_pivot args) (fun _ => edit_pivot args) s sc).
  destruct (edit_pivot_on_scene args s) as [tr E]. rewrite E.
  cbn [result self_after world_after calls prepend].
  unfold edit_pivot. cbn [set_self bind run]. unfold editPivot.
  rewrite (run_query Maya Maya_queries_pure ls_sl _ _ _ [handle_name sc]) by reflexivity.
  cbn [length Nat.ltb Nat.leb item0 bind].
  rewrite (run_query Maya Maya_queries_pure
             (attributeQuery_exists "ml_pivot_handle" (handle_name sc)) _ _ _ true).
  - split; reflexivity.
  - reflexivity.
  - unfold ask. cbn [exec Maya scene_exec started nodes]. now rewrite lookup_cons_eq.
Qed.

Lemma handle_gone : lookup (handle_name sc) (nodes sc) = None.
Proof.
  destruct (lookup (handle_name sc) (nodes sc)) as [x |] eqn:E; [| reflexivity].
  exfalso. apply (handle_name_fresh sc). now destruct (in_all_names _ _ _ E).
Qed.

(** X24. The filter that a change of selection leaves installed is harmless:
    a later Return leaves the scene as it is, and a later Escape removes the
    filter and nothing else. *)
Theorem keys_after_the_session_change_nothing (args : list Arg) (s : Ctx) :
  let o := run Maya (edit_pivot args) s sc in
  let o1 := run Maya (callback cb_cleanup) (self_after o) (world_after o) in
  let o2 := run Maya (keypressFilter (key_press Key_Return)) (self_after o1) (world_after o1) in
  let o3 := run Maya (keypressFilter (key_press Key_Escape)) (self_after o2) (world_after o2) in
  filter_installed (gui (world_after o1)) = true /\
  result o2 = Returned false /\
  world_after o2 = world_after o1 /\
  result o3 = Returned false /\
  world_after o3 = cancelled sc (set_filter (gui sc) false).
Proof.
  cbv zeta. destruct (edit_pivot_on_scene args s) as [tr E]. rewrite E.
  cbn [self_after world_after callback].
  destruct (cleanup_on_started (set_filter (gui sc) true)) as [tr1 E1].
  change (with_gui (started sc n nd) (set_filter (gui sc) true)) with (started sc n nd) in E1.
  rewrite E1. cbn [self_after world_after].
  set (s1 := started_context sc ctx0) in *.
  set (u1 := set_filter (gui sc) true) in *.
  assert (E2 : exists tr2,
             run Maya (keypressFilter (key_press Key_Return)) s1 (cancelled sc u1)
             = mkOutcome (Returned false) s1 (cancelled sc u1) tr2).
  { rewrite (filter_on_return Maya (key_press Key_Return)) by reflexivity.
    rewrite run_bind, run_with.
    unfold ask at 1. cbn [exec Maya scene_exec ok fst]. cbv zeta.
    match goal with |- context [run Maya bakePivot s1 ?w1] =>
      destruct (bakePivot_gives_up Maya Maya_queries_pure s1 w1) as (qs & Eb & Q);
      [ left; unfold ask; cbn [exec Maya scene_exec ok fst s1 started_context pivotHandle
                             after snd nodes with_gui cancelled];
        now rewrite handle_gone
      | rewrite Eb;
        destruct (cleanup_after_the_session sc s1 (gui w1) eq_refl eq_refl Hnone Hjobs)
          as [tr3 E3];
        change (run Maya cleanup s1 w1) with (run Maya cleanup s1 (cancelled sc (gui w1)));
        rewrite E3 ]
    end.
    cbn [result self_after world_after calls prepend].
    unfold ask, after. cbn [exec Maya scene_exec ok fst snd run prepend result self_after
                            world_after calls].
    eexists. reflexivity. }
  destruct E2 as [tr2 E2]. rewrite E2. cbn [self_after world_after result].
  split; [reflexivity | split; [reflexivity | split; [reflexivity |]]].
  rewrite (filter_on_escape Maya (key_press Key_Escape)) by reflexivity.
  destruct (cleanup_after_the_session sc s1 u1 eq_refl eq_refl Hnone Hjobs) as [tr3 E3].
  rewrite (run_bind Maya cleanup), E3.
  cbn [result self_after world_after calls prepend].
  split; reflexivity.
Qed.

End SceneSession.

(** * Reset Pivot on a scene *)

Lemma do_setAttr_rotate_zero (n : string) (x : Xform) (sc : Scene) :
  lookup n (nodes sc) = Some x ->
  do_setAttr (n ++ ".rotate") [ANum k0; ANum k0; ANum k0] sc =
  (Returned tt, with_nodes sc (update n (set_rotate x (fun _ => mid)) (nodes sc))).
Proof.
  intro Hx. unfold do_setAttr.
  rewrite rsplit_dot_app by reflexivity. rewrite Hx.
  cbn [String.eqb Ascii.eqb Bool.eqb]. rewrite !keqb_refl.
  destruct (lookup (n ++ ".rotate") (scalars sc)); reflexivity.
Qed.

Lemma without_cons_keep (k m : string) (x : Xform) (l : list (string * Xform)) :
  m <> k -> ~ In k (x_path x) ->
  without k ((m, x) :: l) = (m, x) :: without k l.
Proof.
  intros Hm Hp. unfold without. cbn [filter fst snd].
  destruct (String.eqb_spec m k); [contradiction |].
  assert (Hp' : mem k (x_path x) = false) by now apply mem_false.
  now rewrite Hp'.
Qed.

Lemma is_pivot_connected_on_scene (n : string) (sc : Scene) :
  observe Maya (is_pivot_connected n) sc
    = Returned (existsb (fun each => nonempty (do_listConnections (n ++ "." ++ each) false sc))
                  pivot_plugs).
Proof.
  unfold observe, is_pivot_connected.
  apply (is_pivot_connected_loop_answer Maya Maya_queries_pure n pivot_plugs
           (fun each => do_listConnections (n ++ "." ++ each) false sc)).
  reflexivity.
Qed.

Lemma is_pivot_connected_on_connections (n : string) (sc sc' : Scene) :
  connections sc' = connections sc ->
  observe Maya (is_pivot_connected n) sc' = observe Maya (is_pivot_connected n) sc.
Proof.
  intro Hc. rewrite !is_pivot_connected_on_scene.
  unfold do_listConnections. now rewrite Hc.
Qed.

Section Reset.

Variables (sc : Scene) (n : string) (nd : Xform).
Hypothesis Hsel : selection sc = [n].
Hypothesis Hnd : lookup n (nodes sc) = Some nd.
Hypothesis Hfree : observe Maya (is_pivot_connected n) sc = Returned false.
Hypothesis Hpivot : x_rotatePivot nd <> vzero.
Hypothesis Hacyclic : ~ In n (x_path nd).
Hypothesis Hregular : forall a ax f, In a (x_path nd) -> lookup a (nodes sc) = Some ax ->
                                   regular (x_rotate ax f).

Lemma away_from_zero : @vec_eqb ScalarNumber (x_rotatePivot nd) vzero = false.
Proof.
  destruct (@vec_eqb ScalarNumber (x_rotatePivot nd) vzero) eqn:V; [| reflexivity].
  exfalso. apply Hpivot. now apply vec_eqb_true.
Qed.

Lemma reset_above_regular (f : Z) : regular (fst (chain_world (nodes sc) (x_path nd) f)).
Proof. apply chain_world_regular. intros a x Ha. now apply Hregular. Qed.

Lemma reset_sequence (args : list Arg) (s : Ctx) :
  exists (tr : list Event) (nd2 : Xform),
    run Maya (reset_pivot args) s sc =
      mkOutcome (Returned tt) s
        (mkScene (update n nd2 (update n (set_rotatePivot nd vzero) (nodes sc)))
           (scalars sc) (connections sc) [n] (now sc) (jobs sc) (next_job sc) (gui sc))
        tr /\
    x_rotatePivot nd2 = vzero /\
    x_rotate nd2 = x_rotate nd /\
    x_path nd2 = x_path nd /\
    (forall f, x_translate nd2 f = vsub (aapply (local nd f) vzero) vzero) /\
    existsb is_matchBake tr = true.
Proof.
  set (ns0 := nodes sc) in *.
  eexists. eexists. split.
  rewrite <- (prepend_nil Maya (run Maya (reset_pivot args) s sc)).
  unfold reset_pivot.
  erewrite run_Maya_step; [| cbn [scene_exec]; rewrite Hsel; reflexivity].
  cbn [length Nat.ltb Nat.leb item0 bind].
  match goal with |- context [run Maya (bind _ ?f) s sc] =>
    destruct (run_bind_pure Maya Maya_queries_pure (is_pivot_connected n) f s sc false
                (is_pivot_connected_pure n) Hfree) as [E1 _]
  end.
  rewrite E1, prepend_prepend.
  rewrite run_bind_assoc.
  erewrite run_Maya_step;
    [| cbn [scene_exec]; unfold do_getAttr3;
       rewrite rsplit_dot_app by reflexivity; fold ns0; rewrite Hnd; reflexivity].
  cbn [item0 bind String.eqb Ascii.eqb Bool.eqb].
  pose proof away_from_zero as Hz.
  change vzero with (@zero ScalarNumber, @zero ScalarNumber, @zero ScalarNumber) in Hz.
  rewrite Hz. clear Hz.
  unfold reset_pivot_bake.
  (* tempPosition = mc.group(em=True) *)
  set (tPos := fresh_name "null1" (all_names ns0)).
  assert (HtPos : ~ In tPos (all_names ns0)) by apply fresh_name_fresh.
  destruct (in_all_names n nd ns0 Hnd) as [Hn_in Hpath_in].
  assert (Hpn : tPos <> n) by (intros E; apply HtPos; now rewrite E).
  erewrite run_Maya_step; [| cbn [scene_exec]; unfold do_group, ok; reflexivity].
  fold ns0. fold tPos.
  (* tempPivot = mc.group(em=True) *)
  erewrite run_Maya_step; [| cbn [scene_exec]; unfold do_group, ok; reflexivity].
  cbn [nodes with_selection with_nodes].
  set (tPiv := fresh_name "null1" (all_names ((tPos, new_transform) :: ns0))).
  assert (HtPiv : ~ In tPiv (all_names ((tPos, new_transform) :: ns0))) by apply fresh_name_fresh.
  assert (Hvp : tPiv <> tPos) by (intros E; apply HtPiv; left; now rewrite E).
  assert (HtPiv0 : ~ In tPiv (all_names ns0)) by (intros E; apply HtPiv; right; exact E).
  assert (Hvn : tPiv <> n) by (intros E; apply HtPiv0; now rewrite E).
  (* tempPivot = mc.parent(tempPivot, node)[0] *)
  rewrite run_bind_assoc.
  erewrite run_Maya_step;
    [| cbn [scene_exec]; unfold do_parent, ok; cbn [nodes with_selection with_nodes];
       rewrite lookup_cons_eq;
       rewrite (lookup_cons_ne n tPiv) by exact Hvn;
       rewrite (lookup_cons_ne n tPos) by exact Hpn; fold ns0; rewrite Hnd;
       cbn [new_transform x_locked]; rewrite update_cons_eq; reflexivity].
  cbn [item0 bind nodes with_selection with_nodes].
  (* mc.setAttr(tempPivot+'.translate', 0,0,0) *)
  erewrite run_Maya_step;
    [| cbn [scene_exec]; eapply (do_setAttr_translate tPiv _ vzero);
       cbn [nodes with_nodes]; apply lookup_cons_eq].
  cbn [nodes with_nodes]. rewrite update_cons_eq.
  (* mc.setAttr(tempPivot+'.rotate', 0,0,0) *)
  erewrite run_Maya_step;
    [| cbn [scene_exec]; apply do_setAttr_rotate_zero;
       cbn [nodes with_nodes]; apply lookup_cons_eq].
  cbn [nodes with_nodes]. rewrite update_cons_eq.
  set (P1 := set_rotate (set_translate (set_path new_transform (n :: x_path nd))
                            (fun _ => vzero)) (fun _ => mid)).
  (* utl.matchBake(source=[tempPivot], destination=[tempPosition], ...) *)
  erewrite run_Maya_step;
    [| cbn [scene_exec do_matchBake nodes with_nodes];
       rewrite lookup_cons_eq;
       rewrite (lookup_cons_ne tPos tPiv) by exact Hvp;
       rewrite lookup_cons_eq;
       rewrite (update_cons_ne tPos tPiv) by exact Hvp;
       rewrite update_cons_eq; reflexivity].
  set (ns3 := (tPiv, P1) :: (tPos, new_transform) :: ns0).
  set (T1 := bake_pair ns3 _ false false tPos P1 new_transform).
  (* mc.setAttr(node+'.rotatePivot', 0,0,0) *)
  erewrite run_Maya_step;
    [| cbn [scene_exec]; eapply (do_setAttr_rotatePivot n nd vzero);
       cbn [nodes with_nodes];
       rewrite (lookup_cons_ne n tPiv) by exact Hvn;
       rewrite (lookup_cons_ne n tPos) by exact Hpn; exact Hnd].
  cbn [nodes with_nodes].
  rewrite (update_cons_ne n tPiv) by exact Hvn.
  rewrite (update_cons_ne n tPos) by exact Hpn.
  set (nd1 := set_rotatePivot nd vzero).
  (* mc.refresh() *)
  erewrite run_Maya_step; [| cbn [scene_exec]; reflexivity].
  (* utl.matchBake(source=[tempPosition], destination=[node], ...) *)
  erewrite run_Maya_step;
    [| cbn [scene_exec do_matchBake nodes with_nodes];
       rewrite (lookup_cons_ne tPos tPiv) by exact Hvp;
       rewrite lookup_cons_eq;
       rewrite (lookup_cons_ne n tPiv) by exact Hvn;
       rewrite (lookup_cons_ne n tPos) by exact Hpn;
       rewrite (lookup_update_same n nd1 nd) by exact Hnd;
       rewrite (update_cons_ne n tPiv) by exact Hvn;
       rewrite (update_cons_ne n tPos) by exact Hpn; reflexivity].
  set (ns4 := (tPiv, P1) :: (tPos, T1) :: update n nd1 ns0).
  set (nd2 := bake_pair ns4 _ false false n T1 nd1).
  assert (Hnames : all_names (update n nd2 (update n nd1 ns0)) = all_names ns0).
  { rewrite (all_names_update n nd2 nd1);
      [| now apply (lookup_update_same n nd1 nd) | reflexivity].
    now rewrite (all_names_update n nd1 nd). }
  assert (HP1 : ~ In tPos (x_path P1)).
  { cbn [P1 set_rotate set_translate set_path x_path].
    intros [E | E]; [now apply Hpn | apply HtPos; now apply Hpath_in]. }
  (* mc.delete(tempPosition,tempPivot) *)
  erewrite run_Maya_step;
    [| cbn [scene_exec do_delete nodes with_nodes];
       rewrite (lookup_cons_ne tPos tPiv) by exact Hvp;
       rewrite lookup_cons_eq;
       cbn [T1 bake_pair set_curves set_translate set_rotate new_transform x_locked];
       rewrite (without_cons_keep tPos tPiv) by assumption;
       rewrite without_head;
       rewrite (without_fresh tPos) by (now rewrite Hnames);
       cbn [nodes with_selection with_nodes];
       rewrite lookup_cons_eq;
       cbn [P1 set_rotate set_translate set_path new_transform x_locked];
       rewrite without_head;
       rewrite (without_fresh tPiv) by (now rewrite Hnames);
       reflexivity].
  (* mc.select(node) *)
  rewrite run_call_last. unfold prepend, ask, after.
  cbn [exec Maya scene_exec nodes with_selection with_nodes].
  rewrite (lookup_update_same n nd2 nd1) by (now apply (lookup_update_same n nd1 nd)).
  cbn [ok fst snd result self_after world_after calls with_selection with_nodes
       nodes scalars connections now jobs next_job gui].
  reflexivity.
  split; [reflexivity |].
  split; [reflexivity |].
  split; [reflexivity |].
  split.
  2:{ rewrite !existsb_app.
      repeat (progress (rewrite ?orb_false_r, ?orb_true_r; simpl)). reflexivity. }
  intro f.
  set (tPos := fresh_name "null1" (all_names ns0)).
  assert (HtPos : ~ In tPos (all_names ns0)) by apply fresh_name_fresh.
  destruct (in_all_names n nd ns0 Hnd) as [Hn_in Hpath_in].
  assert (Hpn : tPos <> n) by (intros E; apply HtPos; now rewrite E).
  set (tPiv := fresh_name "null1" (all_names ((tPos, new_transform) :: ns0))).
  assert (HtPiv : ~ In tPiv (all_names ((tPos, new_transform) :: ns0))) by apply fresh_name_fresh.
  assert (HtPiv0 : ~ In tPiv (all_names ns0)) by (intros E; apply HtPiv; right; exact E).
  assert (Hvn : tPiv <> n) by (intros E; apply HtPiv0; now rewrite E).
  assert (F1 : forall X Y g, chain_world ((tPiv, X) :: (tPos, Y) :: ns0) (x_path nd) g
                             = chain_world ns0 (x_path nd) g).
  { intros X Y g. apply chain_world_ext. intros a Ha.
    rewrite lookup_cons_ne by (intros E; apply HtPiv0; rewrite E; now apply Hpath_in).
    apply lookup_cons_ne. intros E. apply HtPos. rewrite E. now apply Hpath_in. }
  assert (F2 : forall X Y Z g,
             chain_world ((tPiv, X) :: (tPos, Y) :: update n Z ns0) (x_path nd) g
             = chain_world ns0 (x_path nd) g).
  { intros X Y Z g. apply chain_world_ext. intros a Ha.
    rewrite lookup_cons_ne by (intros E; apply HtPiv0; rewrite E; now apply Hpath_in).
    rewrite lookup_cons_ne by (intros E; apply HtPos; rewrite E; now apply Hpath_in).
    apply lookup_update_other. intros ->. contradiction. }
  repeat (progress (unfold pivot_world, world;
    cbn [x_translate x_rotatePivot x_path x_rotate bake_pair set_curves set_translate
         set_rotate set_rotatePivot set_path new_transform now with_selection with_nodes
         chain_world])).
  rewrite !F1, ?F2.
  unfold local_of.
  rewrite (lookup_cons_ne n tPiv) by exact Hvn.
  rewrite (lookup_cons_ne n tPos) by exact Hpn. fold ns0. rewrite Hnd.
  rewrite ?aapply_ainv_aid, ?aapply_aid, ?vadd_zero_l, ?vsub_zero_r.
  rewrite aapply_acomp.
  rewrite aapply_ainv by apply reset_above_regular.
  reflexivity.
Qed.

(** X25. Reset Pivot on a scene.  The scene has one selected node, whose
    rotate pivot is unconnected and away from the origin; the node is not
    above itself, and the host can invert, at every frame, the matrix of
    every node above it (of the node itself nothing is asked).  Then Reset
    Pivot returns after baking: the node is selected, its rotate pivot is at
    the origin, its matrix is unchanged, every point of the node is at every
    frame where it was in the world, and every other node is as before, so
    that the two helpers are gone; a second Reset Pivot changes nothing. *)
Theorem reset_pivot_preserves_world_motion (args : list Arg) (s : Ctx) :
  let o := run Maya (reset_pivot args) s sc in
  result o = Returned tt /\
  existsb is_matchBake (calls o) = true /\
  selection (world_after o) = [n] /\
  (forall a, a <> n -> lookup a (nodes (world_after o)) = lookup a (nodes sc)) /\
  (exists nd',
     lookup n (nodes (world_after o)) = Some nd' /\
     x_rotatePivot nd' = vzero /\
     x_rotate nd' = x_rotate nd) /\
  (forall (f : Z) (p : V3),
     world_position (world_after o) n f p = world_position sc n f p) /\
  world_after (run Maya (reset_pivot args ;; reset_pivot args) s sc) = world_after o.
Proof.
  cbv zeta.
  destruct (reset_sequence args s) as (tr & nd2 & E & Hrp & Hrot & Hpath & Htr & Hbake).
  rewrite (run_bind Maya (reset_pivot args) (fun _ => reset_pivot args) s sc).
  rewrite E. cbn [result self_after world_after calls prepend].
  match type of E with _ = mkOutcome _ _ ?w _ => set (scF := w) in * end.
  set (ns0 := nodes sc) in *.
  assert (HnF : lookup n (nodes scF) = Some nd2).
  { cbn [scF nodes]. apply (lookup_update_same n nd2 (set_rotatePivot nd vzero)).
    now apply (lookup_update_same n _ nd). }
  assert (HoF : forall a, a <> n -> lookup a (nodes scF) = lookup a ns0).
  { intros a Ha. cbn [scF nodes]. now rewrite !lookup_update_other. }
  split; [reflexivity |]. split; [exact Hbake |]. split; [reflexivity |].
  split; [exact HoF |].
  split; [exists nd2; auto |].
  split.
  - intros f p. unfold world_position. rewrite HnF. fold ns0. rewrite Hnd.
    f_equal. unfold world. rewrite !aapply_acomp, Hpath. f_equal.
    + apply chain_world_ext. intros a Ha. apply HoF. intros ->. contradiction.
    + unfold local. rewrite Hrot, Hrp, Htr. unfold local. apply repivot.
  - assert (R : at_reset Maya n scF).
    { left. split.
      - rewrite (is_pivot_connected_on_connections n sc scF) by reflexivity. exact Hfree.
      - exists vzero, []. split; [| apply vec_eqb_refl].
        unfold ask. cbn [exec Maya scene_exec fst]. unfold do_getAttr3.
        rewrite rsplit_dot_app by reflexivity. rewrite HnF.
        cbn [String.eqb Ascii.eqb Bool.eqb]. now rewrite Hrp. }
    destruct (reset_pivot_at_reset Maya Maya_queries_pure args s scF n eq_refl R)
      as (qs & E2 & _).
    rewrite E2. reflexivity.
Qed.

End Reset.

End SessionFacts.

(** * The further statements at work on scenes *)

Lemma is_pivot_connected_answer_witness :
  observe Maya (is_pivot_connected "cube") connected_scene = Returned true.
Proof.
  apply (is_pivot_connected_answer Maya Maya_queries_pure "cube"
           (fun each => do_listConnections ("cube" ++ "." ++ each) false connected_scene)
           connected_scene).
  intros each _. reflexivity.
Defined.

Lemma pivot_driver_attr_ignores_the_compound_plug_witness :
  observe Maya (is_pivot_connected "cube") connected_scene = Returned true /\
  observe Maya (pivot_driver_attr "cube") connected_scene = Returned None.
Proof.
  split; [reflexivity |].
  apply (pivot_driver_attr_ignores_the_compound_plug Maya Maya_queries_pure "cube"
           connected_scene).
  intros each [<- | [<- | [<- | []]]]; reflexivity.
Defined.

Lemma pivot_driver_attr_sound_witness :
  drives Maya "cube" "ctrl.pivotBlend" driven_scene.
Proof.
  apply (pivot_driver_attr_sound Maya Maya_queries_pure "cube" "ctrl.pivotBlend" driven_scene).
  reflexivity.
Defined.

Lemma escape_removes_the_filter_when_cleanup_returns_witness :
  existsb removes_filter
    (calls (run Maya (keypressFilter (key_press Key_Escape)) (self_after session_start)
              (world_after session_start))) = true <->
  result (run Maya cleanup (self_after session_start) (world_after session_start)) = Returned tt.
Proof.
  apply (escape_removes_the_filter_when_cleanup_returns Maya (key_press Key_Escape)
           (self_after session_start) (world_after session_start)).
  reflexivity.
Defined.

Lemma doEditPivotDriver_cuts_keys_after_baking_witness :
  exists pre post,
    calls (run Maya doEditPivotDriver (self_after slider_start) slider_moved)
      = pre ++ Ev (cutKey "ctrl.pivotBlend") :: post /\
    existsb is_matchBake pre = true.
Proof.
  eexists (firstn 14 (calls (run Maya doEditPivotDriver (self_after slider_start) slider_moved))),
          (skipn 15 (calls (run Maya doEditPivotDriver (self_after slider_start) slider_moved))).
  assert (E : calls (run Maya doEditPivotDriver (self_after slider_start) slider_moved)
      = firstn 14 (calls (run Maya doEditPivotDriver (self_after slider_start) slider_moved))
        ++ Ev (cutKey "ctrl.pivotBlend")
        :: skipn 15 (calls (run Maya doEditPivotDriver (self_after slider_start) slider_moved)))
    by (vm_compute; reflexivity).
  split; [exact E |].
  exact (doEditPivotDriver_cuts_keys_after_baking Maya (self_after slider_start) slider_moved
           _ _ _ E eq_refl).
Defined.

Lemma bakePivot_gives_up_quietly_witness :
  run Maya bakePivot (self_after session_start) (world_after session_start) =
    prepend [Ev (objExists (Some "Adjust_Pivot")); Ev (objExists (Some "cube"));
             Ev (getAttr3 "Adjust_Pivot.translate"); Ev (getAttr3 "cube.rotatePivot")]
            (run Maya cleanup (self_after session_start) (world_after session_start)).
Proof.
  apply (proj1 (proj2 (proj2
           (bakePivot_gives_up_quietly Maya Maya_queries_pure
              (self_after session_start) (world_after session_start))))
           "Adjust_Pivot" "cube" (0, 0, 0)%Z (0, 0, 0)%Z [] []);
    reflexivity.
Defined.

Lemma editPivot_on_a_free_node_starts_a_session_witness :
  exists qs,
    run Maya editPivot EditPivotContext cube_scene =
      prepend qs (run Maya editPivotHandle cube_context cube_scene) /\
    forallb query_event qs = true.
Proof.
  apply (editPivot_on_a_free_node_starts_a_session Maya Maya_queries_pure
           EditPivotContext cube_scene "cube"); reflexivity.
Defined.

Lemma editPivot_on_a_driven_node_opens_the_slider_witness :
  existsb opens_session (calls (run Maya editPivot EditPivotContext driven_scene)) = false.
Proof.
  apply (editPivot_on_a_driven_node_opens_the_slider Maya Maya_queries_pure
           EditPivotContext driven_scene "cube" "ctrl.pivotBlend");
    try reflexivity; discriminate.
Defined.

Lemma doEditPivotDriver_with_unchanged_value_witness :
  nodes (world_after (run Maya doEditPivotDriver (self_after slider_start)
                        (world_after slider_start)))
    = nodes driven_scene.
Proof.
  rewrite (doEditPivotDriver_with_unchanged_value Maya Maya_queries_pure
             (self_after slider_start) (world_after slider_start)
             "floatSliderButtonGrp1" "ml_pivot_editPivotDriverUI" "ctrl.pivotBlend" 0%Z 0%Z);
    reflexivity.
Defined.

Lemma editPivotHandle_records_what_it_made_witness :
  exists h0 h rest n rp rest' job,
    node cube_context = Some n /\
    replies Maya editPivotHandle cube_context cube_scene =
      [Re installEventFilter (Returned tt);
       Re (group_em (Some "Adjust_Pivot")) (Returned h0);
       Re (setAttr (h0 ++ ".rotate") [] (Some true) None) (Returned tt);
       Re (setAttr (h0 ++ ".rx") [] None (Some false)) (Returned tt);
       Re (setAttr (h0 ++ ".ry") [] None (Some false)) (Returned tt);
       Re (setAttr (h0 ++ ".rz") [] None (Some false)) (Returned tt);
       Re (setAttr (h0 ++ ".scale") [] (Some true) None) (Returned tt);
       Re (setAttr (h0 ++ ".sx") [] None (Some false)) (Returned tt);
       Re (setAttr (h0 ++ ".sy") [] None (Some false)) (Returned tt);
       Re (setAttr (h0 ++ ".sz") [] None (Some false)) (Returned tt);
       Re (setAttr (h0 ++ ".visibility") [] (Some true) (Some false)) (Returned tt);
       Re (setAttr (h0 ++ ".displayHandle") [ABool true] None None) (Returned tt);
       Re (parent h0 (Some n)) (Returned (h :: rest));
       Re (addAttr h "ml_pivot_handle" "bool" false) (Returned tt);
       Re (getAttr3 (n ++ ".rotatePivot")) (Returned (rp :: rest'));
       Re (setAttr (h ++ ".translate") (vec_args rp) None None) (Returned tt);
       Re (lockNode (Some h) true) (Returned tt);
       Re (scriptJob_event "SelectionChanged" cb_cleanup true) (Returned job);
       Re (setToolTo "Move") (Returned tt);
       Re (inViewMessage
             "After moving the pivot, press <hl>Return</hl> to bake or <hl>Esc</hl> to cancel."
             "midCenterTop" true 4000 true) (Returned tt)] /\
    self_after (run Maya editPivotHandle cube_context cube_scene) =
      mkCtx (Some n) (Some h) (Some job) None None None.
Proof.
  apply (editPivotHandle_records_what_it_made Maya cube_context cube_scene).
  reflexivity.
Defined.

Lemma editPivotDriver_prepares_the_bake_witness :
  exists node_ attr value minValue rest1 maxValue rest2 shown window layout slider,
    split_dot "ctrl.pivotBlend" = Some (node_, attr) /\
    replies Maya (editPivotDriver "ctrl.pivotBlend") cube_context driven_scene =
      [Re (getAttr "ctrl.pivotBlend") (Returned value);
       Re (attributeQuery_minimum attr node_) (Returned (minValue :: rest1));
       Re (attributeQuery_maximum attr node_) (Returned (maxValue :: rest2));
       Re (window_exists "ml_pivot_editPivotDriverUI") (Returned shown)]
      ++ (if shown : bool
          then [Re (deleteUI "ml_pivot_editPivotDriverUI") (Returned tt)] else [])
      ++ [Re (window_create "ml_pivot_editPivotDriverUI" 1 1) (Returned window);
          Re columnLayout (Returned layout);
          Re (floatSliderButtonGrp attr true value "Bake" minValue maxValue
                cb_doEditPivotDriver) (Returned slider);
          Re (showWindow window) (Returned tt);
          Re (window_edit "ml_pivot_editPivotDriverUI" 1 1) (Returned tt)] /\
    self_after (run Maya (editPivotDriver "ctrl.pivotBlend") cube_context driven_scene) =
      mkCtx (Some "cube") None None (Some "ctrl.pivotBlend") (Some "ml_pivot_editPivotDriverUI")
        (Some slider) /\
    forall w', exists o,
      run Maya (callback cb_doEditPivotDriver)
        (self_after (run Maya (editPivotDriver "ctrl.pivotBlend") cube_context driven_scene)) w'
      = logged (Ev (floatSliderButtonGrp_query_value slider)) o.
Proof.
  apply (editPivotDriver_prepares_the_bake Maya "ctrl.pivotBlend" cube_context driven_scene).
  reflexivity.
Defined.

Lemma reset_pivot_on_a_driven_node_witness :
  exists tempPosition tempPivot newRP,
    filter bakes_or_sets (calls (run Maya (reset_pivot []) EditPivotContext driven_away_scene)) =
      [Ev (setAttr "ctrl.pivotBlend" [ANum 0%Z] None None);
       Ev (setAttr "ctrl.pivotBlend" [ANum 5%Z] None None);
       Ev (setAttr (tempPivot ++ ".translate") (vec_args newRP) None None);
       Ev (setAttr (tempPivot ++ ".rotate") [ANum zero; ANum zero; ANum zero] None None);
       Ev (matchBake [tempPivot] [tempPosition] true false false (Some false));
       Ev (setAttr "ctrl.pivotBlend" [ANum 0%Z] None None);
       Ev (matchBake [tempPosition] ["cube"] true false false (Some false))].
Proof.
  apply (reset_pivot_on_a_driven_node Maya Maya_queries_pure [] EditPivotContext
           driven_away_scene "cube" "ctrl.pivotBlend" "ctrl" "pivotBlend" 5%Z 0%Z []);
    try reflexivity; discriminate.
Defined.

(** ** The sessions of the animated cube *)

Lemma cube_scene_has_no_handle (m : string) (x : Xform) :
  In (m, x) (nodes cube_scene) -> mem "ml_pivot_handle" (x_attrs x) = false.
Proof. intros [[= <- <-] | []]. reflexivity. Qed.

Lemma cube_scene_has_no_job (e : Z * (string * Callback * bool)) :
  In e (jobs cube_scene) -> fst e <> next_job cube_scene.
Proof. intros []. Qed.

Lemma edit_pivot_puts_the_handle_at_the_pivot_witness :
  world_position (world_after (run Maya (edit_pivot []) EditPivotContext cube_scene))
    (handle_name cube_scene) 3 vzero
  = world_position cube_scene "cube" 3 (x_rotatePivot cube).
Proof.
  apply (edit_pivot_puts_the_handle_at_the_pivot cube_scene "cube" cube
           eq_refl eq_refl eq_refl eq_refl [] EditPivotContext).
Defined.

Lemma escape_restores_the_scene_witness :
  result (run Maya (keypressFilter (key_press Key_Escape)) (self_after session_start)
            (world_after session_start)) = Returned false /\
  world_after (run Maya (keypressFilter (key_press Key_Escape)) (self_after session_start)
                 (world_after session_start))
  = mkScene [("cube", cube)] [] [] [] 1%Z [] 2%Z no_ui.
Proof.
  apply (escape_restores_the_scene cube_scene "cube" cube
           eq_refl eq_refl eq_refl eq_refl cube_scene_has_no_handle
           cube_scene_has_no_job [] EditPivotContext eq_refl).
Defined.

Lemma return_on_an_unmoved_handle_cancels_witness :
  filter_installed (gui (world_after
    (run Maya (keypressFilter (key_press Key_Return)) (self_after session_start)
       (world_after session_start)))) = true.
Proof.
  apply (f_equal (fun w => filter_installed (gui w))
           (proj1 (proj2 (return_on_an_unmoved_handle_cancels cube_scene "cube" cube
                     eq_refl eq_refl eq_refl eq_refl cube_scene_has_no_handle
                     cube_scene_has_no_job [] EditPivotContext)))).
Defined.

Lemma edit_pivot_twice_is_edit_pivot_once_witness :
  world_after (run Maya (edit_pivot [] ;; edit_pivot []) EditPivotContext cube_scene)
  = world_after session_start.
Proof.
  apply (edit_pivot_twice_is_edit_pivot_once cube_scene "cube" cube
           eq_refl eq_refl eq_refl eq_refl [] EditPivotContext).
Defined.

Lemma keys_after_the_session_change_nothing_witness :
  let o1 := run Maya (callback cb_cleanup) (self_after session_start)
              (world_after session_start) in
  world_after (run Maya (keypressFilter (key_press Key_Return)) (self_after o1) (world_after o1))
  = world_after o1.
Proof.
  apply (keys_after_the_session_change_nothing cube_scene "cube" cube
           eq_refl eq_refl eq_refl eq_refl cube_scene_has_no_handle
           cube_scene_has_no_job [] EditPivotContext).
Defined.

(** ** Reset Pivot on the cube *)

(** On the cube with its pivot at (2, 3, 0), after Reset Pivot: the pivot
    is back at the origin, the two helpers are
    gone, the translation has been baked, and the cube is where it was at
    each of these frames. *)
Example reset_pivot_on_the_cube :
  let after := world_after (run Maya (reset_pivot []) EditPivotContext pivoted_scene) in
  map fst (nodes after) = ["cube"] /\
  option_map x_rotatePivot (lookup "cube" (nodes after)) = Some (0, 0, 0)%Z /\
  option_map (fun x => map (x_translate x) [0; 1; 2; 3]%Z) (lookup "cube" (nodes after))
    = Some [(0, 0, 0); (6, 1, 0); (2, 0, 0); (8, 1, 0)]%Z /\
  map (fun f => world_position after "cube" f (5, 7, 9)%Z) [0; 1; 2; 3]%Z
    = map (fun f => world_position pivoted_scene "cube" f (5, 7, 9)%Z) [0; 1; 2; 3]%Z.
Proof. cbv zeta. repeat split; vm_compute; reflexivity. Qed.

(** ** The rig with rational values *)

Section RigFacts.

#[local] Existing Instance QcScalars | 0.

Lemma rig_regular (a : string) (ax : Xform) (f : Z) :
  In a ["arm"; "rig"] -> lookup a (nodes rig_scene) = Some ax -> regular (x_rotate ax f).
Proof.
  intros [<- | [<- | []]] [= <-]; cbn [x_rotate arm rig];
    destruct (Z.even f); apply Qcanon.Qc_is_canon; vm_compute; reflexivity.
Qed.

Lemma rig_scene_has_no_handle (m : string) (x : Xform) :
  In (m, x) (nodes rig_scene) -> mem "ml_pivot_handle" (x_attrs x) = false.
Proof. intros [[= <- <-] | [[= <- <-] | []]]; reflexivity. Qed.

Lemma half_is_not_zero : (ratio 1 2, whole 2, whole 0) <> (whole 0, whole 0, whole 0).
Proof.
  intro E. apply (f_equal (fun v : @V3 QcScalars => Qcanon.this (fst (fst v)))) in E.
  vm_compute in E. discriminate.
Qed.

Lemma edit_move_return_preserves_world_motion_witness :
  result rig_committed = Returned false /\
  lookup "Adjust_Pivot" (nodes (world_after rig_committed)) = None /\
  (exists nd',
     lookup "arm" (nodes (world_after rig_committed)) = Some nd' /\
     x_rotatePivot nd' = (ratio 1 2, whole 2, whole 0) /\
     x_rotate nd' = x_rotate arm) /\
  (forall (f : Z) (p : V3),
     world_position (world_after rig_committed) "arm" f p = world_position rig_scene "arm" f p).
Proof.
  apply (edit_move_return_preserves_world_motion rig_scene "arm" arm
           eq_refl eq_refl eq_refl eq_refl
           ltac:(simpl; intuition discriminate)
           rig_scene_has_no_handle rig_regular
           [] EditPivotContext (ratio 1 2, whole 2, whole 0)
           ltac:(unfold keyed; simpl; discriminate)
           half_is_not_zero).
Defined.

Lemma pivoted_rig_above_regular (a : string) (ax : Xform) (f : Z) :
  In a ["rig"] -> lookup a (nodes pivoted_rig_scene) = Some ax -> regular (x_rotate ax f).
Proof.
  intros [<- | []] [= <-]; cbn [x_rotate rig];
    destruct (Z.even f); apply Qcanon.Qc_is_canon; vm_compute; reflexivity.
Qed.

Lemma reset_pivot_preserves_world_motion_witness :
  let o := run Maya (reset_pivot []) EditPivotContext pivoted_rig_scene in
  result o = Returned tt /\
  existsb is_matchBake (calls o) = true /\
  selection (world_after o) = ["arm"] /\
  (forall a, a <> "arm" -> lookup a (nodes (world_after o)) = lookup a (nodes pivoted_rig_scene)) /\
  (exists nd',
     lookup "arm" (nodes (world_after o)) = Some nd' /\
     x_rotatePivot nd' = vzero /\
     x_rotate nd' = x_rotate pivoted_arm) /\
  (forall (f : Z) (p : V3),
     world_position (world_after o) "arm" f p = world_position pivoted_rig_scene "arm" f p) /\
  world_after (run Maya (reset_pivot [] ;; reset_pivot []) EditPivotContext pivoted_rig_scene)
    = world_after o.
Proof.
  apply (reset_pivot_preserves_world_motion pivoted_rig_scene "arm" pivoted_arm
           eq_refl eq_refl eq_refl half_is_not_zero
           ltac:(simpl; intuition discriminate)
           pivoted_rig_above_regular [] EditPivotContext).
Defined.

(** On the rig: the pivot of the arm is at the handle, the handle and the
    helper are gone, and the point (5, 7, 9) of the arm is at each of these
    frames where it was in the world. *)
Example edit_pivot_on_the_rig :
  map fst (nodes (world_after rig_committed)) = ["arm"; "rig"] /\
  fractions (map (fun f => world_position (world_after rig_committed) "arm" f
                             (whole 5, whole 7, whole 9)) [0; 1; 2; 3]%Z)
  = fractions (map (fun f => world_position rig_scene "arm" f
                               (whole 5, whole 7, whole 9)) [0; 1; 2; 3]%Z) /\
  fractions (map (fun f => world_position rig_scene "arm" f
                             (whole 5, whole 7, whole 9)) [0; 1]%Z)
  = map Some [(QArith_base.Qmake 10 1, QArith_base.Qmake 8 1, QArith_base.Qmake 9 1);
              (QArith_base.Qmake 5 1, QArith_base.Qmake 51 5, QArith_base.Qmake 9 1)].
Proof. repeat split; vm_compute; reflexivity. Qed.

(** The same for Reset Pivot, on the arm with its pivot at (1/2, 2, 0),
    below the parent that is scaled by 2. *)
Example reset_pivot_on_the_rig :
  let after := world_after (run Maya (reset_pivot []) EditPivotContext pivoted_rig_scene) in
  map fst (nodes after) = ["arm"; "rig"] /\
  fractions (map (fun f => world_position after "arm" f
                             (whole 5, whole 7, whole 9)) [0; 1; 2; 3]%Z)
  = fractions (map (fun f => world_position pivoted_rig_scene "arm" f
                               (whole 5, whole 7, whole 9)) [0; 1; 2; 3]%Z).
Proof. cbv zeta. repeat split; vm_compute; reflexivity. Qed.

End RigFacts.
